(** * Teacher-Evaluation-System: scoring engine and observation lifecycle

    A shallow embedding of
    - [src/utils/scoring.ts] (the scoring engine),
    - the threshold table of [src/types] (DEFAULT_OVERALL_RATING_THRESHOLDS),
    - [src/lib/rateLimit.ts], [src/lib/audit-log.ts],
    - the status-transition route (PUT .../status) and the observation
      route (PUT and DELETE .../observations/[id]),
    - the label table of [src/types] (RATING_LABELS), the state updates
      of the observation form and the scoring of the export route
      (GET .../observations/[id]/export),
    together with the properties the specification states about them
    and further properties of the code.

    Numbers.  Ratings, maximum scores, totals and student counts are
    integers in every call site; they are modelled by [Z].  Percentages
    and threshold bounds are JavaScript doubles.  [Scoring] models them
    by exact rationals [Q], and [Math.round] by rounding half up; this
    idealises the rounding of the double operations, which matters
    where [10000 * total / max] lies half way between two integers:
    there the double product can fall just below the half and the code
    answers the lower hundredth (41 out of 160 gives 25.62, not 25.63).
    [Scoring64] therefore computes the same percentages in IEEE
    binary64 ([Binary64], over the Standard Library's [SpecFloat]), as
    the code does, and the properties that pin the value of a
    percentage are stated on it.  [Binary64Facts] proves that the
    double pipeline answers a nearest hundredth, and the hundredth of
    the rational model everywhere but at such ties.

    Strings are read as UTF-8 byte sequences.  The limiter's store, a
    plain object, is a finite map on the keys that name nothing the
    object inherits from [Object.prototype] ([RateLimiter.ownKey]).

    Optional values.  [undefined] (and an absent object key) is [None].
    In the scoring engine the TypeScript types exclude [null]; in the
    route handlers a nullable database column is an [option] whose
    [None] is SQL NULL. *)

From Stdlib Require Import ZArith QArith Qround Qpower Lia Lqa.
From Stdlib Require Import Floats.SpecFloat.
From stdpp Require Import base option strings list gmap fin_maps.

Local Open Scope string_scope.
Local Open Scope Z_scope.

(** ** JavaScript helpers *)

Module Js.

(** [x || undefined] on an optional number: [0] is falsy. *)
Definition truthy_num (x : option Z) : option Z :=
  match x with
  | Some 0 => None
  | Some r => Some r
  | None => None
  end.

(** [x || undefined] on an optional string: the empty string is falsy. *)
Definition truthy_str (x : option string) : option string :=
  match x with
  | Some "" => None
  | Some s => Some s
  | None => None
  end.

(** [s || d] on a string. *)
Definition str_or (s d : string) : string :=
  if String.eqb s "" then d else s.

(** [Math.round]: the nearest integer, ties towards plus infinity. *)
Definition round (x : Q) : Z := Qfloor (x + (1 # 2)).

(** [Math.round(x * 100) / 100] on an exact rational; on doubles see
    [Binary64.round2]. *)
Definition round2 (x : Q) : Q := inject_Z (round (x * 100)) / 100.

End Js.

(** ** The percentage pipeline in IEEE binary64

    The arithmetic of [percentage] and of the band test as JavaScript
    performs it on doubles. *)

Module Binary64.

Definition prec : Z := 53.
Definition emax : Z := 1024.

Definition ofZ (n : Z) : spec_float := binary_normalize prec emax n 0 false.
Definition div : spec_float → spec_float → spec_float := SFdiv prec emax.
Definition mul : spec_float → spec_float → spec_float := SFmul prec emax.

(** The double nearest to a rational literal. *)
Definition ofQ (q : Q) : spec_float := div (ofZ (Qnum q)) (ofZ (Zpos (Qden q))).

(** [Math.round]: the integer nearest to a finite double, ties towards
    plus infinity, computed exactly from mantissa and exponent. *)
Definition round (x : spec_float) : spec_float :=
  match x with
  | S754_finite s m e =>
      let n := cond_Zopp s (Zpos m) in
      if 0 <=? e then ofZ (n * 2 ^ e)
      else ofZ ((2 * n + 2 ^ (- e)) / 2 ^ (1 - e))
  | _ => x
  end.

(** [Math.round(x * 100) / 100] *)
Definition round2 (x : spec_float) : spec_float :=
  div (round (mul x (ofZ 100))) (ofZ 100).

(** [den > 0 ? (num / den) * 100 : 0], rounded by [round2]. *)
Definition percentage (num den : Z) : spec_float :=
  round2 (if 0 <? den then mul (div (ofZ num) (ofZ den)) (ofZ 100) else ofZ 0).

End Binary64.

(** ** The scoring engine, [src/utils/scoring.ts] *)

Module Scoring.

Record RubricItem := {
  item_id : string;
  item_domainId : string;
  item_number : Z;
  item_prompt : string;
  item_orderIndex : Z;
  maxScore : Z;
  scaleMin : Z;
  scaleMax : Z
}.

Record RubricDomain := {
  domain_id : string;
  domain_name : string;
  domain_description : string;
  domain_orderIndex : Z;
  items : list RubricItem
}.

(** The values of the [itemScores] record passed by the form:
    [{ rating: RatingScale; comment: string }], either field possibly
    missing at run time. *)
Record ScoreEntry := {
  entry_rating : option Z;
  entry_comment : option string
}.

Record ObservationItemScore := {
  id : string;
  observationId : string;
  rubricItemId : string;
  rating : option Z;
  comment : option string;
  createdAt : Z;
  updatedAt : Z
}.

Record DomainScore := {
  domainId : string;
  domainName : string;
  total : Z;
  percentage : Q;
  itemScores : list ObservationItemScore
}.

Record OverallRatingThreshold := {
  minPercentage : Q;
  maxPercentage : Q;
  threshold_rating : string;
  threshold_color : string
}.

Record OverallRating := {
  overall_rating : string;
  overall_color : string;
  overall_percentage : Q
}.

Definition DEFAULT_OVERALL_RATING_THRESHOLDS : list OverallRatingThreshold :=
  [ {| minPercentage := 90; maxPercentage := 100;
       threshold_rating := "Excellent"; threshold_color := "success" |};
    {| minPercentage := 75; maxPercentage := 89;
       threshold_rating := "Good"; threshold_color := "primary" |};
    {| minPercentage := 60; maxPercentage := 74;
       threshold_rating := "Average"; threshold_color := "warning" |};
    {| minPercentage := 50; maxPercentage := 59;
       threshold_rating := "Weak"; threshold_color := "warning" |};
    {| minPercentage := 0; maxPercentage := 49;
       threshold_rating := "Very Poor"; threshold_color := "danger" |} ]%Q.

(** The inner [domain.items.map(item => ...)]; [now] is the reading of
    [new Date()]. *)
Definition domainItemScore (now : Z) (scores : gmap string ScoreEntry)
    (item : RubricItem) : ObservationItemScore :=
  let score := scores !! item_id item in
  {| id := "score-" +:+ item_id item;
     observationId := "temp";
     rubricItemId := item_id item;
     rating := Js.truthy_num (score ≫= entry_rating);
     comment := Js.truthy_str (score ≫= entry_comment);
     createdAt := now;
     updatedAt := now |}.

(** [score.rating !== undefined && score.rating !== null] *)
Definition isApplicable (score : ObservationItemScore) : bool :=
  match rating score with Some _ => true | None => false end.

(** [applicableItems.length * domain.items[0]?.maxScore || 0]: the
    product binds tighter than [||]; with no first item the product is
    NaN, which [||] turns into 0, and a zero product stays 0. *)
Definition maxPossibleScore (domain : RubricDomain)
    (applicableItems : list ObservationItemScore) : Z :=
  match items domain with
  | [] => 0
  | first :: _ => Z.of_nat (length applicableItems) * maxScore first
  end.

Definition domainScore (now : Z) (scores : gmap string ScoreEntry)
    (domain : RubricDomain) : DomainScore :=
  let domainItemScores := List.map (domainItemScore now scores) (items domain) in
  let applicableItems := List.filter isApplicable domainItemScores in
  let total :=
    fold_left (fun sum score => sum + default 0 (Js.truthy_num (rating score)))
              applicableItems 0 in
  let maxPossible := maxPossibleScore domain applicableItems in
  let percentage : Q :=
    if 0 <? maxPossible
    then ((inject_Z total / inject_Z maxPossible) * 100)%Q
    else 0%Q in
  {| domainId := domain_id domain;
     domainName := domain_name domain;
     total := total;
     percentage := Js.round2 percentage;
     itemScores := domainItemScores |}.

Definition calculateDomainScores (now : Z) (domains : list RubricDomain)
    (scores : gmap string ScoreEntry) : list DomainScore :=
  List.map (domainScore now scores) domains.

Definition calculateGrandTotal (domainScores : list DomainScore) : Z :=
  fold_left (fun sum domain => sum + total domain) domainScores 0.

(** [score.rating !== undefined && score.rating !== 0] *)
Definition isRated (r : option Z) : bool :=
  match r with
  | Some 0 => false
  | Some _ => true
  | None => false
  end.

Definition totalMaxScore (domainScores : list DomainScore) : Z :=
  fold_left
    (fun sum domain =>
       let applicableItems :=
         List.filter (fun score => isRated (rating score)) (itemScores domain) in
       sum + Z.of_nat (length applicableItems) * 4)
    domainScores 0.

Definition overallPercentage (domainScores : list DomainScore) : Q :=
  let grandTotal := calculateGrandTotal domainScores in
  let tms := totalMaxScore domainScores in
  if 0 <? tms then ((inject_Z grandTotal / inject_Z tms) * 100)%Q else 0%Q.

Definition roundedPercentage (domainScores : list DomainScore) : Q :=
  Js.round2 (overallPercentage domainScores).

(** [t => roundedPercentage >= t.minPercentage && roundedPercentage <= t.maxPercentage] *)
Definition inBand (p : Q) (t : OverallRatingThreshold) : bool :=
  Qle_bool (minPercentage t) p && Qle_bool p (maxPercentage t).

Definition calculateOverallRating (domainScores : list DomainScore)
    (thresholds : list OverallRatingThreshold) : OverallRating :=
  match domainScores with
  | [] => {| overall_rating := "No Data"; overall_color := "gray";
             overall_percentage := 0 |}
  | _ :: _ =>
      let rounded := roundedPercentage domainScores in
      let threshold := List.find (inBand rounded) thresholds in
      {| overall_rating :=
           match threshold with
           | Some t => Js.str_or (threshold_rating t) "Unknown"
           | None => "Unknown"
           end;
         overall_color :=
           match threshold with
           | Some t => Js.str_or (threshold_color t) "gray"
           | None => "gray"
           end;
         overall_percentage := rounded |}
  end.

Record ObservationData := {
  totalStudents : Z;
  presentStudents : Z;
  data_itemScores : gmap string ScoreEntry
}.

Record Validation := {
  isValid : bool;
  errors : list string
}.

(** [errors.push(msg)] when [cond] holds. *)
Definition pushIf (cond : bool) (msg : string) (errors : list string) : list string :=
  if cond then errors ++ [msg] else errors.

(** [Object.values(itemScores).some(score => score.rating !== undefined && score.rating !== 0)] *)
Definition hasScores (scores : gmap string ScoreEntry) : bool :=
  existsb (fun kv => isRated (entry_rating kv.2)) (map_to_list scores).

Definition validateObservationData (data : ObservationData) : Validation :=
  let errors := [] in
  let errors := pushIf (totalStudents data <=? 0)
                  "Total students must be greater than 0" errors in
  let errors := pushIf (presentStudents data <? 0)
                  "Present students cannot be negative" errors in
  let errors := pushIf (presentStudents data >? totalStudents data)
                  "Present students cannot exceed total students" errors in
  let errors := pushIf (negb (hasScores (data_itemScores data)))
                  "At least one rubric item must be scored" errors in
  {| isValid := bool_decide (length errors = 0%nat);
     errors := errors |}.

End Scoring.

(** ** The observation lifecycle: route handlers over the record store *)

Module Lifecycle.

(** *** Records of the store *)

(** Modelled from the spec: the Prisma schema is not among the sources.
    The columns are those the handlers read or write, completed by the
    fields the data model of the specification lists for an
    Observation. *)
Record Observation := {
  id : string;
  branchId : string;
  teacherId : string;
  observerId : string;
  reviewerId : option string;
  classSection : string;
  totalStudents : Z;
  presentStudents : Z;
  subject : string;
  topic : string;
  date : Z;
  time : string;
  lessonPlanAttached : bool;
  strengths : option string;
  areasToImprove : option string;
  suggestions : option string;
  status : string;
  reviewedAt : option Z;
  finalizedAt : option Z;
  reviewerComments : option string
}.

(** A row of [observationItemScore]; [rating] is a nullable column. *)
Record ObservationItemScore := {
  observationId : string;
  rubricItemId : string;
  rating : option Z;
  comment : option string
}.

Record Attachment := {
  attachment_observationId : string;
  fileName : string
}.

Record AuditDiff := {
  diff_action : string;
  previousStatus : option string;
  newStatus : option string
}.

Record AuditLog := {
  objectType : string;
  objectId : string;
  action : string;
  userId : string;
  diff : AuditDiff
}.

Record Db := {
  observations : gmap string Observation;
  observationItemScores : list ObservationItemScore;
  attachments : list Attachment;
  auditLogs : list AuditLog
}.

(** *** Column assignments

    The [data] object of a Prisma [update] names the columns it
    writes; every other column keeps its value.  A [data] object is a
    list of assignments, applied in order. *)

Inductive Assignment :=
  | Set_status (v : string)
  | Set_reviewerId (v : option string)
  | Set_reviewedAt (v : option Z)
  | Set_reviewerComments (v : option string)
  | Set_finalizedAt (v : option Z)
  | Set_classSection (v : string)
  | Set_totalStudents (v : Z)
  | Set_presentStudents (v : Z)
  | Set_subject (v : string)
  | Set_topic (v : string)
  | Set_date (v : Z)
  | Set_time (v : string)
  | Set_lessonPlanAttached (v : bool)
  | Set_strengths (v : option string)
  | Set_areasToImprove (v : option string)
  | Set_suggestions (v : option string).

Definition assign (o : Observation) (a : Assignment) : Observation :=
  match a with
  | Set_status v =>
      {| id := id o; branchId := branchId o; teacherId := teacherId o;
         observerId := observerId o; reviewerId := reviewerId o;
         classSection := classSection o; totalStudents := totalStudents o;
         presentStudents := presentStudents o; subject := subject o;
         topic := topic o; date := date o; time := time o;
         lessonPlanAttached := lessonPlanAttached o;
         strengths := strengths o; areasToImprove := areasToImprove o;
         suggestions := suggestions o; status := v;
         reviewedAt := reviewedAt o; finalizedAt := finalizedAt o;
         reviewerComments := reviewerComments o |}
  | Set_reviewerId v =>
      {| id := id o; branchId := branchId o; teacherId := teacherId o;
         observerId := observerId o; reviewerId := v;
         classSection := classSection o; totalStudents := totalStudents o;
         presentStudents := presentStudents o; subject := subject o;
         topic := topic o; date := date o; time := time o;
         lessonPlanAttached := lessonPlanAttached o;
         strengths := strengths o; areasToImprove := areasToImprove o;
         suggestions := suggestions o; status := status o;
         reviewedAt := reviewedAt o; finalizedAt := finalizedAt o;
         reviewerComments := reviewerComments o |}
  | Set_reviewedAt v =>
      {| id := id o; branchId := branchId o; teacherId := teacherId o;
         observerId := observerId o; reviewerId := reviewerId o;
         classSection := classSection o; totalStudents := totalStudents o;
         presentStudents := presentStudents o; subject := subject o;
         topic := topic o; date := date o; time := time o;
         lessonPlanAttached := lessonPlanAttached o;
         strengths := strengths o; areasToImprove := areasToImprove o;
         suggestions := suggestions o; status := status o;
         reviewedAt := v; finalizedAt := finalizedAt o;
         reviewerComments := reviewerComments o |}
  | Set_reviewerComments v =>
      {| id := id o; branchId := branchId o; teacherId := teacherId o;
         observerId := observerId o; reviewerId := reviewerId o;
         classSection := classSection o; totalStudents := totalStudents o;
         presentStudents := presentStudents o; subject := subject o;
         topic := topic o; date := date o; time := time o;
         lessonPlanAttached := lessonPlanAttached o;
         strengths := strengths o; areasToImprove := areasToImprove o;
         suggestions := suggestions o; status := status o;
         reviewedAt := reviewedAt o; finalizedAt := finalizedAt o;
         reviewerComments := v |}
  | Set_finalizedAt v =>
      {| id := id o; branchId := branchId o; teacherId := teacherId o;
         observerId := observerId o; reviewerId := reviewerId o;
         classSection := classSection o; totalStudents := totalStudents o;
         presentStudents := presentStudents o; subject := subject o;
         topic := topic o; date := date o; time := time o;
         lessonPlanAttached := lessonPlanAttached o;
         strengths := strengths o; areasToImprove := areasToImprove o;
         suggestions := suggestions o; status := status o;
         reviewedAt := reviewedAt o; finalizedAt := v;
         reviewerComments := reviewerComments o |}
  | Set_classSection v =>
      {| id := id o; branchId := branchId o; teacherId := teacherId o;
         observerId := observerId o; reviewerId := reviewerId o;
         classSection := v; totalStudents := totalStudents o;
         presentStudents := presentStudents o; subject := subject o;
         topic := topic o; date := date o; time := time o;
         lessonPlanAttached := lessonPlanAttached o;
         strengths := strengths o; areasToImprove := areasToImprove o;
         suggestions := suggestions o; status := status o;
         reviewedAt := reviewedAt o; finalizedAt := finalizedAt o;
         reviewerComments := reviewerComments o |}
  | Set_totalStudents v =>
      {| id := id o; branchId := branchId o; teacherId := teacherId o;
         observerId := observerId o; reviewerId := reviewerId o;
         classSection := classSection o; totalStudents := v;
         presentStudents := presentStudents o; subject := subject o;
         topic := topic o; date := date o; time := time o;
         lessonPlanAttached := lessonPlanAttached o;
         strengths := strengths o; areasToImprove := areasToImprove o;
         suggestions := suggestions o; status := status o;
         reviewedAt := reviewedAt o; finalizedAt := finalizedAt o;
         reviewerComments := reviewerComments o |}
  | Set_presentStudents v =>
      {| id := id o; branchId := branchId o; teacherId := teacherId o;
         observerId := observerId o; reviewerId := reviewerId o;
         classSection := classSection o; totalStudents := totalStudents o;
         presentStudents := v; subject := subject o; topic := topic o;
         date := date o; time := time o;
         lessonPlanAttached := lessonPlanAttached o;
         strengths := strengths o; areasToImprove := areasToImprove o;
         suggestions := suggestions o; status := status o;
         reviewedAt := reviewedAt o; finalizedAt := finalizedAt o;
         reviewerComments := reviewerComments o |}
  | Set_subject v =>
      {| id := id o; branchId := branchId o; teacherId := teacherId o;
         observerId := observerId o; reviewerId := reviewerId o;
         classSection := classSection o; totalStudents := totalStudents o;
         presentStudents := presentStudents o; subject := v;
         topic := topic o; date := date o; time := time o;
         lessonPlanAttached := lessonPlanAttached o;
         strengths := strengths o; areasToImprove := areasToImprove o;
         suggestions := suggestions o; status := status o;
         reviewedAt := reviewedAt o; finalizedAt := finalizedAt o;
         reviewerComments := reviewerComments o |}
  | Set_topic v =>
      {| id := id o; branchId := branchId o; teacherId := teacherId o;
         observerId := observerId o; reviewerId := reviewerId o;
         classSection := classSection o; totalStudents := totalStudents o;
         presentStudents := presentStudents o; subject := subject o;
         topic := v; date := date o; time := time o;
         lessonPlanAttached := lessonPlanAttached o;
         strengths := strengths o; areasToImprove := areasToImprove o;
         suggestions := suggestions o; status := status o;
         reviewedAt := reviewedAt o; finalizedAt := finalizedAt o;
         reviewerComments := reviewerComments o |}
  | Set_date v =>
      {| id := id o; branchId := branchId o; teacherId := teacherId o;
         observerId := observerId o; reviewerId := reviewerId o;
         classSection := classSection o; totalStudents := totalStudents o;
         presentStudents := presentStudents o; subject := subject o;
         topic := topic o; date := v; time := time o;
         lessonPlanAttached := lessonPlanAttached o;
         strengths := strengths o; areasToImprove := areasToImprove o;
         suggestions := suggestions o; status := status o;
         reviewedAt := reviewedAt o; finalizedAt := finalizedAt o;
         reviewerComments := reviewerComments o |}
  | Set_time v =>
      {| id := id o; branchId := branchId o; teacherId := teacherId o;
         observerId := observerId o; reviewerId := reviewerId o;
         classSection := classSection o; totalStudents := totalStudents o;
         presentStudents := presentStudents o; subject := subject o;
         topic := topic o; date := date o; time := v;
         lessonPlanAttached := lessonPlanAttached o;
         strengths := strengths o; areasToImprove := areasToImprove o;
         suggestions := suggestions o; status := status o;
         reviewedAt := reviewedAt o; finalizedAt := finalizedAt o;
         reviewerComments := reviewerComments o |}
  | Set_lessonPlanAttached v =>
      {| id := id o; branchId := branchId o; teacherId := teacherId o;
         observerId := observerId o; reviewerId := reviewerId o;
         classSection := classSection o; totalStudents := totalStudents o;
         presentStudents := presentStudents o; subject := subject o;
         topic := topic o; date := date o; time := time o;
         lessonPlanAttached := v; strengths := strengths o;
         areasToImprove := areasToImprove o; suggestions := suggestions o;
         status := status o; reviewedAt := reviewedAt o;
         finalizedAt := finalizedAt o;
         reviewerComments := reviewerComments o |}
  | Set_strengths v =>
      {| id := id o; branchId := branchId o; teacherId := teacherId o;
         observerId := observerId o; reviewerId := reviewerId o;
         classSection := classSection o; totalStudents := totalStudents o;
         presentStudents := presentStudents o; subject := subject o;
         topic := topic o; date := date o; time := time o;
         lessonPlanAttached := lessonPlanAttached o; strengths := v;
         areasToImprove := areasToImprove o; suggestions := suggestions o;
         status := status o; reviewedAt := reviewedAt o;
         finalizedAt := finalizedAt o;
         reviewerComments := reviewerComments o |}
  | Set_areasToImprove v =>
      {| id := id o; branchId := branchId o; teacherId := teacherId o;
         observerId := observerId o; reviewerId := reviewerId o;
         classSection := classSection o; totalStudents := totalStudents o;
         presentStudents := presentStudents o; subject := subject o;
         topic := topic o; date := date o; time := time o;
         lessonPlanAttached := lessonPlanAttached o;
         strengths := strengths o; areasToImprove := v;
         suggestions := suggestions o; status := status o;
         reviewedAt := reviewedAt o; finalizedAt := finalizedAt o;
         reviewerComments := reviewerComments o |}
  | Set_suggestions v =>
      {| id := id o; branchId := branchId o; teacherId := teacherId o;
         observerId := observerId o; reviewerId := reviewerId o;
         classSection := classSection o; totalStudents := totalStudents o;
         presentStudents := presentStudents o; subject := subject o;
         topic := topic o; date := date o; time := time o;
         lessonPlanAttached := lessonPlanAttached o;
         strengths := strengths o; areasToImprove := areasToImprove o;
         suggestions := v; status := status o; reviewedAt := reviewedAt o;
         finalizedAt := finalizedAt o;
         reviewerComments := reviewerComments o |}
  end.

Definition applyData (data : list Assignment) (o : Observation) : Observation :=
  fold_left assign data o.

(** *** [src/lib/rateLimit.ts] *)

Record RateEntry := {
  count : Z;
  resetTime : Z
}.

Record RateLimitResult := {
  success : bool;
  remaining : Z;
  result_resetTime : Z
}.

Definition rateLimit (now : Z) (identifier : string) (maxRequests windowMs : Z)
    (store : gmap string RateEntry) : RateLimitResult * gmap string RateEntry :=
  let fresh :=
    ({| success := true; remaining := maxRequests - 1;
        result_resetTime := now + windowMs |},
     <[identifier := {| count := 1; resetTime := now + windowMs |}]> store) in
  match store !! identifier with
  | None => fresh
  | Some entry =>
      if now >? resetTime entry then fresh
      else if count entry >=? maxRequests then
        ({| success := false; remaining := 0;
            result_resetTime := resetTime entry |}, store)
      else
        ({| success := true; remaining := maxRequests - (count entry + 1);
            result_resetTime := resetTime entry |},
         <[identifier := {| count := count entry + 1;
                            resetTime := resetTime entry |}]> store)
  end.

(** [forwarded || realIp || 'unknown'] over the two request headers. *)
Definition getClientIdentifier (forwarded realIp : option string) : string :=
  match Js.truthy_str forwarded with
  | Some ip => ip
  | None => default "unknown" (Js.truthy_str realIp)
  end.

(** *** Requests, responses and the handler monad *)

Record SessionUser := {
  user_id : string;
  role : string
}.

(** What one request sees of its surroundings: the clock, the session
    next-auth resolves, and whether [prisma.auditLog.create] rejects.
    Every other store operation is taken to succeed. *)
Record Env := {
  now : Z;
  session : option SessionUser;
  auditLogCreateFails : bool
}.

Record World := {
  db : Db;
  rateLimitStore : gmap string RateEntry
}.

Inductive Body :=
  | ErrorBody (error : string)
  | RateLimitBody (error : string) (resetTime : Z)
  | ObservationBody (observation : Observation)
  | MessageBody (message : string).

(** [NextResponse.json(body, { status })]; response headers are left out. *)
Record Response := {
  response_status : Z;
  response_body : Body
}.

Definition json (body : Body) (status : Z) : Response :=
  {| response_status := status; response_body := body |}.

(** A step of a handler either goes on with a value, leaves the handler
    with a response ([return NextResponse.json(...)]), or throws. *)
Inductive Outcome (A : Type) :=
  | Value (a : A)
  | Return (r : Response)
  | Throw.
Arguments Value {A} a.
Arguments Return {A} r.
Arguments Throw {A}.

Definition M (A : Type) : Type := World → Outcome A * World.

#[global] Instance M_ret : MRet M := λ A a w, (Value a, w).

#[global] Instance M_bind : MBind M := λ A B f m w,
  match m w with
  | (Value a, w') => f a w'
  | (Return r, w') => (Return r, w')
  | (Throw, w') => (Throw, w')
  end.

Definition respond {A} (r : Response) : M A := λ w, (Return r, w).

Definition throw {A} : M A := λ w, (Throw, w).

Definition returnIf (cond : bool) (r : Response) : M unit :=
  if cond then respond r else mret ().

Definition getDb : M Db := λ w, (Value (db w), w).

Definition putDb (d : Db) : M unit :=
  λ w, (Value (), {| db := d; rateLimitStore := rateLimitStore w |}).

(** [try { ... } catch (error) { return json({ error: 'Internal server error' }, 500) }] *)
Definition tryCatch (body : M Response) (w : World) : Response * World :=
  match body w with
  | (Value r, w') => (r, w')
  | (Return r, w') => (r, w')
  | (Throw, w') => (json (ErrorBody "Internal server error") 500, w')
  end.

(** *** Store operations *)

Definition rateLimitM (env : Env) (identifier : string) (maxRequests windowMs : Z)
    : M RateLimitResult :=
  λ w, let '(r, store) := rateLimit (now env) identifier maxRequests windowMs
                            (rateLimitStore w) in
       (Value r, {| db := db w; rateLimitStore := store |}).

(** [prisma.observation.findUnique({ where: { id }, include: { itemScores: true } })] *)
Definition findUnique (oid : string) : M (option (Observation * list ObservationItemScore)) :=
  d ← getDb;
  mret (o ← observations d !! oid;
        Some (o, List.filter (λ row, bool_decide (observationId row = oid))
                   (observationItemScores d))).

(** [prisma.observation.update({ where: { id }, data })]: rejects when
    the row is missing. *)
Definition update (oid : string) (data : list Assignment) : M Observation :=
  d ← getDb;
  match observations d !! oid with
  | None => throw
  | Some o =>
      putDb {| observations := <[oid := applyData data o]> (observations d);
               observationItemScores := observationItemScores d;
               attachments := attachments d;
               auditLogs := auditLogs d |};;
      mret (applyData data o)
  end.

(** [prisma.auditLog.create({ data })] *)
Definition auditLogCreate (env : Env) (entry : AuditLog) : M unit :=
  if auditLogCreateFails env then throw
  else
    d ← getDb;
    putDb {| observations := observations d;
             observationItemScores := observationItemScores d;
             attachments := attachments d;
             auditLogs := auditLogs d ++ [entry] |}.

(** [prisma.observationItemScore.deleteMany({ where: { observationId } })] *)
Definition itemScoreDeleteMany (oid : string) : M unit :=
  d ← getDb;
  putDb {| observations := observations d;
           observationItemScores :=
             List.filter (λ row, negb (bool_decide (observationId row = oid)))
                         (observationItemScores d);
           attachments := attachments d;
           auditLogs := auditLogs d |}.

(** [prisma.observationItemScore.createMany({ data })] *)
Definition itemScoreCreateMany (rows : list ObservationItemScore) : M unit :=
  d ← getDb;
  putDb {| observations := observations d;
           observationItemScores := observationItemScores d ++ rows;
           attachments := attachments d;
           auditLogs := auditLogs d |}.

(** [prisma.attachment.deleteMany({ where: { observationId } })] *)
Definition attachmentDeleteMany (oid : string) : M unit :=
  d ← getDb;
  putDb {| observations := observations d;
           observationItemScores := observationItemScores d;
           attachments :=
             List.filter (λ a, negb (bool_decide (attachment_observationId a = oid)))
                         (attachments d);
           auditLogs := auditLogs d |}.

(** [prisma.observation.delete({ where: { id } })]: rejects when the
    row is missing. *)
Definition observationDelete (oid : string) : M unit :=
  d ← getDb;
  match observations d !! oid with
  | None => throw
  | Some _ =>
      putDb {| observations := delete oid (observations d);
               observationItemScores := observationItemScores d;
               attachments := attachments d;
               auditLogs := auditLogs d |}
  end.

(** *** The status route: [PUT /api/observations/[id]/status] *)

Inductive Action := SUBMIT | REVIEW | FINALIZE | RETURN_TO_DRAFT.

(** The spelling of an action in the request body; it is already upper
    case, so [action.toUpperCase()] returns it. *)
Definition actionName (a : Action) : string :=
  match a with
  | SUBMIT => "SUBMIT"
  | REVIEW => "REVIEW"
  | FINALIZE => "FINALIZE"
  | RETURN_TO_DRAFT => "RETURN_TO_DRAFT"
  end.

(** [!action || ![...].includes(action)] answers [None]; afterwards the
    [switch] can only take one of its four cases. *)
Definition parseAction (action : option string) : option Action :=
  match action with
  | Some "SUBMIT" => Some SUBMIT
  | Some "REVIEW" => Some REVIEW
  | Some "FINALIZE" => Some FINALIZE
  | Some "RETURN_TO_DRAFT" => Some RETURN_TO_DRAFT
  | _ => None
  end.

(** *** [String.prototype.trim]

    A string is read as UTF-8.  [trim] removes from both ends the white
    space and line terminator code points of ECMAScript: U+0009 to
    U+000D and U+0020 (one byte each, [Ascii.is_space]), U+00A0 (two
    bytes), and U+1680, U+2000 to U+200A, U+2028, U+2029, U+202F,
    U+205F, U+3000 and U+FEFF (three bytes each). *)

(** U+00A0 is C2 A0. *)
Definition isWhiteSpace2 (b1 b2 : Ascii.ascii) : bool :=
  ((Ascii.N_of_ascii b1 =? 194) && (Ascii.N_of_ascii b2 =? 160))%N.

(** U+1680 is E1 9A 80; U+2000 to U+200A are E2 80 80 to E2 80 8A;
    U+2028, U+2029 and U+202F are E2 80 A8, E2 80 A9 and E2 80 AF;
    U+205F is E2 81 9F; U+3000 is E3 80 80; U+FEFF is EF BB BF. *)
Definition isWhiteSpace3 (b1 b2 b3 : Ascii.ascii) : bool :=
  let '(c1, c2, c3) := (Ascii.N_of_ascii b1, Ascii.N_of_ascii b2, Ascii.N_of_ascii b3) in
  ((c1 =? 225) && (c2 =? 154) && (c3 =? 128)
   || (c1 =? 226) && (c2 =? 128)
      && ((128 <=? c3) && (c3 <=? 138) || (c3 =? 168) || (c3 =? 169) || (c3 =? 175))
   || (c1 =? 226) && (c2 =? 129) && (c3 =? 159)
   || (c1 =? 227) && (c2 =? 128) && (c3 =? 128)
   || (c1 =? 239) && (c2 =? 187) && (c3 =? 191))%N.

Fixpoint trimStart (s : string) : string :=
  match s with
  | EmptyString => EmptyString
  | String b1 rest1 =>
      if Ascii.is_space b1 then trimStart rest1
      else
        match rest1 with
        | EmptyString => s
        | String b2 rest2 =>
            if isWhiteSpace2 b1 b2 then trimStart rest2
            else
              match rest2 with
              | EmptyString => s
              | String b3 rest3 =>
                  if isWhiteSpace3 b1 b2 b3 then trimStart rest3 else s
              end
        end
  end.

(** [trimStart] on the reversed string, where the bytes of a code point
    come last byte first. *)
Fixpoint trimStartReversed (s : string) : string :=
  match s with
  | EmptyString => EmptyString
  | String b1 rest1 =>
      if Ascii.is_space b1 then trimStartReversed rest1
      else
        match rest1 with
        | EmptyString => s
        | String b2 rest2 =>
            if isWhiteSpace2 b2 b1 then trimStartReversed rest2
            else
              match rest2 with
              | EmptyString => s
              | String b3 rest3 =>
                  if isWhiteSpace3 b3 b2 b1 then trimStartReversed rest3 else s
              end
        end
  end.

(** [String.prototype.trim] *)
Definition trim (s : string) : string :=
  String.rev (trimStartReversed (String.rev (trimStart s))).

Record StatusRequest := {
  forwardedFor : option string;
  realIp : option string;
  params_id : string;
  body_action : option string;
  body_reviewerComments : option string
}.

(** [['REVIEWER', 'ADMIN'].includes(session.user.role)] *)
Definition isReviewerOrAdmin (user : SessionUser) : bool :=
  bool_decide (role user = "REVIEWER") || bool_decide (role user = "ADMIN").

Definition forbidden : Response := json (ErrorBody "Forbidden") 403.

(** The body of the [switch (action)]: the checks of the case, then its
    [prisma.observation.update]; answers [updatedObservation] and
    [auditAction]. *)
Definition transition (env : Env) (user : SessionUser) (oid : string)
    (sanitizedReviewerComments : option string)
    (observation : Observation) (itemScores : list ObservationItemScore)
    (action : Action) : M (Observation * string) :=
  match action with
  | SUBMIT =>
      returnIf (bool_decide (observerId observation ≠ user_id user)
                && bool_decide (role user ≠ "ADMIN")) forbidden;;
      returnIf (bool_decide (status observation ≠ "DRAFT"))
        (json (ErrorBody "Only draft observations can be submitted") 400);;
      let ratedItems :=
        length (List.filter (λ score, bool_decide (rating score ≠ None)) itemScores) in
      returnIf (bool_decide (ratedItems = 0%nat))
        (json (ErrorBody "At least one rubric item must be rated before submission") 400);;
      updatedObservation ← update oid [Set_status "SUBMITTED"];
      mret (updatedObservation, "Submitted observation for review")
  | REVIEW =>
      returnIf (negb (isReviewerOrAdmin user)) forbidden;;
      returnIf (bool_decide (status observation ≠ "SUBMITTED"))
        (json (ErrorBody "Only submitted observations can be reviewed") 400);;
      updatedObservation ← update oid
        [Set_status "REVIEWED"; Set_reviewerId (Some (user_id user));
         Set_reviewedAt (Some (now env));
         Set_reviewerComments sanitizedReviewerComments];
      mret (updatedObservation, "Reviewed observation")
  | FINALIZE =>
      returnIf (negb (isReviewerOrAdmin user)) forbidden;;
      returnIf (bool_decide (status observation ≠ "REVIEWED"))
        (json (ErrorBody "Only reviewed observations can be finalized") 400);;
      updatedObservation ← update oid
        [Set_status "FINALIZED"; Set_finalizedAt (Some (now env))];
      mret (updatedObservation, "Finalized observation")
  | RETURN_TO_DRAFT =>
      returnIf (negb (isReviewerOrAdmin user)) forbidden;;
      returnIf (negb (bool_decide (status observation = "SUBMITTED")
                      || bool_decide (status observation = "REVIEWED")))
        (json (ErrorBody "Only submitted or reviewed observations can be returned to draft") 400);;
      updatedObservation ← update oid
        [Set_status "DRAFT"; Set_reviewerId None; Set_reviewedAt None;
         Set_reviewerComments None];
      mret (updatedObservation, "Returned observation to draft")
  end.

Definition PUT_status_body (env : Env) (req : StatusRequest) : M Response :=
  let clientId := getClientIdentifier (forwardedFor req) (realIp req) in
  rateLimitResult ← rateLimitM env clientId 20 (15 * 60 * 1000);
  returnIf (negb (success rateLimitResult))
    (json (RateLimitBody "Too many requests. Please try again later."
                         (result_resetTime rateLimitResult)) 429);;
  match session env with
  | None => respond (json (ErrorBody "Unauthorized") 401)
  | Some user =>
      let oid := params_id req in
      match parseAction (body_action req) with
      | None =>
          respond (json (ErrorBody "Valid action is required: SUBMIT, REVIEW, FINALIZE, or RETURN_TO_DRAFT") 400)
      | Some action =>
          let sanitizedReviewerComments :=
            trim <$> Js.truthy_str (body_reviewerComments req) in
          found ← findUnique oid;
          match found with
          | None => respond (json (ErrorBody "Observation not found") 404)
          | Some (observation, itemScores) =>
              '(updatedObservation, auditAction) ←
                transition env user oid sanitizedReviewerComments
                           observation itemScores action;
              auditLogCreate env
                {| objectType := "Observation";
                   objectId := oid;
                   action := actionName action;
                   userId := user_id user;
                   diff := {| diff_action := auditAction;
                              previousStatus := Some (status observation);
                              newStatus := Some (status updatedObservation) |} |};;
              mret (json (ObservationBody updatedObservation) 200)
          end
      end
  end.

Definition PUT_status (env : Env) (req : StatusRequest) (w : World) : Response * World :=
  tryCatch (PUT_status_body env req) w.

(** *** The observation route: [PUT] and [DELETE /api/observations/[id]] *)

(** The destructured request body; a key that is absent is [undefined],
    here [None].  [body_date] is the date already converted by
    [new Date(date)], absent when [date] is missing or falsy. *)
Record UpdateBody := {
  body_classSection : option string;
  body_totalStudents : option Z;
  body_presentStudents : option Z;
  body_subject : option string;
  body_topic : option string;
  body_date : option Z;
  body_time : option string;
  body_lessonPlanAttached : option bool;
  body_strengths : option string;
  body_areasToImprove : option string;
  body_suggestions : option string;
  body_itemScores : option (list (string * Scoring.ScoreEntry))
}.

(** [presentStudents > totalStudents]: a comparison with [undefined] is
    false. *)
Definition exceeds (presentStudents totalStudents : option Z) : bool :=
  match presentStudents, totalStudents with
  | Some p, Some t => p >? t
  | _, _ => false
  end.

(** Prisma skips a column whose value in [data] is [undefined]. *)
Definition updateData (body : UpdateBody) : list Assignment :=
  omap (λ a : option Assignment, a)
    [ Set_classSection <$> body_classSection body;
      Set_totalStudents <$> body_totalStudents body;
      Set_presentStudents <$> body_presentStudents body;
      Set_subject <$> body_subject body;
      Set_topic <$> body_topic body;
      Set_date <$> body_date body;
      Set_time <$> body_time body;
      Set_lessonPlanAttached <$> body_lessonPlanAttached body;
      (Set_strengths ∘ Some) <$> body_strengths body;
      (Set_areasToImprove ∘ Some) <$> body_areasToImprove body;
      (Set_suggestions ∘ Some) <$> body_suggestions body ].

(** [Object.entries(itemScores).map(([rubricItemId, itemData]) => ...)] *)
Definition itemScoreData (oid : string)
    (itemScores : list (string * Scoring.ScoreEntry)) : list ObservationItemScore :=
  List.map (λ '(rubricItemId, itemData),
              {| observationId := oid;
                 rubricItemId := rubricItemId;
                 rating := Scoring.entry_rating itemData;
                 comment := Js.truthy_str (Scoring.entry_comment itemData) |})
           itemScores.

Definition PUT_observation_body (env : Env) (oid : string) (body : UpdateBody)
    : M Response :=
  match session env with
  | None => respond (json (ErrorBody "Unauthorized") 401)
  | Some user =>
      found ← findUnique oid;
      match found with
      | None => respond (json (ErrorBody "Observation not found") 404)
      | Some (existingObservation, _) =>
          returnIf (bool_decide (observerId existingObservation ≠ user_id user)
                    && bool_decide (role user ≠ "ADMIN")) forbidden;;
          returnIf (bool_decide (status existingObservation = "FINALIZED"))
            (json (ErrorBody "Cannot edit finalized observation") 400);;
          returnIf (exceeds (body_presentStudents body) (body_totalStudents body))
            (json (ErrorBody "Present students cannot exceed total students") 400);;
          updatedObservation ← update oid (updateData body);
          match body_itemScores body with
          | Some (entry :: entries) =>
              itemScoreDeleteMany oid;;
              itemScoreCreateMany (itemScoreData oid (entry :: entries))
          | _ => mret ()
          end;;
          auditLogCreate env
            {| objectType := "Observation";
               objectId := oid;
               action := "UPDATE";
               userId := user_id user;
               diff := {| diff_action := "Updated observation";
                          previousStatus := None;
                          newStatus := None |} |};;
          mret (json (ObservationBody updatedObservation) 200)
      end
  end.

Definition PUT_observation (env : Env) (oid : string) (body : UpdateBody)
    (w : World) : Response * World :=
  tryCatch (PUT_observation_body env oid body) w.

Definition DELETE_observation_body (env : Env) (oid : string) : M Response :=
  match session env with
  | None => respond (json (ErrorBody "Unauthorized") 401)
  | Some user =>
      found ← findUnique oid;
      match found with
      | None => respond (json (ErrorBody "Observation not found") 404)
      | Some (existingObservation, _) =>
          returnIf (bool_decide (observerId existingObservation ≠ user_id user)
                    && bool_decide (role user ≠ "ADMIN")) forbidden;;
          returnIf (bool_decide (status existingObservation = "FINALIZED"))
            (json (ErrorBody "Cannot delete finalized observation") 400);;
          itemScoreDeleteMany oid;;
          attachmentDeleteMany oid;;
          observationDelete oid;;
          auditLogCreate env
            {| objectType := "Observation";
               objectId := oid;
               action := "DELETE";
               userId := user_id user;
               diff := {| diff_action := "Deleted observation";
                          previousStatus := None;
                          newStatus := None |} |};;
          mret (json (MessageBody "Observation deleted successfully") 200)
      end
  end.

Definition DELETE_observation (env : Env) (oid : string) (w : World)
    : Response * World :=
  tryCatch (DELETE_observation_body env oid) w.

(** *** [src/lib/audit-log.ts]

    [createAuditLog] wraps the same store write in its own
    [try]/[catch] ("Don't throw error as audit logging shouldn't break
    main functionality"): it answers the created entry, or [null] on
    failure, and never throws.  The answer is modelled by whether the
    entry was created. *)
Definition createAuditLog (env : Env) (entry : AuditLog) : M bool :=
  λ w, match auditLogCreate env entry w with
       | (Value _, w') => (Value true, w')
       | (_, w') => (Value false, w')
       end.

End Lifecycle.

(** ** Reference notions used by the statements *)

Module ScoringSpec.
Import Scoring.

Definition sumZ (l : list Z) : Z := foldr Z.add 0 l.

(** The rating entered for an item, if any: the entry may be absent, or
    present without a rating. *)
Definition enteredRating (scores : gmap string ScoreEntry) (item : RubricItem)
    : option Z :=
  scores !! item_id item ≫= entry_rating.

(** An item is included when its rating is entered and is not zero. *)
Definition included (scores : gmap string ScoreEntry) (item : RubricItem) : bool :=
  match enteredRating scores item with
  | Some r => negb (r =? 0)
  | None => false
  end.

Definition includedItems (scores : gmap string ScoreEntry) (domain : RubricDomain)
    : list RubricItem :=
  List.filter (included scores) (items domain).

Definition sumIncludedRatings (scores : gmap string ScoreEntry)
    (domain : RubricDomain) : Z :=
  sumZ (List.map (λ item, default 0 (enteredRating scores item))
                 (includedItems scores domain)).

(** The denominator as the specification words it: every included item
    brings its own [maxScore]. *)
Definition sumIncludedMaxScore (scores : gmap string ScoreEntry)
    (domain : RubricDomain) : Z :=
  sumZ (List.map maxScore (includedItems scores domain)).

(** The denominator the code uses: every included item is given the
    [maxScore] of the first item of the domain. *)
Definition firstItemDenominator (scores : gmap string ScoreEntry)
    (domain : RubricDomain) : Z :=
  Z.of_nat (length (includedItems scores domain))
  * maxScore (default {| item_id := ""; item_domainId := ""; item_number := 0;
                         item_prompt := ""; item_orderIndex := 0; maxScore := 0;
                         scaleMin := 0; scaleMax := 0 |}
                      (head (items domain))).

(** [100 * num / den] rounded to two decimals, and 0 when there is
    nothing to divide by. *)
Definition percentOf (num den : Z) : Q :=
  if decide (0 < den)
  then Js.round2 (100 * inject_Z num / inject_Z den)%Q
  else Js.round2 0.

(** Two entered ratings that differ at most by one being 0 where the
    other is missing. *)
Definition sameUpToZero (r1 r2 : option Z) : Prop :=
  r1 = r2 ∨ (r1 = Some 0 ∧ r2 = None) ∨ (r1 = None ∧ r2 = Some 0).

(** What the claim on zero ratings compares of a domain score. *)
Definition outline (ds : DomainScore)
    : string * Z * Q * list (string * option Z) :=
  (domainId ds, total ds, percentage ds,
   List.map (λ s, (rubricItemId s, rating s)) (itemScores ds)).

(** The number of rated item scores of a domain score: rating present
    and not zero. *)
Fixpoint ratedCount (scores : list ObservationItemScore) : Z :=
  match scores with
  | [] => 0
  | s :: rest =>
      match rating s with
      | Some r => if decide (r = 0) then ratedCount rest else 1 + ratedCount rest
      | None => ratedCount rest
      end
  end.

Definition grandTotalOf (domainScores : list DomainScore) : Z :=
  sumZ (List.map total domainScores).

Definition hardcodedMaxOf (domainScores : list DomainScore) : Z :=
  sumZ (List.map (λ d, ratedCount (itemScores d) * 4) domainScores).

(** Some entry carries a rating that is defined and not zero. *)
Definition someItemScored (scores : gmap string ScoreEntry) : Prop :=
  ∃ k e r, scores !! k = Some e ∧ entry_rating e = Some r ∧ r ≠ 0.

(** The band test of the export route's own classification
    ([percentage >= 90], [>= 75], [>= 60], [>= 50], else "Very Poor"),
    which has no gaps between bands. *)
Definition exportRouteRating (percentage : Q) : string :=
  if Qle_bool 90 percentage then "Excellent"
  else if Qle_bool 75 percentage then "Good"
  else if Qle_bool 60 percentage then "Average"
  else if Qle_bool 50 percentage then "Weak"
  else "Very Poor".

(** The band test on doubles. *)
Definition inBand64 (p : spec_float) (t : OverallRatingThreshold) : bool :=
  SFleb (Binary64.ofQ (minPercentage t)) p && SFleb p (Binary64.ofQ (maxPercentage t)).

(** A validation rule and the errors it contributes: its message when
    it is violated, nothing otherwise. *)
Definition rule (violated : Prop) (msg : string) (es : list string) : Prop :=
  (violated ∧ es = [msg]) ∨ (¬ violated ∧ es = []).

End ScoringSpec.

Module LifecycleSpec.
Import Lifecycle.

(** A rejection: a 4xx answer that carries an error and no record. *)
Definition rejected (r : Response) : Prop :=
  400 ≤ response_status r < 500 ∧
  match response_body r with
  | ErrorBody _ | RateLimitBody _ _ => True
  | ObservationBody _ | MessageBody _ => False
  end.

(** The rate limiter lets the request through. *)
Definition passesRateLimit (env : Env) (req : StatusRequest) (w : World) : Prop :=
  success (rateLimit (now env) (getClientIdentifier (forwardedFor req) (realIp req))
                     20 (15 * 60 * 1000) (rateLimitStore w)).1 = true.

(** The actor is the observer of record, or an admin. *)
Definition isObserverOrAdmin (user : SessionUser) (o : Observation) : Prop :=
  observerId o = user_id user ∨ role user = "ADMIN".

(** Some item score of the observation has a rating that is not null. *)
Definition hasRatedItem (d : Db) (oid : string) : Prop :=
  ∃ row, row ∈ observationItemScores d ∧ observationId row = oid ∧ rating row ≠ None.

(** The world once the rate limiter has counted the request. *)
Definition afterRateLimit (env : Env) (req : StatusRequest) (w : World) : World :=
  {| db := db w;
     rateLimitStore :=
       (rateLimit (now env) (getClientIdentifier (forwardedFor req) (realIp req))
                  20 (15 * 60 * 1000) (rateLimitStore w)).2 |}.

Definition withObservation (oid : string) (o : Observation) (w : World) : World :=
  {| db := {| observations := <[oid := o]> (observations (db w));
              observationItemScores := observationItemScores (db w);
              attachments := attachments (db w);
              auditLogs := auditLogs (db w) |};
     rateLimitStore := rateLimitStore w |}.

Definition withAuditLog (entry : AuditLog) (w : World) : World :=
  {| db := {| observations := observations (db w);
              observationItemScores := observationItemScores (db w);
              attachments := attachments (db w);
              auditLogs := auditLogs (db w) ++ [entry] |};
     rateLimitStore := rateLimitStore w |}.

Definition itemScoresOf (oid : string) (d : Db) : list ObservationItemScore :=
  List.filter (λ row, bool_decide (observationId row = oid)) (observationItemScores d).

Definition transitionAudit (user : SessionUser) (oid : string) (action : Action)
    (auditAction : string) (before after : Observation) : AuditLog :=
  {| objectType := "Observation";
     objectId := oid;
     action := actionName action;
     userId := user_id user;
     diff := {| diff_action := auditAction;
                previousStatus := Some (status before);
                newStatus := Some (status after) |} |}.

Definition internalError : Response := json (ErrorBody "Internal server error") 500.

Definition badRequest (msg : string) : Response := json (ErrorBody msg) 400.

End LifecycleSpec.

(** ** Concrete inputs *)

Module Examples.

Module S.
Import Scoring.

Definition item (iid : string) (m : Z) : RubricItem :=
  {| item_id := iid; item_domainId := "d"; item_number := 1; item_prompt := "";
     item_orderIndex := 0; maxScore := m; scaleMin := 0; scaleMax := m |}.

Definition domain (did : string) (its : list RubricItem) : RubricDomain :=
  {| domain_id := did; domain_name := did; domain_description := "";
     domain_orderIndex := 0; items := its |}.

Definition rated (r : Z) : ScoreEntry :=
  {| entry_rating := Some r; entry_comment := Some "" |}.

(** Two items of maxScore 4, the first rated 0 and the second 3. *)
Definition zeroAndThree_domain : RubricDomain :=
  domain "d1" [item "a" 4; item "b" 4].
Definition zeroAndThree_scores : gmap string ScoreEntry :=
  <["a" := rated 0]> (<["b" := rated 3]> ∅).

(** A domain whose items have different maximum scores, both rated at
    their maximum. *)
Definition mixed_domain : RubricDomain :=
  domain "d1" [item "a" 4; item "b" 5].
Definition mixed_scores : gmap string ScoreEntry :=
  <["a" := rated 4]> (<["b" := rated 5]> ∅).

(** Seven items of maxScore 4 in two domains, rated 4, 4, 4, 4 and
    3, 3, 3: 25 points out of 28. *)
Definition seven_rubric : list RubricDomain :=
  [ domain "d1" [item "i1" 4; item "i2" 4; item "i3" 4; item "i4" 4];
    domain "d2" [item "i5" 4; item "i6" 4; item "i7" 4] ].
Definition seven_scores : gmap string ScoreEntry :=
  list_to_map [ ("i1", rated 4); ("i2", rated 4); ("i3", rated 4); ("i4", rated 4);
                ("i5", rated 3); ("i6", rated 3); ("i7", rated 3) ].

Definition scored (r : Z) : ObservationItemScore :=
  {| id := "score-x"; observationId := "temp"; rubricItemId := "x";
     rating := Some r; comment := None; createdAt := 0; updatedAt := 0 |}.

(** One domain score holding [n1] item scores rated [r1] and [n2]
    rated [r2]; its total is the sum of these ratings. *)
Definition twoBlocks (r1 : Z) (n1 : nat) (r2 : Z) (n2 : nat) : list DomainScore :=
  [ {| domainId := "d1"; domainName := "d1";
       total := r1 * Z.of_nat n1 + r2 * Z.of_nat n2;
       percentage := 0;
       itemScores := repeat (scored r1) n1 ++ repeat (scored r2) n2 |} ].

End S.

Module L.
Import Lifecycle.

Definition observation (st : string) (reviewer : option string)
    (reviewed : option Z) (comments : option string) : Observation :=
  {| id := "obs1"; branchId := "b1"; teacherId := "t1"; observerId := "u1";
     reviewerId := reviewer; classSection := "5A"; totalStudents := 30;
     presentStudents := 28; subject := "Mathematics"; topic := "Fractions";
     date := 0; time := "09:00"; lessonPlanAttached := true;
     strengths := None; areasToImprove := None; suggestions := None;
     status := st; reviewedAt := reviewed; finalizedAt := None;
     reviewerComments := comments |}.

Definition draft : Observation := observation "DRAFT" None None None.
Definition reviewed : Observation :=
  observation "REVIEWED" (Some "u2") (Some 900) (Some "Well prepared").
Definition finalized : Observation :=
  observation "FINALIZED" (Some "u2") (Some 900) (Some "Well prepared").

(** A store holding one observation, one item score rated 0 and one
    attachment. *)
Definition world (o : Observation) : World :=
  {| db := {| observations := {[ "obs1" := o ]};
              observationItemScores :=
                [ {| observationId := "obs1"; rubricItemId := "i1";
                     rating := Some 0; comment := None |} ];
              attachments :=
                [ {| attachment_observationId := "obs1"; fileName := "plan.pdf" |} ];
              auditLogs := [] |};
     rateLimitStore := ∅ |}.

Definition observer : SessionUser := {| user_id := "u1"; role := "OBSERVER" |}.
Definition reviewer : SessionUser := {| user_id := "u2"; role := "REVIEWER" |}.

Definition env (user : SessionUser) (auditFails : bool) : Env :=
  {| now := 1000; session := Some user; auditLogCreateFails := auditFails |}.

Definition request (act : string) : StatusRequest :=
  {| forwardedFor := Some "10.0.0.1"; realIp := None; params_id := "obs1";
     body_action := Some act; body_reviewerComments := None |}.

(** An edit that only changes the class section. *)
Definition edit : UpdateBody :=
  {| body_classSection := Some "6B"; body_totalStudents := None;
     body_presentStudents := None; body_subject := None; body_topic := None;
     body_date := None; body_time := None; body_lessonPlanAttached := None;
     body_strengths := None; body_areasToImprove := None;
     body_suggestions := None; body_itemScores := None |}.

Definition auditEntry : AuditLog :=
  {| objectType := "SYSTEM"; objectId := "N/A"; action := "BACKUP";
     userId := "u1";
     diff := {| diff_action := "Created backup"; previousStatus := None;
                newStatus := None |} |}.

End L.

End Examples.

(** ** The rest of [src/utils/scoring.ts] and the label table of [src/types] *)

Module ScoringUtils.
Import Scoring.

(** [RATING_LABELS] of [src/types]. *)
Definition RATING_LABELS : gmap Z string :=
  list_to_map [ (0, "Not Observed"); (1, "Unsatisfactory"); (2, "Needs Improvement");
                (3, "Satisfactory"); (4, "Good"); (5, "Excellent") ].

(** [labels[score] || 'Unknown'] over the table local to [getRatingLabel]. *)
Definition getRatingLabel (score : Z) : string :=
  let labels : gmap Z string :=
    list_to_map [ (5, "Excellent"); (4, "Good"); (3, "Satisfactory");
                  (2, "Needs Improvement"); (1, "Unsatisfactory");
                  (0, "Not Observed") ] in
  match labels !! score with
  | Some label => Js.str_or label "Unknown"
  | None => "Unknown"
  end.

(** [colors[score] || 'gray'] *)
Definition getRatingColor (score : Z) : string :=
  let colors : gmap Z string :=
    list_to_map [ (5, "success"); (4, "primary"); (3, "warning");
                  (2, "warning"); (1, "danger"); (0, "gray") ] in
  match colors !! score with
  | Some color => Js.str_or color "gray"
  | None => "gray"
  end.

(** [Object.values(itemScores).filter(score => score.rating !== undefined
    && score.rating !== 0).length] *)
Definition scoredItems (scores : gmap string ScoreEntry) : Z :=
  Z.of_nat (length (List.filter (λ kv, isRated (entry_rating kv.2))
                                (map_to_list scores))).

Definition totalItems (domains : list RubricDomain) : Z :=
  fold_left (λ sum domain, sum + Z.of_nat (length (items domain))) domains 0.

(** [Math.round((scoredItems / totalItems) * 100)], and 0 for a rubric
    without items. *)
Definition calculateProgressPercentage (domains : list RubricDomain)
    (scores : gmap string ScoreEntry) : Z :=
  if totalItems domains =? 0 then 0
  else Js.round ((inject_Z (scoredItems scores) / inject_Z (totalItems domains)) * 100).

End ScoringUtils.

(** ** The state updates of the observation form (ObservationForm) *)

Module ObservationForm.
Import Scoring.

(** [setItemScores(prev => ({ ...prev, [itemId]: { ...prev[itemId], rating,
    comment: prev[itemId]?.comment || '' } }))] *)
Definition handleRatingChange (itemId : string) (rating : Z)
    (prev : gmap string ScoreEntry) : gmap string ScoreEntry :=
  <[itemId := {| entry_rating := Some rating;
                 entry_comment :=
                   Some (default "" (Js.truthy_str (prev !! itemId ≫= entry_comment))) |}]>
    prev.

(** [setItemScores(prev => ({ ...prev, [itemId]: { ...prev[itemId],
    rating: prev[itemId]?.rating || 0, comment } }))] *)
Definition handleCommentChange (itemId : string) (comment : string)
    (prev : gmap string ScoreEntry) : gmap string ScoreEntry :=
  <[itemId := {| entry_rating :=
                   Some (default 0 (Js.truthy_num (prev !! itemId ≫= entry_rating)));
                 entry_comment := Some comment |}]>
    prev.

End ObservationForm.

(** ** The scoring of the export route
    ([src/app/api/observations/[id]/export/route.ts]) *)

Module ExportRoute.

(** An item score row with the rubric item and domain it includes. *)
Record ItemScore := {
  rating : option Z;
  domain_id : string;
  domain_name : string;
  maxScore : Z;
  prompt : string;
  comment : option string
}.

Record DomainScore := {
  domainId : string;
  domainName : string;
  total : Z;
  maxPossible : Z;
  percentage : Q;
  itemScores : list ItemScore
}.

(** [domainMap.set(domainId, { domainId, domainName, total: 0,
    maxPossible: 0, percentage: 0, itemScores: [] })] *)
Definition emptyDomain (score : ItemScore) : DomainScore :=
  {| domainId := domain_id score; domainName := domain_name score;
     total := 0; maxPossible := 0; percentage := 0; itemScores := [] |}.

(** [domain.total += score.rating || 0; domain.maxPossible += maxScore;
    domain.itemScores.push(score)] *)
Definition accumulate (score : ItemScore) (domain : DomainScore) : DomainScore :=
  {| domainId := domainId domain;
     domainName := domainName domain;
     total := total domain + default 0 (Js.truthy_num (rating score));
     maxPossible := maxPossible domain + maxScore score;
     percentage := percentage domain;
     itemScores := itemScores domain ++ [score] |}.

(** The body of the [forEach], the [Map] being the list of its values
    in insertion order: the entry of the domain is created when missing,
    then updated in place. *)
Fixpoint addScore (score : ItemScore) (domainMap : list DomainScore)
    : list DomainScore :=
  match domainMap with
  | [] => [accumulate score (emptyDomain score)]
  | domain :: rest =>
      if bool_decide (domainId domain = domain_id score)
      then accumulate score domain :: rest
      else domain :: addScore score rest
  end.

Definition calculateDomainScores (itemScores : list ItemScore) : list DomainScore :=
  let domainMap := fold_left (λ m score, addScore score m) itemScores [] in
  List.map (λ domain,
              {| domainId := domainId domain;
                 domainName := domainName domain;
                 total := total domain;
                 maxPossible := maxPossible domain;
                 percentage :=
                   if 0 <? maxPossible domain
                   then (inject_Z (total domain) / inject_Z (maxPossible domain) * 100)%Q
                   else 0%Q;
                 itemScores := ExportRoute.itemScores domain |})
           domainMap.

Record OverallRating := {
  overall_rating : string;
  overall_color : string;
  overall_percentage : Q
}.

Definition calculateOverallRating (domainScores : list DomainScore) : OverallRating :=
  let totalScore := fold_left (λ sum domain, sum + total domain) domainScores 0 in
  let maxPossible := fold_left (λ sum domain, sum + maxPossible domain) domainScores 0 in
  let percentage : Q :=
    if 0 <? maxPossible
    then (inject_Z totalScore / inject_Z maxPossible * 100)%Q
    else 0%Q in
  let '(rating, color) :=
    if Qle_bool 90 percentage then ("Excellent", "success")
    else if Qle_bool 75 percentage then ("Good", "primary")
    else if Qle_bool 60 percentage then ("Average", "warning")
    else if Qle_bool 50 percentage then ("Weak", "warning")
    else ("Very Poor", "danger") in
  {| overall_rating := rating; overall_color := color;
     overall_percentage := percentage |}.

End ExportRoute.

(** ** Reference notions of the further properties *)

Module ExtraSpec.
Import Scoring ScoringSpec.

(** The items of a rubric, domain after domain. *)
Definition allItems (domains : list RubricDomain) : list RubricItem :=
  concat (List.map items domains).

(** The bands of the default table, as intervals. *)
Definition inSomeDefaultBand (p : Q) : Prop :=
  (0 <= p ∧ p <= 49 ∨ 50 <= p ∧ p <= 59 ∨ 60 <= p ∧ p <= 74
   ∨ 75 <= p ∧ p <= 89 ∨ 90 <= p ∧ p <= 100)%Q.

(** What an item adds to the total of its domain: its rating when it
    is entered and not zero. *)
Definition contribution (scores : gmap string ScoreEntry) (it : RubricItem) : Z :=
  default 0 (Js.truthy_num (enteredRating scores it)).

(** The rows of one domain among the item scores the export route is
    given, in their order. *)
Definition rowsOf (did : string) (rows : list ExportRoute.ItemScore)
    : list ExportRoute.ItemScore :=
  List.filter (λ s, bool_decide (ExportRoute.domain_id s = did)) rows.

(** [score.rating || 0] *)
Definition ratingOrZero (s : ExportRoute.ItemScore) : Z :=
  default 0 (ExportRoute.rating s).

(** A domain score of the export route holds the rows of its domain
    and their sums. *)
Definition groupOf (rows : list ExportRoute.ItemScore) (d : ExportRoute.DomainScore)
    : Prop :=
  ExportRoute.itemScores d = rowsOf (ExportRoute.domainId d) rows
  ∧ ExportRoute.itemScores d ≠ []
  ∧ ExportRoute.total d = sumZ (List.map ratingOrZero (ExportRoute.itemScores d))
  ∧ ExportRoute.maxPossible d
    = sumZ (List.map ExportRoute.maxScore (ExportRoute.itemScores d)).

(** What the export route's map holds once the rows [done] are added. *)
Definition grouped (done : list ExportRoute.ItemScore)
    (m : list ExportRoute.DomainScore) : Prop :=
  NoDup (List.map ExportRoute.domainId m)
  ∧ (∀ s, s ∈ done → ExportRoute.domain_id s ∈ List.map ExportRoute.domainId m)
  ∧ Forall (groupOf done) m.

End ExtraSpec.

(** ** The rate limiter over time ([src/lib/rateLimit.ts]) *)

Module RateLimiter.
Import Lifecycle.

(** The hourly sweep: [Object.keys(store).forEach(key => { if (now >
    store[key].resetTime) delete store[key] })]. *)
Definition cleanup (now : Z) (store : gmap string RateEntry) : gmap string RateEntry :=
  filter (λ kv : string * RateEntry, ¬ (now > resetTime kv.2)) store.

(** Successive calls of [rateLimit] for one identifier, at the given
    times. *)
Fixpoint rateLimitAll (identifier : string) (maxRequests windowMs : Z)
    (times : list Z) (store : gmap string RateEntry)
    : list RateLimitResult * gmap string RateEntry :=
  match times with
  | [] => ([], store)
  | now :: later =>
      let '(r, store1) := rateLimit now identifier maxRequests windowMs store in
      let '(rs, store2) := rateLimitAll identifier maxRequests windowMs later store1 in
      (r :: rs, store2)
  end.

(** The store is a plain object, so [store[key]] also finds what the
    object inherits: for these keys it is a function or object of
    [Object.prototype], which is truthy and has neither [count] nor
    [resetTime], and the limiter then neither opens a window nor
    refuses.  [rateLimit] above is the limiter on every other key. *)
Definition inheritedKeys : list string :=
  [ "constructor"; "__defineGetter__"; "__defineSetter__"; "hasOwnProperty";
    "__lookupGetter__"; "__lookupSetter__"; "isPrototypeOf";
    "propertyIsEnumerable"; "toString"; "valueOf"; "__proto__"; "toLocaleString" ].

(** An identifier that names nothing the store inherits. *)
Definition ownKey (identifier : string) : Prop := identifier ∉ inheritedKeys.

(** Every stored count is at least 1, as [rateLimit] writes them. *)
Definition countsPositive (store : gmap string RateEntry) : Prop :=
  ∀ k e, store !! k = Some e → 1 ≤ count e.

End RateLimiter.

(** ** Reference notions for the routes *)

Module RouteSpec.
Import Lifecycle LifecycleSpec.

(** The precondition of each action on the actor and on the current
    state, as the [switch] of the status route checks it. *)
Definition guard (a : Action) (user : SessionUser) (o : Observation) (d : Db)
    (oid : string) : Prop :=
  match a with
  | SUBMIT =>
      isObserverOrAdmin user o ∧ status o = "DRAFT" ∧ hasRatedItem d oid
  | REVIEW =>
      (role user = "REVIEWER" ∨ role user = "ADMIN") ∧ status o = "SUBMITTED"
  | FINALIZE =>
      (role user = "REVIEWER" ∨ role user = "ADMIN") ∧ status o = "REVIEWED"
  | RETURN_TO_DRAFT =>
      (role user = "REVIEWER" ∨ role user = "ADMIN")
      ∧ (status o = "SUBMITTED" ∨ status o = "REVIEWED")
  end.

(** The edges of the lifecycle, labelled by the action that takes them. *)
Inductive edge : Action → string → string → Prop :=
  | edge_submit : edge SUBMIT "DRAFT" "SUBMITTED"
  | edge_review : edge REVIEW "SUBMITTED" "REVIEWED"
  | edge_finalize : edge FINALIZE "REVIEWED" "FINALIZED"
  | edge_return_submitted : edge RETURN_TO_DRAFT "SUBMITTED" "DRAFT"
  | edge_return_reviewed : edge RETURN_TO_DRAFT "REVIEWED" "DRAFT".

(** The columns no transition writes. *)
Definition content (o : Observation)
    : string * string * string * string * string * Z * Z * string * string * Z
      * string * bool * option string * option string * option string :=
  (id o, branchId o, teacherId o, observerId o, classSection o, totalStudents o,
   presentStudents o, subject o, topic o, date o, time o, lessonPlanAttached o,
   strengths o, areasToImprove o, suggestions o).

(** The columns no edit writes. *)
Definition workflow (o : Observation)
    : string * string * string * string * string * option string * option Z
      * option Z * option string :=
  (id o, branchId o, teacherId o, observerId o, status o, reviewerId o,
   reviewedAt o, finalizedAt o, reviewerComments o).

Definition clientOf (req : StatusRequest) : string :=
  getClientIdentifier (forwardedFor req) (realIp req).

(** What the process serves.  The limiter's store is one object of the
    module, shared by every route that asks the limiter: a request to
    such a route asks it under the limit and window of that route and
    may then change the database; a request to a route without limiter
    (the edit and delete routes) only may change the database; and the
    hourly sweep of the limiter removes the expired entries. *)
Inductive Event :=
  | ToStatusRoute (env : Env) (req : StatusRequest)
  | ToLimitedRoute (now : Z) (clientId : string) (maxRequests windowMs : Z)
                   (effect : Db → Db)
  | ToUnlimitedRoute (effect : Db → Db)
  | Sweep (now : Z).

(** A call [rateLimit(clientId, maxRequests, windowMs)] at a time. *)
Record LimiterCall := {
  call_now : Z;
  call_clientId : string;
  call_maxRequests : Z;
  call_windowMs : Z
}.

(** The call of the limiter that a request makes, if its route has one. *)
Definition limiterCall (ev : Event) : option LimiterCall :=
  match ev with
  | ToStatusRoute env req =>
      Some {| call_now := now env; call_clientId := clientOf req;
              call_maxRequests := 20; call_windowMs := 15 * 60 * 1000 |}
  | ToLimitedRoute now clientId maxRequests windowMs _ =>
      Some {| call_now := now; call_clientId := clientId;
              call_maxRequests := maxRequests; call_windowMs := windowMs |}
  | ToUnlimitedRoute _ => None
  | Sweep _ => None
  end.

(** The event happens no later than [closes]. *)
Definition notAfter (closes : Z) (ev : Event) : Prop :=
  match ev with
  | ToStatusRoute env _ => now env ≤ closes
  | ToLimitedRoute now _ _ _ _ => now ≤ closes
  | ToUnlimitedRoute _ => True
  | Sweep now => now ≤ closes
  end.

(** One request served: whether it was let through (a status request is
    let through when it is not answered 429), and the world after it. *)
Definition serveEvent (ev : Event) (w : World) : bool * World :=
  match ev with
  | ToStatusRoute env req =>
      let '(r, w') := PUT_status env req w in
      (negb (bool_decide (response_status r = 429)), w')
  | ToLimitedRoute now clientId maxRequests windowMs effect =>
      let '(r, store) := rateLimit now clientId maxRequests windowMs (rateLimitStore w) in
      (success r,
       {| db := if success r then effect (db w) else db w; rateLimitStore := store |})
  | ToUnlimitedRoute effect =>
      (true, {| db := effect (db w); rateLimitStore := rateLimitStore w |})
  | Sweep now =>
      (true, {| db := db w;
                rateLimitStore := RateLimiter.cleanup now (rateLimitStore w) |})
  end.

(** Requests served one after the other. *)
Fixpoint serve (events : list Event) (w : World) : list bool * World :=
  match events with
  | [] => ([], w)
  | ev :: later =>
      let '(f, w1) := serveEvent ev w in
      let '(fs, w2) := serve later w1 in
      (f :: fs, w2)
  end.

(** The request asks the limiter under the identifier [clientId]. *)
Definition asksFor (clientId : string) (ev : Event) : bool :=
  match limiterCall ev with
  | Some call => bool_decide (call_clientId call = clientId)
  | None => false
  end.

(** What happened to the requests of one client: [None] stands for a
    request that does not ask the limiter for this client. *)
Definition ofClient (clientId : string) (events : list Event) (flags : list bool)
    : list (option bool) :=
  zip_with (λ ev f, if asksFor clientId ev then Some f else None) events flags.

(** The quota of one client within a window, by a counter of the
    requests let through so far: a request is let through when the
    counter is below the limit of its route, and then counted. *)
Fixpoint quota (clientId : string) (admitted : Z) (events : list Event)
    : list (option bool) :=
  match events with
  | [] => []
  | ev :: later =>
      match limiterCall ev with
      | Some call =>
          if bool_decide (call_clientId call = clientId) then
            if admitted <? call_maxRequests call
            then Some true :: quota clientId (admitted + 1) later
            else Some false :: quota clientId admitted later
          else None :: quota clientId admitted later
      | None => None :: quota clientId admitted later
      end
  end.

(** The item score rows after an edit: replaced for the observation
    when the body carries a non-empty [itemScores], kept otherwise. *)
Definition editedItemScores (oid : string) (body : UpdateBody)
    (rows : list ObservationItemScore) : list ObservationItemScore :=
  match body_itemScores body with
  | Some (entry :: entries) =>
      (List.filter (λ row, negb (bool_decide (observationId row = oid))) rows
       ++ itemScoreData oid (entry :: entries))%list
  | _ => rows
  end.

(** The actor is neither the observer of record nor an admin. *)
Definition isStranger (user : SessionUser) (o : Observation) : Prop :=
  observerId o ≠ user_id user ∧ role user ≠ "ADMIN".

End RouteSpec.

(** ** Further concrete inputs *)

Module MoreExamples.

(** The scores of [zeroAndThree_scores] with an entry that belongs to
    no item of the rubric. *)
Definition withStrayEntry : gmap string Scoring.ScoreEntry :=
  <["stray" := Examples.S.rated 4]> Examples.S.zeroAndThree_scores.

(** Item "a" of maxScore 5 before item "b" of maxScore 4; with
    [zeroAndThree_scores], "a" is rated 0 and "b" is rated 3. *)
Definition zeroFirst_domain : Scoring.RubricDomain :=
  Examples.S.domain "d1" [Examples.S.item "a" 5; Examples.S.item "b" 4].

(** The same domain without the item rated 0. *)
Definition zeroRemoved_domain : Scoring.RubricDomain :=
  Examples.S.domain "d1" [Examples.S.item "b" 4].

(** Forty items of maxScore 4 in one domain, the first rated 2 and the
    others 1: 41 points out of 160, that is 25.625. *)
Definition tie_itemId (k : nat) : string := "i" +:+ String.concat "" (repeat "x" k).
Definition tie_rubric : list Scoring.RubricDomain :=
  [ Examples.S.domain "d1" (List.map (λ k, Examples.S.item (tie_itemId k) 4) (seq 0 40)) ].
Definition tie_scores : gmap string Scoring.ScoreEntry :=
  list_to_map (List.map (λ k, (tie_itemId k,
                               Examples.S.rated (if Nat.eqb k 0 then 2 else 1)))
                        (seq 0 40)).

Definition observationData : Scoring.ObservationData :=
  {| Scoring.totalStudents := 30; Scoring.presentStudents := 28;
     Scoring.data_itemScores := Examples.S.zeroAndThree_scores |}.

(** One exported row rated 3 out of 4. *)
Definition exportRow : ExportRoute.ItemScore :=
  {| ExportRoute.rating := Some 3; ExportRoute.domain_id := "d1";
     ExportRoute.domain_name := "Planning"; ExportRoute.maxScore := 4;
     ExportRoute.prompt := "Lesson objectives"; ExportRoute.comment := None |}.

(** A limiter store with one open window. *)
Definition oneWindow : gmap string Lifecycle.RateEntry :=
  {[ "10.0.0.1" := {| Lifecycle.count := 3; Lifecycle.resetTime := 700 |} ]}.

Definition submitted : Lifecycle.Observation :=
  Examples.L.observation "SUBMITTED" None None None.

(** A request to the status route that carries reviewer comments. *)
Definition requestWithComments (act comments : string) : Lifecycle.StatusRequest :=
  {| Lifecycle.forwardedFor := Some "10.0.0.1"; Lifecycle.realIp := None;
     Lifecycle.params_id := "obs1"; Lifecycle.body_action := Some act;
     Lifecycle.body_reviewerComments := Some comments |}.

(** An edit that changes the class section and replaces the item
    scores. *)
Definition editWithScores : Lifecycle.UpdateBody :=
  {| Lifecycle.body_classSection := Some "6B";
     Lifecycle.body_totalStudents := Some 32;
     Lifecycle.body_presentStudents := Some 30;
     Lifecycle.body_subject := None; Lifecycle.body_topic := None;
     Lifecycle.body_date := None; Lifecycle.body_time := None;
     Lifecycle.body_lessonPlanAttached := None;
     Lifecycle.body_strengths := Some "Clear objectives";
     Lifecycle.body_areasToImprove := None;
     Lifecycle.body_suggestions := None;
     Lifecycle.body_itemScores := Some [ ("i1", Examples.S.rated 3) ] |}.

(** The observation of [Examples.L] once reviewed at 900 and finalized
    at [t]. *)
Definition finalizedObservation (t : Z) : Lifecycle.Observation :=
  {| Lifecycle.id := "obs1"; Lifecycle.branchId := "b1"; Lifecycle.teacherId := "t1";
     Lifecycle.observerId := "u1"; Lifecycle.reviewerId := Some "u2";
     Lifecycle.classSection := "5A"; Lifecycle.totalStudents := 30;
     Lifecycle.presentStudents := 28; Lifecycle.subject := "Mathematics";
     Lifecycle.topic := "Fractions"; Lifecycle.date := 0; Lifecycle.time := "09:00";
     Lifecycle.lessonPlanAttached := true; Lifecycle.strengths := None;
     Lifecycle.areasToImprove := None; Lifecycle.suggestions := None;
     Lifecycle.status := "FINALIZED"; Lifecycle.reviewedAt := Some 900;
     Lifecycle.finalizedAt := Some t;
     Lifecycle.reviewerComments := Some "Well prepared" |}.

(** Reviewer comments between a no-break space (U+00A0, bytes C2 A0)
    with a space and a space with a line separator (U+2028, bytes
    E2 80 A8). *)
Definition paddedComment : string :=
  String (Ascii.ascii_of_N 194) (String (Ascii.ascii_of_N 160) " Well prepared ")
  +:+ String (Ascii.ascii_of_N 226)
        (String (Ascii.ascii_of_N 128) (String (Ascii.ascii_of_N 168) "")).

Definition observerEnv : Lifecycle.Env := Examples.L.env Examples.L.observer false.
Definition reviewerEnv : Lifecycle.Env := Examples.L.env Examples.L.reviewer false.
Definition draftWorld : Lifecycle.World := Examples.L.world Examples.L.draft.

(** One client within one window: a status request that opens the
    window, fifteen requests to a route whose limit is 50, an edit
    (which asks no limiter), a sweep and six more status requests. *)
Definition mixedRequests : list RouteSpec.Event :=
  RouteSpec.ToStatusRoute observerEnv (Examples.L.request "SUBMIT")
  :: (repeat (RouteSpec.ToLimitedRoute 1000 "10.0.0.1" 50 (15 * 60 * 1000) (λ d, d)) 15
      ++ RouteSpec.ToUnlimitedRoute (λ d, d)
      :: RouteSpec.Sweep 1000
      :: repeat (RouteSpec.ToStatusRoute reviewerEnv (Examples.L.request "REVIEW")) 6)%list.

(** Twenty-two status requests of one client within one window. *)
Definition statusRequests : list RouteSpec.Event :=
  RouteSpec.ToStatusRoute observerEnv (Examples.L.request "SUBMIT")
  :: repeat (RouteSpec.ToStatusRoute reviewerEnv (Examples.L.request "REVIEW")) 21.

End MoreExamples.

(** ** Reference notions for binary64 arithmetic *)

Module Binary64Spec.

(** The value of a positive finite double. *)
Definition B2Q (m : positive) (e : Z) : Q := inject_Z (Zpos m) * 2 ^ e.

(** A mantissa of full precision. *)
Definition normal (m : positive) : Prop := 2 ^ 52 ≤ Zpos m < 2 ^ 53.

(** The unit roundoff of binary64. *)
Definition u : Q := 1 # (2 ^ 53).

(** A shift record whose mantissa, round bit and sticky bit place the
    fraction [N / D]: the mantissa is its integer part, the round bit
    says that the rest is at least one half, the sticky bit that the
    rest is neither zero nor one half. *)
Definition located (N D : Z) (mrs : shr_record) : Prop :=
  0 ≤ shr_m mrs
  ∧ 0 ≤ N - shr_m mrs * D < D
  ∧ shr_r mrs = bool_decide (D ≤ 2 * (N - shr_m mrs * D))
  ∧ shr_s mrs = bool_decide (2 * (N - shr_m mrs * D) ≠ 0
                             ∧ 2 * (N - shr_m mrs * D) ≠ D).

End Binary64Spec.

(** ** The percentages of the scoring engine on doubles

    [calculateDomainScores] and [calculateOverallRating] with their
    percentages computed as JavaScript computes them, in IEEE binary64.
    Totals, counts and maximum scores are integers far below 2^53,
    which doubles hold exactly, so they stay in [Z]. *)

Module Scoring64.
Import Scoring.

(** [maxPossibleScore > 0 ? (total / maxPossibleScore) * 100 : 0],
    then [Math.round(percentage * 100) / 100], for one domain. *)
Definition domainPercentage (now : Z) (scores : gmap string ScoreEntry)
    (domain : RubricDomain) : spec_float :=
  let domainItemScores := List.map (domainItemScore now scores) (items domain) in
  let applicableItems := List.filter isApplicable domainItemScores in
  let total :=
    fold_left (fun sum score => sum + default 0 (Js.truthy_num (rating score)))
              applicableItems 0 in
  let maxPossible := maxPossibleScore domain applicableItems in
  Binary64.percentage total maxPossible.

(** [totalMaxScore > 0 ? (grandTotal / totalMaxScore) * 100 : 0], then
    [Math.round(overallPercentage * 100) / 100]. *)
Definition roundedPercentage (domainScores : list DomainScore) : spec_float :=
  Binary64.percentage (calculateGrandTotal domainScores) (totalMaxScore domainScores).

Record OverallRating := {
  overall_rating : string;
  overall_color : string;
  overall_percentage : spec_float
}.

Definition calculateOverallRating (domainScores : list DomainScore)
    (thresholds : list OverallRatingThreshold) : OverallRating :=
  match domainScores with
  | [] => {| overall_rating := "No Data"; overall_color := "gray";
             overall_percentage := Binary64.ofZ 0 |}
  | _ :: _ =>
      let rounded := roundedPercentage domainScores in
      let threshold := List.find (ScoringSpec.inBand64 rounded) thresholds in
      {| overall_rating :=
           match threshold with
           | Some t => Js.str_or (threshold_rating t) "Unknown"
           | None => "Unknown"
           end;
         overall_color :=
           match threshold with
           | Some t => Js.str_or (threshold_color t) "gray"
           | None => "gray"
           end;
         overall_percentage := rounded |}
  end.

(** [k] is an integer nearest to [10000 * num / den]: the hundredths of
    [100 * num / den] rounded to two decimals, either neighbour at a
    tie. *)
Definition nearestHundredths (num den k : Z) : Prop :=
  2 * Z.abs (k * den - 10000 * num) ≤ den.

End Scoring64.

(** ** Rounding in binary64 *)

Module Binary64Facts.
Import Binary64 Binary64Spec.

Lemma digits2_pos_bounds (p : positive) :
  2 ^ (Zpos (digits2_pos p) - 1) ≤ Zpos p < 2 ^ Zpos (digits2_pos p).
Proof.
  induction p as [p IH|p IH|]; cbn [digits2_pos].
  - rewrite Pos2Z.inj_succ, Z.pow_succ_r by lia.
    replace (Z.succ (Zpos (digits2_pos p)) - 1) with (Z.succ (Zpos (digits2_pos p) - 1))
      by lia.
    rewrite Z.pow_succ_r by lia. lia.
  - rewrite Pos2Z.inj_succ, Z.pow_succ_r by lia.
    replace (Z.succ (Zpos (digits2_pos p)) - 1) with (Z.succ (Zpos (digits2_pos p) - 1))
      by lia.
    rewrite Z.pow_succ_r by lia. lia.
  - cbn. lia.
Qed.

Lemma digits2_pos_unique (p : positive) (k : Z) :
  2 ^ (k - 1) ≤ Zpos p < 2 ^ k → Zpos (digits2_pos p) = k.
Proof.
  intros [Hlo Hhi]. pose proof (digits2_pos_bounds p) as [Hlo' Hhi'].
  destruct (Z.lt_trichotomy (Zpos (digits2_pos p)) k) as [Hlt|[Heq|Hgt]]; [|exact Heq|].
  - assert (2 ^ Zpos (digits2_pos p) ≤ 2 ^ (k - 1)) by (apply Z.pow_le_mono_r; lia). lia.
  - assert (0 ≤ k).
    { destruct (Z.neg_nonneg_cases k) as [Hneg|]; [|done].
      rewrite (Z.pow_neg_r 2 k Hneg) in Hhi. lia. }
    assert (2 ^ k ≤ 2 ^ (Zpos (digits2_pos p) - 1)) by (apply Z.pow_le_mono_r; lia). lia.
Qed.

Lemma located_shr_1 N D mrs : located N D mrs → located N (2 * D) (shr_1 mrs).
Proof.
  destruct mrs as [m r s]. unfold located. cbn [shr_m shr_r shr_s].
  intros (Hm & Hrho & -> & ->).
  destruct m as [|[p|p|]|p]; cbn [shr_1 shr_m shr_r shr_s]; try lia;
    repeat case_bool_decide; cbn [orb]; split_and!; try done; lia.
Qed.

Lemma located_iter_pos N (p : positive) :
  ∀ D mrs, located N D mrs → located N (2 ^ Zpos p * D) (SpecFloat.iter_pos shr_1 p mrs).
Proof.
  induction p as [p IH|p IH|]; intros D mrs H; cbn [SpecFloat.iter_pos].
  - apply located_shr_1 in H. apply IH, IH in H.
    replace (2 ^ Zpos p~1 * D) with (2 ^ Zpos p * (2 ^ Zpos p * (2 * D))); [exact H|].
    replace (Zpos p~1) with (Zpos p + Zpos p + 1) by lia.
    rewrite !Z.pow_add_r by lia. change (2 ^ 1) with 2. ring.
  - apply IH, IH in H.
    replace (2 ^ Zpos p~0 * D) with (2 ^ Zpos p * (2 ^ Zpos p * D)); [exact H|].
    replace (Zpos p~0) with (Zpos p + Zpos p) by lia.
    rewrite !Z.pow_add_r by lia. ring.
  - apply located_shr_1 in H. exact H.
Qed.


Lemma located_shr N D mrs e n :
  located N D mrs → 0 ≤ n →
  located N (2 ^ n * D) (shr mrs e n).1 ∧ (shr mrs e n).2 = e + n.
Proof.
  intros H Hn. destruct n as [|p|p]; [| |lia]; cbn [shr fst snd].
  - split; [|lia]. by rewrite Z.pow_0_r, Z.mul_1_l.
  - split; [|reflexivity]. by apply located_iter_pos.
Qed.

Lemma located_round N D mrs :
  0 < D → located N D mrs →
  shr_m mrs ≤ round_nearest_even (shr_m mrs) (loc_of_shr_record mrs) ≤ shr_m mrs + 1
  ∧ 2 * Z.abs (round_nearest_even (shr_m mrs) (loc_of_shr_record mrs) * D - N) ≤ D.
Proof.
  destruct mrs as [m r s]. unfold located. cbn [shr_m shr_r shr_s].
  intros HD (Hm & Hrho & -> & ->).
  repeat case_bool_decide; cbn [loc_of_shr_record round_nearest_even];
    try destruct (Z.even m); lia.
Qed.

Lemma shr_record_of_loc_m m l : shr_m (shr_record_of_loc m l) = m.
Proof. by destruct l as [|[]]. Qed.

Lemma fexp_normal e : -1074 ≤ e - 53 → fexp prec emax e = e - 53.
Proof. unfold fexp, SpecFloat.emin, prec, emax. lia. Qed.

(** Rounding a located fraction of at least 53 digits to a double: the
    result is normal and within a relative error of 2^-53 of the
    fraction. *)
Lemma binary_round_aux_correct (mx : positive) ex lx N D :
  0 < D →
  located N D (shr_record_of_loc (Zpos mx) lx) →
  53 ≤ Zpos (digits2_pos mx) →
  -1074 ≤ Zpos (digits2_pos mx) + ex - 53 →
  Zpos (digits2_pos mx) + ex - 52 ≤ 971 →
  ∃ m e, binary_round_aux prec emax false (Zpos mx) ex lx = S754_finite false m e
         ∧ normal m
         ∧ Zpos (digits2_pos mx) + ex - 53 ≤ e ≤ Zpos (digits2_pos mx) + ex - 52
         ∧ 2 * Z.abs (Zpos m * 2 ^ (e - ex) * D - N)
           ≤ 2 ^ (Zpos (digits2_pos mx) - 53) * D
         ∧ 2 ^ 53 * Z.abs (Zpos m * 2 ^ (e - ex) * D - N)
           ≤ Zpos m * 2 ^ (e - ex) * D.
Proof.
  intros HD Hloc Hd Hlo Hhi. set (d := Zpos (digits2_pos mx)) in *.
  pose proof (digits2_pos_bounds mx) as Hmx. fold d in Hmx.
  unfold binary_round_aux, shr_fexp. cbn [Zdigits2]. fold d.
  rewrite fexp_normal by lia.
  replace (d + ex - 53 - ex) with (d - 53) by lia.
  destruct (located_shr N D _ ex (d - 53) Hloc ltac:(lia)) as [Hshift He'].
  destruct (shr (shr_record_of_loc (Zpos mx) lx) ex (d - 53)) as [mrs' e'].
  cbn [fst snd] in Hshift, He'. subst e'.
  set (X := 2 ^ (d - 53) * D) in *.
  assert (0 < 2 ^ (d - 53)) as Hpow by (apply Z.pow_pos_nonneg; lia).
  assert (0 < X) as HX by (unfold X; lia).
  destruct (located_round N X mrs' HX Hshift) as [Hmr Herr].
  set (mr := round_nearest_even (shr_m mrs') (loc_of_shr_record mrs')) in *.
  (* the shifted mantissa has 53 digits *)
  assert (2 ^ 52 ≤ shr_m mrs' < 2 ^ 53) as Hm'.
  { destruct Hloc as (_ & Hrho & _). rewrite shr_record_of_loc_m in Hrho.
    destruct Hshift as (Hnn & Hrho' & _).
    assert (2 ^ d = 2 ^ 53 * 2 ^ (d - 53)) as E1
        by (rewrite <- Z.pow_add_r by lia; f_equal; lia).
    assert (2 ^ (d - 1) = 2 ^ 52 * 2 ^ (d - 53)) as E2
        by (rewrite <- Z.pow_add_r by lia; f_equal; lia).
    rewrite E1, E2 in Hmx. unfold X in Hrho'.
    split; nia. }
  assert (2 ^ 52 ≤ mr ≤ 2 ^ 53) as Hmr' by lia.
  destruct (decide (mr = 2 ^ 53)) as [Hcarry|Hnocarry].
  - (* the increment reached 2^53 *)
    rewrite Hcarry. change (Zdigits2 (2 ^ 53)) with 54.
    change (fexp prec emax (54 + (ex + (d - 53)))) with
      (Z.max (54 + (ex + (d - 53)) - 53) (-1074)).
    replace (Z.max (54 + (ex + (d - 53)) - 53) (-1074) - (ex + (d - 53))) with 1 by lia.
    change (shr (shr_record_of_loc (2 ^ 53) loc_Exact) (ex + (d - 53)) 1)
      with ({| shr_m := Zpos (2 ^ 52); shr_r := false; shr_s := false |},
            ex + (d - 53) + 1).
    cbn [shr_m].
    destruct (Z.leb_spec (ex + (d - 53) + 1) (emax - prec)) as [_|Hbad];
      [|unfold emax, prec in Hbad; lia].
    eexists _, _. split; [reflexivity|]. unfold normal.
    replace (ex + (d - 53) + 1 - ex) with (1 + (d - 53)) by lia.
    rewrite Z.pow_add_r by lia. change (2 ^ 1) with 2.
    change (Zpos (2 ^ 52)) with (2 ^ 52). unfold X in *.
    split_and!; try lia; nia.
  - destruct mr as [|pr|pr] eqn:Emr; [lia| |lia].
    assert (Zpos (digits2_pos pr) = 53) as Hdig
        by (apply digits2_pos_unique; change (53 - 1) with 52; lia).
    cbn [Zdigits2]. rewrite Hdig.
    change (fexp prec emax (53 + (ex + (d - 53)))) with
      (Z.max (53 + (ex + (d - 53)) - 53) (-1074)).
    replace (Z.max (53 + (ex + (d - 53)) - 53) (-1074) - (ex + (d - 53))) with 0 by lia.
    cbn [shr shr_record_of_loc fst snd shr_m].
    destruct (Z.leb_spec (ex + (d - 53)) (emax - prec)) as [_|Hbad];
      [|unfold emax, prec in Hbad; lia].
    eexists _, _. split; [reflexivity|]. unfold normal.
    replace (ex + (d - 53) - ex) with (d - 53) by lia.
    unfold X in *. split_and!; try lia; nia.
Qed.


Lemma new_location_located q r D :
  0 ≤ q → 0 < D → 0 ≤ r < D →
  located (q * D + r) D (shr_record_of_loc q (new_location D r)).
Proof.
  intros Hq HD Hr. unfold located. rewrite shr_record_of_loc_m.
  replace (q * D + r - q * D) with r by lia.
  split; [exact Hq|]. split; [exact Hr|].
  unfold new_location, new_location_even, new_location_odd.
  destruct (Z.even D) eqn:Ev.
  - destruct (Z.eqb_spec r 0) as [->|Hr0].
    + cbn. split; symmetry; [apply bool_decide_eq_false|apply bool_decide_eq_false]; lia.
    + destruct (Z.compare_spec (2 * r) D); cbn; split; symmetry;
        try (apply bool_decide_eq_false; lia); try (apply bool_decide_eq_true; lia).
  - assert (Z.odd D = true) as Hodd by (rewrite <- Z.negb_even, Ev; reflexivity).
    apply Z.odd_spec in Hodd as [k Hk].
    destruct (Z.eqb_spec r 0) as [->|Hr0].
    + cbn. split; symmetry; apply bool_decide_eq_false; lia.
    + destruct (Z.compare_spec (2 * r + 1) D); cbn; split; symmetry;
        try (apply bool_decide_eq_false; lia); try (apply bool_decide_eq_true; lia).
Qed.

(** *** Values *)

Lemma pow2_pos e : (0 < 2 ^ e)%Q.
Proof. by apply Qpower_0_lt. Qed.

Lemma B2Q_pos m e : (0 < B2Q m e)%Q.
Proof.
  unfold B2Q. apply Qmult_lt_0_compat; [|apply pow2_pos].
  unfold Qlt. simpl. lia.
Qed.

(** The value of a double whose mantissa is rescaled to the exponent
    [ex]. *)
Lemma B2Q_rescale m e ex :
  ex ≤ e → (B2Q m e == inject_Z (Zpos m * 2 ^ (e - ex)) * 2 ^ ex)%Q.
Proof.
  intros Hle. unfold B2Q. rewrite inject_Z_mult.
  rewrite (Zpower_Qpower 2 (e - ex)) by lia.
  rewrite <- Qmult_assoc, <- Qpower_plus by discriminate.
  replace (e - ex + ex) with e by lia. reflexivity.
Qed.

(** An integer relative error bound read on values. *)
Lemma relative_error_Q A N D (s : Q) :
  0 < D → (0 < s)%Q →
  2 ^ 53 * Z.abs (A * D - N) ≤ A * D →
  let R := (inject_Z A * s)%Q in
  let P := (inject_Z N / inject_Z D * s)%Q in
  (R - u * R <= P ∧ P <= R + u * R)%Q.
Proof.
  intros HD Hs Herr R P.
  assert (0 < inject_Z D)%Q as HDq by (unfold Qlt; simpl; lia).
  assert (inject_Z N / inject_Z D == inject_Z A + (inject_Z N - inject_Z A * inject_Z D) / inject_Z D)%Q
    as EP by (field; lra).
  assert (- (u * inject_Z A) <= (inject_Z N - inject_Z A * inject_Z D) / inject_Z D
          ∧ (inject_Z N - inject_Z A * inject_Z D) / inject_Z D <= u * inject_Z A)%Q
    as [Hl Hr].
  { split.
    - apply Qle_shift_div_l; [exact HDq|].
      unfold u, Qle, Qmult, Qopp, Qminus, Qplus, inject_Z. simpl. lia.
    - apply Qle_shift_div_r; [exact HDq|].
      unfold u, Qle, Qmult, Qopp, Qminus, Qplus, inject_Z. simpl. lia. }
  subst R P. rewrite EP.
  set (δ := ((inject_Z N - inject_Z A * inject_Z D) / inject_Z D)%Q) in *.
  clearbody δ.
  assert (inject_Z A * s - u * (inject_Z A * s) == (inject_Z A - u * inject_Z A) * s)%Q
    as -> by ring.
  assert (inject_Z A * s + u * (inject_Z A * s) == (inject_Z A + u * inject_Z A) * s)%Q
    as -> by ring.
  split; apply Qmult_le_compat_r; lra.
Qed.

(** *** The operations on normal doubles *)

Lemma Pos_iter_xO (p k : positive) : Zpos (Pos.iter xO p k) = Zpos p * 2 ^ Zpos k.
Proof.
  apply (Pos.iter_ind _ xO p (λ k r, Zpos r = Zpos p * 2 ^ Zpos k)).
  - rewrite Z.pow_1_r. lia.
  - intros k' r IH. rewrite Pos2Z.inj_succ, Z.pow_succ_r, Pos2Z.inj_xO, IH by lia. ring.
Qed.

Lemma located_exact (m : positive) :
  located (Zpos m) 1 (shr_record_of_loc (Zpos m) loc_Exact).
Proof.
  unfold located. cbn [shr_record_of_loc shr_m shr_r shr_s].
  replace (Zpos m - Zpos m * 1) with 0 by lia. split_and!; try done; lia.
Qed.

(** An integer below 2^53 is a double. *)
Lemma ofZ_correct n :
  0 < n < 2 ^ 53 →
  ∃ m e, ofZ n = S754_finite false m e ∧ normal m ∧ -52 ≤ e ≤ 0
         ∧ (B2Q m e == inject_Z n)%Q.
Proof.
  intros Hn. destruct n as [|p|p]; [lia| |lia].
  pose proof (digits2_pos_bounds p) as Hp. set (d := Zpos (digits2_pos p)) in *.
  assert (1 ≤ d ≤ 53) as Hd.
  { split; [unfold d; lia|].
    destruct (Z.le_gt_cases d 53) as [|Hgt]; [done|].
    assert (2 ^ 53 ≤ 2 ^ (d - 1)) by (apply Z.pow_le_mono_r; lia). lia. }
  unfold ofZ, binary_normalize, binary_round. fold d.
  rewrite fexp_normal by lia.
  assert (∃ mz : positive,
            shl_align p 0 (d + 0 - 53) = (mz, d - 53)
            ∧ Zpos mz = Zpos p * 2 ^ (53 - d)) as (mz & -> & Hmz).
  { unfold shl_align. destruct (d + 0 - 53 - 0) as [|k|k] eqn:Ek; [| lia |].
    - exists p. assert (d = 53) as -> by lia. split; [reflexivity|]. cbn. lia.
    - exists (Pos.iter xO p k). split; [f_equal; lia|].
      rewrite Pos_iter_xO. f_equal. f_equal. lia. }
  assert (2 ^ 53 = 2 ^ d * 2 ^ (53 - d)) as E1
      by (rewrite <- Z.pow_add_r by lia; f_equal; lia).
  assert (2 ^ 52 = 2 ^ (d - 1) * 2 ^ (53 - d)) as E2
      by (rewrite <- Z.pow_add_r by lia; f_equal; lia).
  assert (0 < 2 ^ (53 - d)) as Hpow by (apply Z.pow_pos_nonneg; lia).
  assert (2 ^ 52 ≤ Zpos mz < 2 ^ 53) as Hnorm by (rewrite Hmz, E1, E2; nia).
  assert (Zpos (digits2_pos mz) = 53) as Hdig
      by (apply digits2_pos_unique; change (53 - 1) with 52; exact Hnorm).
  destruct (binary_round_aux_correct mz (d - 53) loc_Exact (Zpos mz) 1)
    as (m & e & -> & Hm & He & Hhalf & _);
    [lia|apply located_exact|lia|lia|lia|].
  rewrite Hdig in He, Hhalf. change (2 ^ (53 - 53)) with 1 in Hhalf.
  exists m, e. split; [reflexivity|]. split; [exact Hm|].
  assert (Zpos m * 2 ^ (e - (d - 53)) = Zpos mz) as Hval by lia.
  assert (e = d - 53) as ->.
  { destruct (decide (e = d - 53)) as [|Hne]; [done|].
    assert (e - (d - 53) = 1) as E by lia. rewrite E in Hval.
    change (2 ^ 1) with 2 in Hval. unfold normal in Hm. lia. }
  split; [lia|].
  rewrite (B2Q_rescale m (d - 53) (d - 53)) by lia. rewrite Hval, Hmz.
  rewrite inject_Z_mult, (Zpower_Qpower 2 (53 - d)) by lia.
  rewrite <- Qmult_assoc, <- Qpower_plus by discriminate.
  replace (53 - d + (d - 53)) with 0 by lia. change (inject_Z 2 ^ 0)%Q with 1%Q.
  ring.
Qed.

Lemma digits2_pos_normal m : normal m → Zpos (digits2_pos m) = 53.
Proof. intros H. apply digits2_pos_unique. exact H. Qed.

Lemma digits2_pos_between (p : positive) lo hi :
  1 ≤ lo → 2 ^ (lo - 1) ≤ Zpos p < 2 ^ hi → lo ≤ Zpos (digits2_pos p) ≤ hi.
Proof.
  intros Hlo [H1 H2]. pose proof (digits2_pos_bounds p) as [H3 H4].
  set (d := Zpos (digits2_pos p)) in *. assert (1 ≤ d) by (unfold d; lia).
  split.
  - destruct (Z.le_gt_cases lo d) as [|Hgt]; [done|].
    assert (2 ^ d ≤ 2 ^ (lo - 1)) by (apply Z.pow_le_mono_r; lia). lia.
  - destruct (Z.le_gt_cases d hi) as [|Hgt]; [done|].
    assert (0 ≤ hi).
    { destruct (Z.neg_nonneg_cases hi) as [Hneg|]; [|done].
      rewrite (Z.pow_neg_r 2 hi Hneg) in H2. lia. }
    assert (2 ^ hi ≤ 2 ^ (d - 1)) by (apply Z.pow_le_mono_r; lia). lia.
Qed.

(** Division of normal doubles: the quotient is a normal double within
    a relative error of 2^-53 of the exact quotient. *)
Lemma div_correct m1 e1 m2 e2 :
  normal m1 → normal m2 → -400 ≤ e1 ≤ 400 → -400 ≤ e2 ≤ 400 →
  ∃ m e, div (S754_finite false m1 e1) (S754_finite false m2 e2) = S754_finite false m e
         ∧ normal m ∧ e1 - e2 - 53 ≤ e ≤ e1 - e2 - 51
         ∧ (B2Q m e - u * B2Q m e <= B2Q m1 e1 / B2Q m2 e2
            ∧ B2Q m1 e1 / B2Q m2 e2 <= B2Q m e + u * B2Q m e)%Q.
Proof.
  intros H1 H2 He1 He2. unfold div, SFdiv, SFdiv_core_binary. cbn [Zdigits2 xorb].
  rewrite (digits2_pos_normal m1 H1), (digits2_pos_normal m2 H2).
  rewrite fexp_normal by lia.
  replace (Z.min (53 + e1 - (53 + e2) - 53) (e1 - e2)) with (e1 - e2 - 53) by lia.
  replace (e1 - e2 - (e1 - e2 - 53)) with 53 by lia.
  rewrite Z.shiftl_mul_pow2 by lia.
  pose proof (Z_div_mod (Zpos m1 * 2 ^ 53) (Zpos m2) ltac:(lia)) as Hdiv.
  destruct (Z.div_eucl (Zpos m1 * 2 ^ 53) (Zpos m2)) as [q r]. destruct Hdiv as [Hq Hr].
  unfold normal in H1, H2.
  assert (2 ^ 52 ≤ q < 2 ^ 54) as Hqb by (split; nia).
  destruct q as [|pq|pq]; [lia| |lia].
  pose proof (digits2_pos_between pq 53 54 ltac:(lia) Hqb) as Hdq.
  destruct (binary_round_aux_correct pq (e1 - e2 - 53) (new_location (Zpos m2) r)
              (Zpos m1 * 2 ^ 53) (Zpos m2))
    as (m & e & -> & Hm & He & _ & Hrel); [lia| |lia|lia|lia|].
  { rewrite Hq, (Z.mul_comm (Zpos m2)). apply new_location_located; lia. }
  exists m, e. split; [reflexivity|]. split; [exact Hm|]. split; [lia|].
  pose proof (relative_error_Q _ _ (Zpos m2) (2 ^ (e1 - e2 - 53)) ltac:(lia)
                (pow2_pos _) Hrel) as Hq'. cbv zeta in Hq'.
  rewrite <- (B2Q_rescale m e (e1 - e2 - 53)) in Hq' by lia.
  assert (inject_Z (Zpos m1 * 2 ^ 53) / inject_Z (Zpos m2) * 2 ^ (e1 - e2 - 53)
          == B2Q m1 e1 / B2Q m2 e2)%Q as E.
  { unfold B2Q. rewrite inject_Z_mult, (Zpower_Qpower 2 53) by lia.
    replace (e1 - e2 - 53) with (e1 + (Z.opp e2 + Z.opp 53)) by lia.
    rewrite !Qpower_plus, !Qpower_opp by discriminate.
    assert (0 < inject_Z (Zpos m2))%Q by (unfold Qlt; simpl; lia).
    pose proof (pow2_pos e2). pose proof (pow2_pos 53). pose proof (pow2_pos e1).
    change (inject_Z 2) with 2%Q.
    generalize dependent (2 ^ e1)%Q. generalize dependent (2 ^ e2)%Q.
    generalize dependent (2 ^ 53)%Q. intros. field. split_and!; lra. }
  rewrite E in Hq'. exact Hq'.
Qed.

(** Multiplication of normal doubles. *)
Lemma mul_correct m1 e1 m2 e2 :
  normal m1 → normal m2 → -400 ≤ e1 ≤ 400 → -400 ≤ e2 ≤ 400 →
  ∃ m e, mul (S754_finite false m1 e1) (S754_finite false m2 e2) = S754_finite false m e
         ∧ normal m ∧ e1 + e2 + 52 ≤ e ≤ e1 + e2 + 54
         ∧ (B2Q m e - u * B2Q m e <= B2Q m1 e1 * B2Q m2 e2
            ∧ B2Q m1 e1 * B2Q m2 e2 <= B2Q m e + u * B2Q m e)%Q.
Proof.
  intros H1 H2 He1 He2. unfold mul, SFmul. cbn [xorb].
  unfold normal in H1, H2.
  assert (2 ^ 104 ≤ Zpos (m1 * m2) < 2 ^ 106) as Hpb by (rewrite Pos2Z.inj_mul; split; nia).
  pose proof (digits2_pos_between (m1 * m2) 105 106 ltac:(lia) Hpb) as Hdp.
  destruct (binary_round_aux_correct (m1 * m2) (e1 + e2) loc_Exact (Zpos (m1 * m2)) 1)
    as (m & e & -> & Hm & He & _ & Hrel); [lia|apply located_exact|lia|lia|lia|].
  exists m, e. split; [reflexivity|]. split; [exact Hm|]. split; [lia|].
  pose proof (relative_error_Q _ _ 1 (2 ^ (e1 + e2)) ltac:(lia) (pow2_pos _) Hrel) as Hq'.
  cbv zeta in Hq'. rewrite <- (B2Q_rescale m e (e1 + e2)) in Hq' by lia.
  assert (inject_Z (Zpos (m1 * m2)) / inject_Z 1 * 2 ^ (e1 + e2)
          == B2Q m1 e1 * B2Q m2 e2)%Q as E.
  { unfold B2Q. rewrite Pos2Z.inj_mul, inject_Z_mult, Qpower_plus by discriminate.
    change (inject_Z 1) with 1%Q.
    generalize (2 ^ e1)%Q (2 ^ e2)%Q. intros. field. }
  rewrite E in Hq'. exact Hq'.
Qed.

(** *** The percentage pipeline *)

Lemma ofZ_100 : ofZ 100 = S754_finite false 7036874417766400 (-46).
Proof. reflexivity. Qed.

Lemma normal_100 : normal 7036874417766400.
Proof. unfold normal. lia. Qed.

Lemma B2Q_100 : (B2Q 7036874417766400 (-46) == 100)%Q.
Proof. vm_compute. reflexivity. Qed.

(** [Math.round] of a positive double is the integer nearest to its
    value, the upper one at a tie. *)
Lemma round_correct m e :
  ∃ k, round (S754_finite false m e) = ofZ k
       ∧ (inject_Z k - (1 # 2) <= B2Q m e ∧ B2Q m e < inject_Z k + (1 # 2))%Q.
Proof.
  unfold round. cbn [cond_Zopp]. destruct (Z.leb_spec 0 e) as [He|He].
  - exists (Zpos m * 2 ^ e). split; [reflexivity|].
    unfold B2Q. rewrite inject_Z_mult, (Zpower_Qpower 2 e) by lia.
    change (inject_Z 2) with 2%Q. generalize (inject_Z (Zpos m) * 2 ^ e)%Q. intros q.
    split; lra.
  - exists ((2 * Zpos m + 2 ^ (- e)) / 2 ^ (1 - e)). split; [reflexivity|].
    set (p := 2 ^ (- e)). assert (0 < p) as Hp by (apply Z.pow_pos_nonneg; lia).
    assert (2 ^ (1 - e) = 2 * p) as ->
        by (unfold p; rewrite <- Z.pow_succ_r by lia; f_equal; lia).
    set (k := (2 * Zpos m + p) / (2 * p)).
    assert (k * (2 * p) ≤ 2 * Zpos m + p < (k + 1) * (2 * p)) as [Hk1 Hk2].
    { unfold k. pose proof (Z.mul_div_le (2 * Zpos m + p) (2 * p) ltac:(lia)).
      pose proof (Z.mul_succ_div_gt (2 * Zpos m + p) (2 * p) ltac:(lia)). lia. }
    assert (0 < inject_Z p)%Q as Hpq by (unfold Qlt; simpl; lia).
    assert (B2Q m e * inject_Z p == inject_Z (Zpos m))%Q as Eb.
    { unfold B2Q, p. rewrite (Zpower_Qpower 2 (- e)) by lia.
      rewrite <- Qmult_assoc, <- Qpower_plus by discriminate.
      replace (e + - e) with 0 by lia. change (inject_Z 2 ^ 0)%Q with 1%Q. ring. }
    rewrite Zle_Qle in Hk1. rewrite Zlt_Qlt in Hk2.
    rewrite !inject_Z_mult, !inject_Z_plus, !inject_Z_mult in Hk1, Hk2.
    rewrite ?(inject_Z_plus k 1) in Hk2.
    rewrite <- Eb in Hk1, Hk2. change (inject_Z 2) with 2%Q in *.
    change (inject_Z 1) with 1%Q in *.
    set (kq := inject_Z k) in *. set (b := B2Q m e) in *.
    set (pq := inject_Z p) in *. clearbody kq b pq.
    split.
    + apply (Qmult_lt_0_le_reg_r _ _ (2 * pq)); [lra|]. lra.
    + apply (Qmult_lt_r _ _ (2 * pq)); [lra|]. lra.
Qed.

(** The percentage of [num] out of [den] as the code computes it on
    doubles is the double of [k / 100], for an integer [k] nearest to
    [10000 * num / den]. *)
Lemma percentage_nearest T M :
  0 ≤ T ≤ 10 ^ 10 → 0 < M < 2 ^ 53 →
  ∃ k, percentage T M = ofQ (k # 100) ∧ Scoring64.nearestHundredths T M k.
Proof.
  intros HT HM. unfold percentage, round2. rewrite (proj2 (Z.ltb_lt 0 M)) by lia.
  destruct (ofZ_correct M) as (mM & eM & EM & HnM & HeM & HvM); [lia|].
  destruct (decide (T = 0)) as [->|HT0].
  { exists 0. rewrite EM. split; [reflexivity|]. unfold Scoring64.nearestHundredths. lia. }
  destruct (ofZ_correct T) as (mT & eT & ET & HnT & HeT & HvT); [lia|].
  rewrite ET, EM, ofZ_100.
  destruct (div_correct mT eT mM eM) as (mq & eq & -> & Hnq & Heq & Hq1 & Hq2);
    [done|done|lia|lia|].
  destruct (mul_correct mq eq _ (-46) Hnq normal_100)
    as (ma & ea & -> & Hna & Hea & Ha1 & Ha2); [lia|lia|].
  destruct (mul_correct ma ea _ (-46) Hna normal_100)
    as (mb & eb & -> & Hnb & Heb & Hb1 & Hb2); [lia|lia|].
  destruct (round_correct mb eb) as (k & -> & Hk1 & Hk2).
  exists k. split; [rewrite <- ofZ_100; reflexivity|].
  rewrite HvT, HvM in Hq1, Hq2. rewrite B2Q_100 in Ha1, Ha2, Hb1, Hb2.
  pose proof (B2Q_pos mq eq) as Hq0. pose proof (B2Q_pos ma ea) as Ha0.
  pose proof (B2Q_pos mb eb) as Hb0.
  set (vq := B2Q mq eq) in *. set (va := B2Q ma ea) in *. set (vb := B2Q mb eb) in *.
  clearbody vq va vb.
  assert (1 <= inject_Z M)%Q as HM1 by (unfold Qle; simpl; lia).
  assert (0 < inject_Z T ∧ inject_Z T <= 10000000000)%Q as [HT1 HT2]
      by (unfold Qle, Qlt; simpl; lia).
  assert (inject_Z T / inject_Z M * inject_Z M == inject_Z T)%Q as EP by (field; lra).
  assert (0 <= inject_Z T / inject_Z M)%Q as HP0.
  { apply Qle_shift_div_l; lra. }
  set (P := (inject_Z T / inject_Z M)%Q) in *. clearbody P.
  change u with (1 # 9007199254740992)%Q in *.
  assert (vb - 10000 * P <= (1 # 100000000000) * P
          ∧ 10000 * P - vb <= (1 # 100000000000) * P)%Q as [Hd1 Hd2] by (split; lra).
  set (kq := inject_Z k) in *. set (mm := inject_Z M) in *. set (t := inject_Z T) in *.
  assert ((vb - 10000 * P) * mm <= (1 # 100000000000) * P * mm)%Q as Hs1
      by (apply Qmult_le_compat_r; lra).
  assert ((10000 * P - vb) * mm <= (1 # 100000000000) * P * mm)%Q as Hs2
      by (apply Qmult_le_compat_r; lra).
  assert ((kq - (1 # 2)) * mm <= vb * mm)%Q as Hs3 by (apply Qmult_le_compat_r; lra).
  assert (vb * mm < (kq + (1 # 2)) * mm)%Q as Hs4 by (apply Qmult_lt_compat_r; lra).
  unfold Scoring64.nearestHundredths.
  destruct (Z.le_gt_cases (2 * Z.abs (k * M - 10000 * T)) M) as [|Hgt]; [done|exfalso].
  destruct (Z.abs_spec (k * M - 10000 * T)) as [[_ E]|[_ E]]; rewrite E in Hgt.
  - assert (M + 1 + 2 * (10000 * T) ≤ 2 * (k * M)) as Hz by lia.
    rewrite Zle_Qle in Hz. rewrite !inject_Z_plus, !inject_Z_mult in Hz.
    fold kq mm t in Hz. change (inject_Z 1) with 1%Q in Hz.
    change (inject_Z 2) with 2%Q in Hz. change (inject_Z 10000) with 10000%Q in Hz.
    clearbody kq mm t. lra.
  - assert (M + 1 + 2 * (k * M) ≤ 2 * (10000 * T)) as Hz by lia.
    rewrite Zle_Qle in Hz. rewrite !inject_Z_plus, !inject_Z_mult in Hz.
    fold kq mm t in Hz. change (inject_Z 1) with 1%Q in Hz.
    change (inject_Z 2) with 2%Q in Hz. change (inject_Z 10000) with 10000%Q in Hz.
    clearbody kq mm t. lra.
Qed.

(** Where [10000 * num / den] is not half way between two integers, the
    doubles answer the hundredths of the rational model. *)
Lemma percentage_off_ties T M :
  0 ≤ T ≤ 10 ^ 10 → 0 < M < 2 ^ 53 →
  (20000 * T) mod (2 * M) ≠ M →
  percentage T M = ofQ (Js.round (inject_Z T / inject_Z M * 100 * 100) # 100).
Proof.
  intros HT HM Htie.
  destruct (percentage_nearest T M HT HM) as (k & -> & Hk).
  unfold Scoring64.nearestHundredths in Hk. f_equal. f_equal.
  assert (2 * Z.abs (k * M - 10000 * T) ≠ M) as Hne.
  { intros E. apply Htie.
    destruct (Z.abs_spec (k * M - 10000 * T)) as [[_ Ea]|[_ Ea]]; rewrite Ea in E.
    - replace (20000 * T) with (M + (k - 1) * (2 * M)) by lia.
      rewrite Z.mod_add by lia. apply Z.mod_small. lia.
    - replace (20000 * T) with (M + k * (2 * M)) by lia.
      rewrite Z.mod_add by lia. apply Z.mod_small. lia. }
  assert (2 * k * M - M < 20000 * T < 2 * k * M + M) as [H1 H2] by lia.
  assert (0 < inject_Z M)%Q as HMq by (unfold Qlt; simpl; lia).
  assert (inject_Z k < inject_Z T / inject_Z M * 100 * 100 + (1 # 2)
          ∧ inject_Z T / inject_Z M * 100 * 100 + (1 # 2) < inject_Z (k + 1))%Q as [Hlo Hhi].
  { rewrite Zlt_Qlt in H1. rewrite Zlt_Qlt in H2.
    assert (inject_Z (2 * k * M - M) == 2 * inject_Z k * inject_Z M - inject_Z M)%Q as E1
        by (unfold Qeq, Qminus, Qplus, Qmult, Qopp, inject_Z; simpl; lia).
    assert (inject_Z (2 * k * M + M) == 2 * inject_Z k * inject_Z M + inject_Z M)%Q as E2
        by (unfold Qeq, Qminus, Qplus, Qmult, Qopp, inject_Z; simpl; lia).
    assert (inject_Z (20000 * T) == 20000 * inject_Z T)%Q as E3
        by (unfold Qeq, Qminus, Qplus, Qmult, Qopp, inject_Z; simpl; lia).
    rewrite E1, E3 in H1. rewrite E2, E3 in H2. rewrite inject_Z_plus.
    change (inject_Z 20000) with 20000%Q in *. change (inject_Z 2) with 2%Q in *.
    change (inject_Z 1) with 1%Q.
    assert (inject_Z T / inject_Z M * inject_Z M == inject_Z T)%Q as EP by (field; lra).
    set (P := (inject_Z T / inject_Z M)%Q) in *.
    set (kq := inject_Z k) in *. set (mm := inject_Z M) in *. set (t := inject_Z T) in *.
    clearbody P kq mm t.
    split; apply (Qmult_lt_r _ _ (2 * mm)); lra. }
  symmetry. unfold Js.round. apply Z.le_antisymm.
  - apply Z.lt_succ_r. rewrite Zlt_Qlt.
    eapply Qle_lt_trans; [apply Qfloor_le|]. exact Hhi.
  - rewrite <- (Qfloor_Z k). apply Qfloor_resp_le. apply Qlt_le_weak. exact Hlo.
Qed.

End Binary64Facts.

(** ** Properties of the scoring engine *)

Module ScoringFacts.
Import Scoring ScoringSpec.

Lemma sumZ_cons (x : Z) (l : list Z) : sumZ (x :: l) = x + sumZ l.
Proof. reflexivity. Qed.

Lemma fold_left_sum {A} (f : A → Z) (l : list A) (a : Z) :
  fold_left (λ sum x, sum + f x) l a = a + sumZ (List.map f l).
Proof.
  revert a. induction l as [|x l IH]; intros a; simpl.
  - lia.
  - rewrite IH. unfold sumZ. simpl. lia.
Qed.

Lemma truthy_num_isRated (r : option Z) :
  Js.truthy_num r = if isRated r then r else None.
Proof. destruct r as [[| |]|]; reflexivity. Qed.

Lemma isApplicable_domainItemScore now scores item :
  isApplicable (domainItemScore now scores item) = included scores item.
Proof.
  unfold isApplicable, included, enteredRating, domainItemScore. simpl.
  destruct (scores !! item_id item ≫= entry_rating) as [[| |]|]; reflexivity.
Qed.

Lemma applicable_included now scores (its : list RubricItem) :
  List.filter isApplicable (List.map (domainItemScore now scores) its)
  = List.map (domainItemScore now scores) (List.filter (included scores) its).
Proof.
  induction its as [|it its IH]; simpl; [reflexivity|].
  rewrite isApplicable_domainItemScore.
  destruct (included scores it); simpl; rewrite IH; reflexivity.
Qed.

Lemma rating_of_included now scores item :
  included scores item = true →
  default 0 (Js.truthy_num (rating (domainItemScore now scores item)))
  = default 0 (enteredRating scores item).
Proof.
  unfold included, enteredRating, domainItemScore. simpl.
  destruct (scores !! item_id item ≫= entry_rating) as [[| |]|]; simpl; congruence.
Qed.

Lemma total_domainScore now scores domain :
  total (domainScore now scores domain) = sumIncludedRatings scores domain.
Proof.
  unfold domainScore, sumIncludedRatings, includedItems. simpl.
  rewrite fold_left_sum, applicable_included, Z.add_0_l.
  f_equal. rewrite List.map_map.
  apply List.map_ext_in. intros it Hin.
  apply List.filter_In in Hin as [_ Hinc].
  by apply rating_of_included.
Qed.

Lemma maxPossibleScore_domain now scores domain :
  maxPossibleScore domain
    (List.filter isApplicable (List.map (domainItemScore now scores) (items domain)))
  = firstItemDenominator scores domain.
Proof.
  unfold maxPossibleScore, firstItemDenominator, includedItems.
  rewrite applicable_included, List.length_map.
  destruct (items domain) as [|first rest]; simpl; [lia|reflexivity].
Qed.

Lemma round2_proper (x y : Q) : (x == y)%Q → Js.round2 x = Js.round2 y.
Proof.
  intros E. unfold Js.round2, Js.round.
  assert (Qfloor (x * 100 + (1 # 2)) = Qfloor (y * 100 + (1 # 2))) as ->;
    [|reflexivity].
  apply Qfloor_comp. rewrite E. reflexivity.
Qed.

Lemma percentage_domainScore now scores domain :
  percentage (domainScore now scores domain)
  = percentOf (sumIncludedRatings scores domain) (firstItemDenominator scores domain).
Proof.
  rewrite <- total_domainScore with (now := now).
  rewrite <- maxPossibleScore_domain with (now := now).
  unfold domainScore, percentOf. simpl.
  set (t := fold_left _ _ _). set (m := maxPossibleScore _ _).
  clearbody t m.
  destruct (Z.ltb_spec 0 m); destruct (decide (0 < m)); try lia; [|reflexivity].
  apply round2_proper.
  assert (¬ inject_Z m == 0)%Q.
  { unfold Qeq. simpl. lia. }
  field. assumption.
Qed.

Lemma calculateDomainScores_Forall2 now scores domains (P : RubricDomain → DomainScore → Prop) :
  (∀ d, P d (domainScore now scores d)) →
  Forall2 P domains (calculateDomainScores now domains scores).
Proof.
  intros HP. unfold calculateDomainScores.
  induction domains as [|d domains IH]; simpl; constructor; auto.
Qed.

(** C2: the code on a domain whose first item is rated 0.  The total
    of a domain is the sum of the ratings that are entered and not zero,
    so an item rated 0 is left out of the numerator, and it is not
    counted among the applicable items.  It is not left out of the
    denominator: the first item of the domain gives its maxScore to
    every counted item, also when it is itself rated 0.  With item "a"
    (maxScore 5) rated 0 before item "b" (maxScore 4) rated 3 the code
    divides 3 by 1 * 5 and answers 60.00, and 75.00 once "a" is taken
    out of the domain, where the claim says that an item rated 0 is
    excluded from both numerator and denominator.  The example of the
    claim (both items of maxScore 4) gives total 3 and 75.00.  The
    percentages are the same on doubles. *)
Theorem C2_zero_rated_first_item_sets_denominator :
  let scores := Examples.S.zeroAndThree_scores in
  let withZero := MoreExamples.zeroFirst_domain in
  let withoutZero := MoreExamples.zeroRemoved_domain in
  (∀ now scores d, total (domainScore now scores d) = sumIncludedRatings scores d)
  ∧ enteredRating scores (Examples.S.item "a" 5) = Some 0
  ∧ total (domainScore 0 scores withZero) = 3
  ∧ total (domainScore 0 scores withoutZero) = 3
  ∧ sumIncludedMaxScore scores withZero = 4
  ∧ firstItemDenominator scores withZero = 5
  ∧ firstItemDenominator scores withoutZero = 4
  ∧ percentage (domainScore 0 scores withZero) = (6000 # 100)%Q
  ∧ percentage (domainScore 0 scores withoutZero) = (7500 # 100)%Q
  ∧ Scoring64.domainPercentage 0 scores withZero = Binary64.ofQ (6000 # 100)
  ∧ Scoring64.domainPercentage 0 scores withoutZero = Binary64.ofQ (7500 # 100)
  ∧ total (domainScore 0 scores Examples.S.zeroAndThree_domain) = 3
  ∧ percentage (domainScore 0 scores Examples.S.zeroAndThree_domain) = (7500 # 100)%Q
  ∧ Scoring64.domainPercentage 0 scores Examples.S.zeroAndThree_domain
    = Binary64.ofQ (7500 # 100).
Proof.
  split; [intros now scores d; apply total_domainScore|].
  repeat split; vm_compute; reflexivity.
Qed.

Lemma domainItemScore_no_zero now scores item :
  rating (domainItemScore now scores item) ≠ Some 0
  ∧ comment (domainItemScore now scores item) ≠ Some "".
Proof.
  unfold domainItemScore. simpl. split.
  - destruct (scores !! item_id item ≫= entry_rating) as [[| |]|]; simpl; congruence.
  - destruct (scores !! item_id item ≫= entry_comment) as [[|c s]|]; simpl; congruence.
Qed.

Lemma sameUpToZero_truthy r1 r2 :
  sameUpToZero r1 r2 → Js.truthy_num r1 = Js.truthy_num r2.
Proof. intros [-> | [[-> ->] | [-> ->]]]; reflexivity. Qed.

Lemma outline_domainScore now scores1 scores2 d :
  (∀ k, sameUpToZero (scores1 !! k ≫= entry_rating) (scores2 !! k ≫= entry_rating)) →
  outline (domainScore now scores1 d) = outline (domainScore now scores2 d).
Proof.
  intros Hsame.
  assert (List.map (λ s, (rubricItemId s, rating s))
                   (List.map (domainItemScore now scores1) (items d))
          = List.map (λ s, (rubricItemId s, rating s))
                     (List.map (domainItemScore now scores2) (items d))) as Hitems.
  { rewrite !List.map_map. apply List.map_ext. intros it. simpl.
    by rewrite (sameUpToZero_truthy _ _ (Hsame (item_id it))). }
  assert (∀ its, List.map rating (List.map (domainItemScore now scores1) its)
                 = List.map rating (List.map (domainItemScore now scores2) its)) as Hr.
  { intros its. rewrite !List.map_map. apply List.map_ext. intros it. simpl.
    by rewrite (sameUpToZero_truthy _ _ (Hsame (item_id it))). }
  assert (∀ (l1 l2 : list ObservationItemScore),
            List.map rating l1 = List.map rating l2 →
            List.map rating (List.filter isApplicable l1)
            = List.map rating (List.filter isApplicable l2)) as Hf.
  { induction l1 as [|x l1 IH]; intros [|y l2] E; simpl in E;
      try discriminate; [reflexivity|].
    injection E as Exy E. simpl.
    assert (isApplicable x = isApplicable y) as ->
      by (unfold isApplicable; by rewrite Exy).
    destruct (isApplicable y); simpl; rewrite ?Exy; [f_equal|]; auto. }
  specialize (Hf _ _ (Hr (items d))).
  unfold outline. f_equal; [|exact Hitems].
  assert (total (domainScore now scores1 d) = total (domainScore now scores2 d)) as Ht.
  { unfold domainScore. simpl. rewrite !fold_left_sum. f_equal.
    rewrite <- !(List.map_map rating (λ r, default 0 (Js.truthy_num r))).
    by rewrite Hf. }
  assert (percentage (domainScore now scores1 d)
          = percentage (domainScore now scores2 d)) as Hp.
  { unfold domainScore in *. simpl in *. rewrite Ht.
    unfold maxPossibleScore.
    apply (f_equal (@length _)) in Hf. rewrite !List.length_map in Hf.
    by rewrite Hf. }
  by rewrite Ht, Hp.
Qed.

(** C10: no item score returned by calculateDomainScores carries a
    rating of 0 or an empty comment; two score maps that differ only in
    rating some items 0 where the other leaves them unrated give the
    same totals, percentages and per-item ratings. *)
Theorem C10_zero_is_unrated (now : Z) (domains : list RubricDomain) :
  (∀ scores ds s,
     ds ∈ calculateDomainScores now domains scores → s ∈ itemScores ds →
     rating s ≠ Some 0 ∧ comment s ≠ Some "")
  ∧ (∀ scores1 scores2,
       (∀ k, sameUpToZero (scores1 !! k ≫= entry_rating)
                          (scores2 !! k ≫= entry_rating)) →
       List.map outline (calculateDomainScores now domains scores1)
       = List.map outline (calculateDomainScores now domains scores2)).
Proof.
  split.
  - intros scores ds s Hds Hs.
    apply list_elem_of_In, List.in_map_iff in Hds as (d & <- & _).
    apply list_elem_of_In, List.in_map_iff in Hs as (it & <- & _).
    apply domainItemScore_no_zero.
  - intros scores1 scores2 Hsame. unfold calculateDomainScores.
    rewrite !List.map_map. apply List.map_ext. intros d.
    by apply outline_domainScore.
Qed.

Lemma length_filter_isRated (scores : list ObservationItemScore) :
  Z.of_nat (length (List.filter (λ score, isRated (rating score)) scores))
  = ratedCount scores.
Proof.
  induction scores as [|s scores IH]; [reflexivity|].
  cbn [List.filter ratedCount].
  destruct (rating s) as [r|]; [|exact IH].
  destruct (decide (r = 0)) as [->|Hr]; [exact IH|].
  replace (isRated (Some r)) with true by (by destruct r).
  rewrite List.length_cons, Nat2Z.inj_succ. lia.
Qed.

Lemma ratedCount_nonneg scores : 0 ≤ ratedCount scores.
Proof. rewrite <- length_filter_isRated. lia. Qed.

Lemma calculateGrandTotal_sum ds : calculateGrandTotal ds = grandTotalOf ds.
Proof. unfold calculateGrandTotal, grandTotalOf. rewrite fold_left_sum. lia. Qed.

Lemma totalMaxScore_sum ds : totalMaxScore ds = hardcodedMaxOf ds.
Proof.
  unfold totalMaxScore, hardcodedMaxOf.
  rewrite (fold_left_sum
             (λ d, Z.of_nat (length (List.filter (λ score, isRated (rating score))
                                                 (itemScores d))) * 4)).
  rewrite Z.add_0_l. f_equal. apply List.map_ext. intros d.
  by rewrite length_filter_isRated.
Qed.

Lemma hardcodedMaxOf_nonneg ds : 0 ≤ hardcodedMaxOf ds.
Proof.
  unfold hardcodedMaxOf.
  induction ds as [|d ds IH]; [reflexivity|].
  cbn [List.map]. rewrite sumZ_cons.
  pose proof (ratedCount_nonneg (itemScores d)). lia.
Qed.

Lemma roundedPercentage_spec ds :
  roundedPercentage ds
  = Js.round2 (if decide (hardcodedMaxOf ds = 0) then 0%Q
               else (100 * inject_Z (grandTotalOf ds) / inject_Z (hardcodedMaxOf ds))%Q).
Proof.
  unfold roundedPercentage, overallPercentage.
  rewrite calculateGrandTotal_sum, totalMaxScore_sum.
  pose proof (hardcodedMaxOf_nonneg ds) as Hnn.
  destruct (Z.ltb_spec 0 (hardcodedMaxOf ds));
    destruct (decide (hardcodedMaxOf ds = 0)); try lia; [|reflexivity].
  apply round2_proper. field. unfold Qeq. simpl. lia.
Qed.

(** The overall percentage on doubles is computed from the sum of the
    domain totals and from 4 times the number of rated item scores. *)
Lemma roundedPercentage64_spec ds :
  Scoring64.roundedPercentage ds
  = Binary64.percentage (grandTotalOf ds) (hardcodedMaxOf ds).
Proof.
  unfold Scoring64.roundedPercentage.
  by rewrite calculateGrandTotal_sum, totalMaxScore_sum.
Qed.



Lemma hasScores_spec (scores : gmap string ScoreEntry) :
  hasScores scores = true ↔ someItemScored scores.
Proof.
  unfold hasScores, someItemScored. rewrite List.existsb_exists. split.
  - intros ([k e] & Hin & Hr). simpl in Hr.
    apply list_elem_of_In, elem_of_map_to_list in Hin.
    destruct (entry_rating e) as [r|] eqn:Er; [|discriminate].
    exists k, e, r. split; [assumption|]. split; [assumption|].
    intros ->. discriminate.
  - intros (k & e & r & Hk & Er & Hr).
    exists (k, e). split.
    + by apply list_elem_of_In, elem_of_map_to_list.
    + simpl. rewrite Er. by destruct r.
Qed.

Lemma pushIf_rule (cond : bool) (violated : Prop) msg es :
  (cond = true ↔ violated) →
  ∃ e, pushIf cond msg es = (es ++ e)%list ∧ rule violated msg e.
Proof.
  intros H. unfold pushIf, rule. destruct cond.
  - exists [msg]. split; [reflexivity|]. left. split; [by apply H|reflexivity].
  - exists []. split; [by rewrite List.app_nil_r|]. right.
    split; [|reflexivity]. intros Hv. apply H in Hv. discriminate.
Qed.

(** C8 (amended): validateObservationData evaluates its four rules
    one after the other without stopping at the first violation, each
    violated rule appending its own message, and isValid holds exactly
    when no error was appended.  For totalStudents = -1,
    presentStudents = -1 and no ratings it returns three errors (rules
    1, 2 and 4: -1 > -1 is false); all four are returned for, e.g.,
    totalStudents = -2, presentStudents = -1 and no ratings. *)
Theorem C8_validation_rules (data : ObservationData) :
  (∃ e1 e2 e3 e4,
     errors (validateObservationData data) = (e1 ++ e2 ++ e3 ++ e4)%list ∧
     rule (totalStudents data ≤ 0) "Total students must be greater than 0" e1 ∧
     rule (presentStudents data < 0) "Present students cannot be negative" e2 ∧
     rule (presentStudents data > totalStudents data)
          "Present students cannot exceed total students" e3 ∧
     rule (¬ someItemScored (data_itemScores data))
          "At least one rubric item must be scored" e4)
  ∧ (isValid (validateObservationData data) = true
     ↔ errors (validateObservationData data) = [])
  ∧ NoDup [ "Total students must be greater than 0";
            "Present students cannot be negative";
            "Present students cannot exceed total students";
            "At least one rubric item must be scored" ]
  ∧ errors (validateObservationData
              {| totalStudents := -1; presentStudents := -1; data_itemScores := ∅ |})
    = [ "Total students must be greater than 0";
        "Present students cannot be negative";
        "At least one rubric item must be scored" ]
  ∧ errors (validateObservationData
              {| totalStudents := -2; presentStudents := -1; data_itemScores := ∅ |})
    = [ "Total students must be greater than 0";
        "Present students cannot be negative";
        "Present students cannot exceed total students";
        "At least one rubric item must be scored" ].
Proof.
  split; [|split; [|split; [|split]]].
  - unfold validateObservationData. cbn [errors].
    destruct (pushIf_rule (totalStudents data <=? 0) (totalStudents data ≤ 0)
                "Total students must be greater than 0" [])
      as (e1 & -> & H1); [apply Z.leb_le|].
    destruct (pushIf_rule (presentStudents data <? 0) (presentStudents data < 0)
                "Present students cannot be negative" ([] ++ e1))
      as (e2 & -> & H2); [apply Z.ltb_lt|].
    destruct (pushIf_rule (presentStudents data >? totalStudents data)
                (presentStudents data > totalStudents data)
                "Present students cannot exceed total students" (([] ++ e1) ++ e2))
      as (e3 & -> & H3); [rewrite Z.gtb_ltb, Z.ltb_lt; lia|].
    destruct (pushIf_rule (negb (hasScores (data_itemScores data)))
                (¬ someItemScored (data_itemScores data))
                "At least one rubric item must be scored"
                ((([] ++ e1) ++ e2) ++ e3))
      as (e4 & -> & H4).
    { rewrite negb_true_iff, <- not_true_iff_false, hasScores_spec. reflexivity. }
    exists e1, e2, e3, e4. repeat split; try assumption.
    by rewrite List.app_nil_l, <- !List.app_assoc.
  - unfold validateObservationData. cbn [isValid errors].
    rewrite bool_decide_eq_true. apply List.length_zero_iff_nil.
  - repeat (constructor; [rewrite ?elem_of_cons, ?elem_of_nil; intuition discriminate|]).
    constructor.
  - reflexivity.
  - reflexivity.
Qed.

(** C8, as stated, fails: the input of the claim yields three errors,
    not four. *)
Lemma C8_counterexample :
  length (errors (validateObservationData
                    {| totalStudents := -1; presentStudents := -1;
                       data_itemScores := ∅ |})) ≠ 4%nat.
Proof. vm_compute. discriminate. Qed.

Lemma find_first_band {A} (f : A → bool) (pre : list A) (t : A) (post : list A) :
  Forall (λ u, f u = false) pre → f t = true →
  List.find f (pre ++ t :: post) = Some t.
Proof.
  intros Hpre Ht. induction Hpre as [|u pre Hu _ IH]; simpl.
  - by rewrite Ht.
  - by rewrite Hu.
Qed.

(** The general rule of calculateOverallRating: bands are closed
    intervals tried in the order given, the first one that contains the
    rounded percentage gives the rating and the colour (an empty label
    falls back to "Unknown", an empty colour to "gray"), and a
    percentage that no band contains is rated "Unknown". *)
Lemma calculateOverallRating_first_band d ds pre t post :
  let p := roundedPercentage (d :: ds) in
  Forall (λ u, ¬ ((minPercentage u <= p)%Q ∧ (p <= maxPercentage u)%Q)) pre →
  (minPercentage t <= p)%Q → (p <= maxPercentage t)%Q →
  calculateOverallRating (d :: ds) (pre ++ t :: post)
  = {| overall_rating := Js.str_or (threshold_rating t) "Unknown";
       overall_color := Js.str_or (threshold_color t) "gray";
       overall_percentage := p |}.
Proof.
  intros p Hpre Hmin Hmax. unfold calculateOverallRating. fold p.
  rewrite (find_first_band (inBand p) pre t post); [reflexivity| |].
  - eapply Forall_impl; [exact Hpre|]. intros u Hu. simpl.
    apply not_true_iff_false. intros Hin. apply Hu.
    unfold inBand in Hin. apply andb_true_iff in Hin as [H1 H2].
    by rewrite <- !Qle_bool_iff.
  - unfold inBand. apply andb_true_iff. by rewrite !Qle_bool_iff.
Qed.

Lemma calculateOverallRating_no_band d ds thresholds :
  let p := roundedPercentage (d :: ds) in
  Forall (λ u, ¬ ((minPercentage u <= p)%Q ∧ (p <= maxPercentage u)%Q)) thresholds →
  calculateOverallRating (d :: ds) thresholds
  = {| overall_rating := "Unknown"; overall_color := "gray";
       overall_percentage := p |}.
Proof.
  intros p Hnone. unfold calculateOverallRating. fold p.
  assert (List.find (inBand p) thresholds = None) as ->; [|reflexivity].
  induction Hnone as [|u l Hu _ IH]; [reflexivity|]. simpl.
  assert (inBand p u = false) as ->; [|exact IH].
  apply not_true_iff_false. intros Hin. apply Hu.
  unfold inBand in Hin. apply andb_true_iff in Hin as [H1 H2].
  by rewrite <- !Qle_bool_iff.
Qed.

(** C1: the code at the boundaries of the default table.  A rounded
    percentage of 90.00 is rated "Excellent" and 50.00 "Weak", but
    89.99 and 49.99 lie between two bands of the table (75..89 and
    90..100, 0..49 and 50..59) and are rated "Unknown", where the claim
    and the classification of the export route say "Good" and "Very
    Poor".  The same happens for 25 points out of 28 (89.29). *)
Theorem C1_default_table_gaps :
  calculateOverallRating (Examples.S.twoBlocks 4 3 3 2) DEFAULT_OVERALL_RATING_THRESHOLDS
  = {| overall_rating := "Excellent"; overall_color := "success";
       overall_percentage := 9000 # 100 |}
  ∧ calculateOverallRating (Examples.S.twoBlocks 2 1 0 0) DEFAULT_OVERALL_RATING_THRESHOLDS
    = {| overall_rating := "Weak"; overall_color := "warning";
         overall_percentage := 5000 # 100 |}
  ∧ calculateOverallRating (Examples.S.twoBlocks 4 202 3 135)
                           DEFAULT_OVERALL_RATING_THRESHOLDS
    = {| overall_rating := "Unknown"; overall_color := "gray";
         overall_percentage := 8999 # 100 |}
  ∧ ScoringSpec.exportRouteRating (8999 # 100) = "Good"
  ∧ calculateOverallRating (Examples.S.twoBlocks 2 1999 1 1)
                           DEFAULT_OVERALL_RATING_THRESHOLDS
    = {| overall_rating := "Unknown"; overall_color := "gray";
         overall_percentage := 4999 # 100 |}
  ∧ ScoringSpec.exportRouteRating (4999 # 100) = "Very Poor"
  ∧ calculateOverallRating
      (calculateDomainScores 0 Examples.S.seven_rubric Examples.S.seven_scores)
      DEFAULT_OVERALL_RATING_THRESHOLDS
    = {| overall_rating := "Unknown"; overall_color := "gray";
         overall_percentage := 8929 # 100 |}.
Proof. repeat split; vm_compute; reflexivity. Qed.

(** C3: the code on a domain whose items have different maximum
    scores (4 and 5), both rated at their maximum.  The total is 9; the
    included items' own maximum scores add up to 9, which would give
    100.00, but the code divides by 2 * 4 = 8, the maxScore of the
    first item taken for both, and answers 112.50. *)
Theorem C3_first_item_maxScore_for_all :
  let ds := domainScore 0 Examples.S.mixed_scores Examples.S.mixed_domain in
  calculateDomainScores 0 [Examples.S.mixed_domain] Examples.S.mixed_scores = [ds]
  ∧ total ds = 9
  ∧ sumIncludedRatings Examples.S.mixed_scores Examples.S.mixed_domain = 9
  ∧ sumIncludedMaxScore Examples.S.mixed_scores Examples.S.mixed_domain = 9
  ∧ firstItemDenominator Examples.S.mixed_scores Examples.S.mixed_domain = 8
  ∧ percentage ds = (11250 # 100)%Q
  ∧ percentOf 9 9 = (10000 # 100)%Q.
Proof. repeat split; vm_compute; reflexivity. Qed.

(** The denominator of the code and the one of the specification agree
    on a domain whose items all have the maxScore of the first. *)
Lemma firstItemDenominator_uniform scores d m :
  Forall (λ it, maxScore it = m) (items d) →
  firstItemDenominator scores d = sumIncludedMaxScore scores d.
Proof.
  unfold firstItemDenominator, sumIncludedMaxScore, includedItems.
  destruct (items d) as [|first rest]; [reflexivity|].
  intros Hall.
  change (maxScore (default _ (head (first :: rest)))) with (maxScore first).
  assert (maxScore first = m) as -> by (by inversion Hall).
  generalize (first :: rest) Hall. clear. intros l Hall.
  induction Hall as [|it l Hit _ IH]; [reflexivity|].
  cbn [List.filter]. destruct (included scores it); [|exact IH].
  cbn [List.map]. rewrite sumZ_cons, <- IH, List.length_cons, Nat2Z.inj_succ, Hit. lia.
Qed.

(** The percentages evaluated in C1, C2 and C3, computed on doubles:
    the same hundredths, and the same band of the default table. *)
Lemma binary64_agrees_on_examples :
  Forall (λ '(num, den, hundredths, band),
            Binary64.percentage num den = Binary64.ofQ (hundredths # 100)
            ∧ Js.round2 (inject_Z num / inject_Z den * 100) = (hundredths # 100)%Q
            ∧ threshold_rating
                <$> List.find (inBand64 (Binary64.percentage num den))
                              DEFAULT_OVERALL_RATING_THRESHOLDS = band
            ∧ threshold_rating
                <$> List.find (inBand (hundredths # 100))
                              DEFAULT_OVERALL_RATING_THRESHOLDS = band)
         [ (18, 20, 9000, Some "Excellent");
           (2, 4, 5000, Some "Weak");
           (1213, 1348, 8999, None);
           (3999, 8000, 4999, None);
           (25, 28, 8929, None);
           (3, 4, 7500, Some "Good");
           (9, 8, 11250, None) ].
Proof. repeat constructor; vm_compute; reflexivity. Qed.

(** Witness of C10: rating "a" 0, against leaving "a" out of the map. *)
Lemma C10_witness :
  List.map outline
    (calculateDomainScores 0 [Examples.S.zeroAndThree_domain]
                           Examples.S.zeroAndThree_scores)
  = List.map outline
      (calculateDomainScores 0 [Examples.S.zeroAndThree_domain]
                             (<["b" := Examples.S.rated 3]> ∅)).
Proof.
  apply (proj2 (C10_zero_is_unrated 0 [Examples.S.zeroAndThree_domain])).
  intros k. unfold Examples.S.zeroAndThree_scores.
  destruct (decide (k = "a")) as [->|Hk].
  - right. left. split; vm_compute; reflexivity.
  - left. by rewrite lookup_insert_ne.
Defined.

End ScoringFacts.

(** ** Properties of the route handlers *)

Module LifecycleFacts.
Import Lifecycle LifecycleSpec.

Lemma bind_value {A B} (m : M A) (f : A → M B) w a w' :
  m w = (Value a, w') → (m ≫= f) w = f a w'.
Proof. intros H. unfold mbind, M_bind. by rewrite H. Qed.

Lemma returnIf_false r w : returnIf false r w = (Value (), w).
Proof. reflexivity. Qed.

Lemma findUnique_found oid o w :
  observations (db w) !! oid = Some o →
  findUnique oid w
  = (Value (Some (o, List.filter (λ row, bool_decide (observationId row = oid))
                                 (observationItemScores (db w)))), w).
Proof.
  intros H. unfold findUnique, getDb, mbind, M_bind, mret, M_ret. simpl.
  rewrite H. reflexivity.
Qed.

Lemma update_found oid data o w :
  observations (db w) !! oid = Some o →
  update oid data w
  = (Value (applyData data o),
     {| db := {| observations := <[oid := applyData data o]> (observations (db w));
                 observationItemScores := observationItemScores (db w);
                 attachments := attachments (db w);
                 auditLogs := auditLogs (db w) |};
        rateLimitStore := rateLimitStore w |}).
Proof.
  intros H. unfold update, getDb, putDb, mbind, M_bind, mret, M_ret. simpl.
  rewrite H. reflexivity.
Qed.

Lemma ratedItems_zero (d : Db) oid :
  length (List.filter (λ score, bool_decide (rating score ≠ None))
            (List.filter (λ row, bool_decide (observationId row = oid))
                         (observationItemScores d))) = 0%nat
  ↔ ¬ hasRatedItem d oid.
Proof.
  unfold hasRatedItem. rewrite List.length_zero_iff_nil. split.
  - intros Hnil (row & Hin & Hid & Hr).
    assert (List.In row []) as []. rewrite <- Hnil.
    apply List.filter_In. split.
    + apply List.filter_In. split; [by apply list_elem_of_In|].
      by apply bool_decide_eq_true.
    + by apply bool_decide_eq_true.
  - intros Hno.
    destruct (List.filter _ (List.filter _ _)) as [|row l] eqn:E; [reflexivity|].
    exfalso. apply Hno. exists row.
    assert (List.In row (row :: l)) as Hin by (left; reflexivity).
    rewrite <- E in Hin.
    apply List.filter_In in Hin as [Hin Hr].
    apply List.filter_In in Hin as [Hin Hid].
    apply bool_decide_eq_true in Hr, Hid.
    split; [by apply list_elem_of_In|]. split; assumption.
Qed.

Lemma auditLogCreate_eq env entry w :
  auditLogCreate env entry w
  = if auditLogCreateFails env then (Throw, w) else (Value (), withAuditLog entry w).
Proof. unfold auditLogCreate. destruct (auditLogCreateFails env); reflexivity. Qed.

Lemma PUT_status_eq env req w :
  PUT_status env req w =
  let rl := (rateLimit (now env) (getClientIdentifier (forwardedFor req) (realIp req))
                       20 (15 * 60 * 1000) (rateLimitStore w)).1 in
  let w1 := afterRateLimit env req w in
  if negb (success rl) then
    (json (RateLimitBody "Too many requests. Please try again later."
                         (result_resetTime rl)) 429, w1)
  else match session env with
  | None => (json (ErrorBody "Unauthorized") 401, w1)
  | Some user =>
    match parseAction (body_action req) with
    | None => (json (ErrorBody "Valid action is required: SUBMIT, REVIEW, FINALIZE, or RETURN_TO_DRAFT") 400, w1)
    | Some action =>
      match observations (db w) !! params_id req with
      | None => (json (ErrorBody "Observation not found") 404, w1)
      | Some o =>
        match transition env user (params_id req)
                (trim <$> Js.truthy_str (body_reviewerComments req))
                o (itemScoresOf (params_id req) (db w)) action w1 with
        | (Value (updated, auditAction), w2) =>
            if auditLogCreateFails env then (internalError, w2)
            else (json (ObservationBody updated) 200,
                  withAuditLog (transitionAudit user (params_id req) action
                                                auditAction o updated) w2)
        | (Return r, w2) => (r, w2)
        | (Throw, w2) => (internalError, w2)
        end
      end
    end
  end.
Proof.
  unfold PUT_status, tryCatch, PUT_status_body, afterRateLimit.
  unfold mbind at 1, M_bind at 1. unfold rateLimitM.
  destruct (rateLimit _ _ _ _ _) as [rl store]. cbn [fst snd].
  unfold mbind at 1, M_bind at 1.
  destruct (success rl); cbn [negb]; [|reflexivity].
  rewrite returnIf_false.
  destruct (session env) as [user|]; [|reflexivity].
  destruct (parseAction _) as [action|]; [|reflexivity].
  unfold mbind at 1, M_bind at 1.
  destruct (observations (db w) !! params_id req) as [o|] eqn:Ho.
  - rewrite (findUnique_found _ o) by exact Ho. cbn [db].
    unfold mbind at 1, M_bind at 1. fold (itemScoresOf (params_id req) (db w)).
    destruct (transition _ _ _ _ _ _ _ _) as [[[updated auditAction]|r|] w2];
      [|reflexivity|reflexivity].
    unfold mbind at 1, M_bind at 1. rewrite auditLogCreate_eq.
    destruct (auditLogCreateFails env); reflexivity.
  - unfold findUnique, getDb, mbind, M_bind, mret, M_ret. cbn. rewrite Ho. reflexivity.
Qed.

Lemma transition_eq env user oid rc o its action w :
  observations (db w) !! oid = Some o →
  transition env user oid rc o its action w =
  match action with
  | SUBMIT =>
      if bool_decide (observerId o ≠ user_id user) && bool_decide (role user ≠ "ADMIN")
      then (Return forbidden, w)
      else if bool_decide (status o ≠ "DRAFT")
      then (Return (badRequest "Only draft observations can be submitted"), w)
      else if bool_decide
                (length (List.filter (λ score, bool_decide (rating score ≠ None)) its)
                 = 0%nat)
      then (Return (badRequest "At least one rubric item must be rated before submission"), w)
      else (Value (applyData [Set_status "SUBMITTED"] o,
                   "Submitted observation for review"),
            withObservation oid (applyData [Set_status "SUBMITTED"] o) w)
  | REVIEW =>
      if negb (isReviewerOrAdmin user) then (Return forbidden, w)
      else if bool_decide (status o ≠ "SUBMITTED")
      then (Return (badRequest "Only submitted observations can be reviewed"), w)
      else
        let data := [Set_status "REVIEWED"; Set_reviewerId (Some (user_id user));
                     Set_reviewedAt (Some (now env)); Set_reviewerComments rc] in
        (Value (applyData data o, "Reviewed observation"),
         withObservation oid (applyData data o) w)
  | FINALIZE =>
      if negb (isReviewerOrAdmin user) then (Return forbidden, w)
      else if bool_decide (status o ≠ "REVIEWED")
      then (Return (badRequest "Only reviewed observations can be finalized"), w)
      else
        let data := [Set_status "FINALIZED"; Set_finalizedAt (Some (now env))] in
        (Value (applyData data o, "Finalized observation"),
         withObservation oid (applyData data o) w)
  | RETURN_TO_DRAFT =>
      if negb (isReviewerOrAdmin user) then (Return forbidden, w)
      else if negb (bool_decide (status o = "SUBMITTED")
                    || bool_decide (status o = "REVIEWED"))
      then (Return (badRequest "Only submitted or reviewed observations can be returned to draft"), w)
      else
        let data := [Set_status "DRAFT"; Set_reviewerId None; Set_reviewedAt None;
                     Set_reviewerComments None] in
        (Value (applyData data o, "Returned observation to draft"),
         withObservation oid (applyData data o) w)
  end.
Proof.
  intros Ho. destruct action; unfold transition;
    repeat (unfold mbind at 1, M_bind at 1;
            match goal with
            | |- context [returnIf ?c _ _] => destruct c; cbn [returnIf respond mret M_ret]
            end; [reflexivity|]);
    unfold mbind at 1, M_bind at 1; rewrite (update_found _ _ o) by exact Ho;
    reflexivity.
Qed.

Lemma NoDup_submit_errors :
  NoDup [ forbidden;
          badRequest "Only draft observations can be submitted";
          badRequest "At least one rubric item must be rated before submission" ].
Proof.
  repeat (constructor; [rewrite ?elem_of_cons, ?elem_of_nil; intuition discriminate|]).
  constructor.
Qed.

Lemma hasRatedItem_cases d oid : hasRatedItem d oid ∨ ¬ hasRatedItem d oid.
Proof.
  destruct (List.filter (λ score, bool_decide (rating score ≠ None))
                        (itemScoresOf oid d)) as [|row l] eqn:E.
  - right. apply ratedItems_zero. fold (itemScoresOf oid d). by rewrite E.
  - left. assert (List.In row (row :: l)) as Hin by (left; reflexivity).
    rewrite <- E in Hin. apply List.filter_In in Hin as [Hin Hr].
    apply List.filter_In in Hin as [Hin Hid].
    apply bool_decide_eq_true in Hr, Hid.
    exists row. split; [by apply list_elem_of_In|]. split; assumption.
Qed.

Lemma dec_stable_hasRatedItem d oid : ¬ ¬ hasRatedItem d oid → hasRatedItem d oid.
Proof. destruct (hasRatedItem_cases d oid); tauto. Qed.

Ltac close_case :=
  first
    [ apply NoDup_submit_errors
    | by (intros; exfalso; tauto)
    | by (intros; split_and?; first [reflexivity | discriminate | tauto
                                     | intros; discriminate])
    | by (intros; split; intros; first [discriminate | tauto | exfalso; tauto]) ].

(** C4: a SUBMIT request succeeds exactly when the actor is the
    observer of the observation or an admin, the status is DRAFT and
    some item score has a rating that is not null (a rating of 0
    counts).  Each failed precondition has an error of its own, leaves
    the store as it was and writes no audit entry. *)
Theorem C4_submit_gate env req w user o r w' :
  passesRateLimit env req w →
  session env = Some user →
  body_action req = Some "SUBMIT" →
  observations (db w) !! params_id req = Some o →
  PUT_status env req w = (r, w') →
  let oid := params_id req in
  let ok := isObserverOrAdmin user o ∧ status o = "DRAFT" ∧ hasRatedItem (db w) oid in
  let submitted := applyData [Set_status "SUBMITTED"] o in
  (ok →
     status submitted = "SUBMITTED" ∧
     observations (db w') = <[oid := submitted]> (observations (db w)) ∧
     observationItemScores (db w') = observationItemScores (db w) ∧
     (auditLogCreateFails env = false →
        r = json (ObservationBody submitted) 200 ∧
        auditLogs (db w')
        = (auditLogs (db w)
           ++ [transitionAudit user oid SUBMIT "Submitted observation for review"
                               o submitted])%list))
  ∧ (¬ isObserverOrAdmin user o → r = forbidden ∧ db w' = db w)
  ∧ (isObserverOrAdmin user o → status o ≠ "DRAFT" →
       r = badRequest "Only draft observations can be submitted" ∧ db w' = db w)
  ∧ (isObserverOrAdmin user o → status o = "DRAFT" → ¬ hasRatedItem (db w) oid →
       r = badRequest "At least one rubric item must be rated before submission"
       ∧ db w' = db w)
  ∧ NoDup [ forbidden;
            badRequest "Only draft observations can be submitted";
            badRequest "At least one rubric item must be rated before submission" ]
  ∧ (auditLogCreateFails env = false → (response_status r = 200 ↔ ok)).
Proof.
  intros Hrl Hs Ha Ho Hrun oid ok submitted.
  rewrite PUT_status_eq in Hrun. cbv zeta in Hrun.
  unfold passesRateLimit in Hrl. rewrite Hrl, Hs, Ha, Ho in Hrun.
  cbn [negb parseAction] in Hrun.
  rewrite (transition_eq _ _ _ _ o) in Hrun by exact Ho.
  fold oid in Hrun.
  assert (bool_decide (observerId o ≠ user_id user) && bool_decide (role user ≠ "ADMIN")
          = false ↔ isObserverOrAdmin user o) as Hactor.
  { unfold isObserverOrAdmin. rewrite andb_false_iff, !bool_decide_eq_false.
    split.
    - intros [Hx|Hx]; [left|right]; by apply dec_stable.
    - intros [Hx|Hx]; [left|right]; intros Hne; by apply Hne. }
  pose proof (ratedItems_zero (db w) oid) as Hrated.
  fold (itemScoresOf oid (db w)) in Hrated.
  subst ok.
  destruct (bool_decide (observerId o ≠ user_id user) && bool_decide (role user ≠ "ADMIN"))
    eqn:Eactor.
  { assert (¬ isObserverOrAdmin user o) as Hna
      by (intros Hx; apply Hactor in Hx; discriminate).
    injection Hrun as <- <-. split_and!; close_case. }
  assert (isObserverOrAdmin user o) as Hact by (by apply Hactor).
  destruct (bool_decide (status o ≠ "DRAFT")) eqn:Est.
  { apply bool_decide_eq_true in Est. injection Hrun as <- <-.
    split_and!; close_case. }
  apply bool_decide_eq_false in Est. apply dec_stable in Est.
  destruct (bool_decide (length _ = 0%nat)) eqn:Elen.
  { apply bool_decide_eq_true, Hrated in Elen. injection Hrun as <- <-.
    split_and!; close_case. }
  apply bool_decide_eq_false in Elen.
  rewrite Hrated in Elen. apply dec_stable_hasRatedItem in Elen.
  destruct (auditLogCreateFails env) eqn:Eaudit; injection Hrun as <- <-;
    split_and!; close_case.
Qed.

Lemma rejected_forbidden : rejected forbidden.
Proof. split; [simpl; lia | exact I]. Qed.

Lemma rejected_badRequest msg : rejected (badRequest msg).
Proof. split; [simpl; lia | exact I]. Qed.

Lemma status_route_finalized env req w o :
  observations (db w) !! params_id req = Some o →
  status o = "FINALIZED" →
  rejected (PUT_status env req w).1 ∧ db (PUT_status env req w).2 = db w.
Proof.
  intros Ho Hfin. rewrite PUT_status_eq. cbv zeta.
  destruct (success _); cbn [negb];
    [|split; [split; [simpl; lia | exact I] | reflexivity]].
  destruct (session env) as [user|];
    [|split; [split; [simpl; lia | exact I] | reflexivity]].
  destruct (parseAction _) as [action|];
    [|split; [split; [simpl; lia | exact I] | reflexivity]].
  rewrite Ho, (transition_eq _ _ _ _ o) by exact Ho. rewrite Hfin.
  rewrite !(bool_decide_eq_true_2 ("FINALIZED" ≠ _)) by discriminate.
  rewrite !(bool_decide_eq_false_2 ("FINALIZED" = _)) by discriminate.
  destruct action; cbn [orb negb];
    repeat match goal with
           | |- context [if ?c then _ else _] => destruct c
           end;
    first [ split; [apply rejected_forbidden | reflexivity]
          | split; [apply rejected_badRequest | reflexivity] ].
Qed.

Lemma bind_returnIf {B} (c : bool) (r : Response) (f : () → M B) (w : World) :
  (returnIf c r ≫= f) w = if c then (Return r, w) else f () w.
Proof. destruct c; reflexivity. Qed.

Lemma bind_findUnique {B} oid o
    (f : option (Observation * list ObservationItemScore) → M B) (w : World) :
  observations (db w) !! oid = Some o →
  (findUnique oid ≫= f) w = f (Some (o, itemScoresOf oid (db w))) w.
Proof. intros Ho. apply bind_value. by apply findUnique_found. Qed.

Lemma observation_route_finalized env oid body w o :
  observations (db w) !! oid = Some o →
  status o = "FINALIZED" →
  rejected (PUT_observation env oid body w).1
  ∧ db (PUT_observation env oid body w).2 = db w.
Proof.
  intros Ho Hfin. unfold PUT_observation, tryCatch, PUT_observation_body.
  destruct (session env) as [user|];
    [|split; [split; [simpl; lia | exact I] | reflexivity]].
  rewrite (bind_findUnique _ o) by exact Ho.
  rewrite bind_returnIf.
  destruct (bool_decide _ && bool_decide _);
    [split; [apply rejected_forbidden | reflexivity]|].
  rewrite bind_returnIf, Hfin.
  split; [apply rejected_badRequest | reflexivity].
Qed.

Lemma delete_route_finalized env oid w o :
  observations (db w) !! oid = Some o →
  status o = "FINALIZED" →
  rejected (DELETE_observation env oid w).1
  ∧ db (DELETE_observation env oid w).2 = db w.
Proof.
  intros Ho Hfin. unfold DELETE_observation, tryCatch, DELETE_observation_body.
  destruct (session env) as [user|];
    [|split; [split; [simpl; lia | exact I] | reflexivity]].
  rewrite (bind_findUnique _ o) by exact Ho.
  rewrite bind_returnIf.
  destruct (bool_decide _ && bool_decide _);
    [split; [apply rejected_forbidden | reflexivity]|].
  rewrite bind_returnIf, Hfin.
  split; [apply rejected_badRequest | reflexivity].
Qed.

(** C5: FINALIZED is terminal.  Whatever the session, the role and the
    request, a transition request, an edit and a delete aimed at an
    observation whose status is FINALIZED are answered by a rejection,
    and the store is left as it was. *)
Theorem C5_finalized_is_terminal env w oid o :
  observations (db w) !! oid = Some o →
  status o = "FINALIZED" →
  (∀ req, params_id req = oid →
     rejected (PUT_status env req w).1 ∧ db (PUT_status env req w).2 = db w)
  ∧ (∀ body,
       rejected (PUT_observation env oid body w).1
       ∧ db (PUT_observation env oid body w).2 = db w)
  ∧ (rejected (DELETE_observation env oid w).1
     ∧ db (DELETE_observation env oid w).2 = db w).
Proof.
  intros Ho Hfin. split; [|split].
  - intros req <-. by apply (status_route_finalized _ _ _ o).
  - intros body. by apply (observation_route_finalized _ _ _ _ o).
  - by apply (delete_route_finalized _ _ _ o).
Qed.

(** C6: a successful RETURN_TO_DRAFT (a reviewer or an admin, on an
    observation that is SUBMITTED or REVIEWED) sets the status to DRAFT
    and clears the reviewer id, the review timestamp and the reviewer
    comments; every other field of the observation, its item scores and
    the other observations are left as they were. *)
Theorem C6_return_to_draft_frame env req w user o r w' :
  passesRateLimit env req w →
  session env = Some user →
  role user = "REVIEWER" ∨ role user = "ADMIN" →
  body_action req = Some "RETURN_TO_DRAFT" →
  observations (db w) !! params_id req = Some o →
  status o = "SUBMITTED" ∨ status o = "REVIEWED" →
  PUT_status env req w = (r, w') →
  let returned :=
    {| id := id o; branchId := branchId o; teacherId := teacherId o;
       observerId := observerId o; reviewerId := None;
       classSection := classSection o; totalStudents := totalStudents o;
       presentStudents := presentStudents o; subject := subject o;
       topic := topic o; date := date o; time := time o;
       lessonPlanAttached := lessonPlanAttached o; strengths := strengths o;
       areasToImprove := areasToImprove o; suggestions := suggestions o;
       status := "DRAFT"; reviewedAt := None; finalizedAt := finalizedAt o;
       reviewerComments := None |} in
  observations (db w') = <[params_id req := returned]> (observations (db w))
  ∧ observationItemScores (db w') = observationItemScores (db w)
  ∧ attachments (db w') = attachments (db w)
  ∧ (auditLogCreateFails env = false → r = json (ObservationBody returned) 200).
Proof.
  intros Hrl Hs Hrole Ha Ho Hst Hrun returned.
  rewrite PUT_status_eq in Hrun. cbv zeta in Hrun.
  unfold passesRateLimit in Hrl. rewrite Hrl, Hs, Ha, Ho in Hrun.
  cbn [negb parseAction] in Hrun.
  rewrite (transition_eq _ _ _ _ o) in Hrun by exact Ho.
  assert (isReviewerOrAdmin user = true) as Hrev.
  { unfold isReviewerOrAdmin. apply orb_true_iff.
    destruct Hrole; [left|right]; by apply bool_decide_eq_true. }
  assert (bool_decide (status o = "SUBMITTED") || bool_decide (status o = "REVIEWED")
          = true) as Hstb.
  { apply orb_true_iff. destruct Hst; [left|right]; by apply bool_decide_eq_true. }
  rewrite Hrev, Hstb in Hrun. cbn [negb] in Hrun. cbv zeta in Hrun.
  change (applyData _ o) with returned in Hrun.
  destruct (auditLogCreateFails env); injection Hrun as <- <-;
    split_and!; try reflexivity; intros; discriminate.
Qed.

(** When the audit write rejects after a transition was applied, the
    status route keeps the transition and answers 500. *)
Lemma status_route_audit_failure env req w user action o updated auditAction w2 :
  passesRateLimit env req w →
  session env = Some user →
  parseAction (body_action req) = Some action →
  observations (db w) !! params_id req = Some o →
  transition env user (params_id req)
    (trim <$> Js.truthy_str (body_reviewerComments req))
    o (itemScoresOf (params_id req) (db w)) action (afterRateLimit env req w)
  = (Value (updated, auditAction), w2) →
  auditLogCreateFails env = true →
  PUT_status env req w = (internalError, w2).
Proof.
  intros Hrl Hs Ha Ho Ht Hfail. rewrite PUT_status_eq. cbv zeta.
  unfold passesRateLimit in Hrl. rewrite Hrl, Hs, Ha, Ho, Ht, Hfail. reflexivity.
Qed.

(** C9: the code when [prisma.auditLog.create] rejects.  A SUBMIT by
    the observer on a draft, an edit and a delete are each answered by
    500 "Internal server error" although the status change, the edit
    and the deletion were stored; the helper createAuditLog, at the
    same failure, answers without throwing and leaves the store as it
    was. *)
Theorem C9_audit_failure_reaches_caller :
  let env := Examples.L.env Examples.L.observer true in
  let w := Examples.L.world Examples.L.draft in
  let submit := PUT_status env (Examples.L.request "SUBMIT") w in
  let edit := PUT_observation env "obs1" Examples.L.edit w in
  let del := DELETE_observation env "obs1" w in
  (submit.1 = internalError
   ∧ status <$> observations (db submit.2) !! "obs1" = Some "SUBMITTED"
   ∧ auditLogs (db submit.2) = [])
  ∧ (edit.1 = internalError
     ∧ classSection <$> observations (db edit.2) !! "obs1" = Some "6B"
     ∧ auditLogs (db edit.2) = [])
  ∧ (del.1 = internalError
     ∧ observations (db del.2) !! "obs1" = None
     ∧ observationItemScores (db del.2) = []
     ∧ auditLogs (db del.2) = [])
  ∧ createAuditLog env Examples.L.auditEntry w = (Value false, w).
Proof. repeat split; vm_compute; reflexivity. Qed.

(** Witness of C4: the observer submits a draft whose only item score
    is rated 0. *)
Lemma C4_witness :
  response_status
    (PUT_status (Examples.L.env Examples.L.observer false)
                (Examples.L.request "SUBMIT")
                (Examples.L.world Examples.L.draft)).1 = 200.
Proof.
  set (env := Examples.L.env Examples.L.observer false).
  set (req := Examples.L.request "SUBMIT").
  set (w := Examples.L.world Examples.L.draft).
  assert (passesRateLimit env req w) as H1 by (vm_compute; reflexivity).
  assert (session env = Some Examples.L.observer) as H2 by reflexivity.
  assert (body_action req = Some "SUBMIT") as H3 by reflexivity.
  assert (observations (db w) !! params_id req = Some Examples.L.draft) as H4
    by (vm_compute; reflexivity).
  pose proof (C4_submit_gate env req w Examples.L.observer Examples.L.draft
                (PUT_status env req w).1 (PUT_status env req w).2
                H1 H2 H3 H4 (surjective_pairing _)) as H.
  apply (proj2 (proj2 (proj2 (proj2 (proj2 H))))); [reflexivity|].
  split; [left; reflexivity|]. split; [reflexivity|].
  exists {| observationId := "obs1"; rubricItemId := "i1";
            rating := Some 0; comment := None |}.
  split; [apply list_elem_of_here|]. split; [reflexivity|discriminate].
Defined.

(** Witness of C5: a reviewer asks to return a finalized observation to
    draft. *)
Lemma C5_witness :
  rejected (PUT_status (Examples.L.env Examples.L.reviewer false)
                       (Examples.L.request "RETURN_TO_DRAFT")
                       (Examples.L.world Examples.L.finalized)).1
  ∧ db (PUT_status (Examples.L.env Examples.L.reviewer false)
                   (Examples.L.request "RETURN_TO_DRAFT")
                   (Examples.L.world Examples.L.finalized)).2
    = db (Examples.L.world Examples.L.finalized).
Proof.
  assert (observations (db (Examples.L.world Examples.L.finalized)) !! "obs1"
          = Some Examples.L.finalized) as H1 by (vm_compute; reflexivity).
  assert (status Examples.L.finalized = "FINALIZED") as H2 by reflexivity.
  exact (proj1 (C5_finalized_is_terminal
                  (Examples.L.env Examples.L.reviewer false)
                  (Examples.L.world Examples.L.finalized)
                  "obs1" Examples.L.finalized H1 H2)
               (Examples.L.request "RETURN_TO_DRAFT") eq_refl).
Defined.

(** Witness of C6: a reviewer returns a reviewed observation to draft. *)
Lemma C6_witness :
  observations
    (db (PUT_status (Examples.L.env Examples.L.reviewer false)
                    (Examples.L.request "RETURN_TO_DRAFT")
                    (Examples.L.world Examples.L.reviewed)).2)
  = <["obs1" := Examples.L.draft]>
      (observations (db (Examples.L.world Examples.L.reviewed))).
Proof.
  set (env := Examples.L.env Examples.L.reviewer false).
  set (req := Examples.L.request "RETURN_TO_DRAFT").
  set (w := Examples.L.world Examples.L.reviewed).
  assert (passesRateLimit env req w) as H1 by (vm_compute; reflexivity).
  assert (session env = Some Examples.L.reviewer) as H2 by reflexivity.
  assert (role Examples.L.reviewer = "REVIEWER" ∨ role Examples.L.reviewer = "ADMIN")
    as H3 by (left; reflexivity).
  assert (body_action req = Some "RETURN_TO_DRAFT") as H4 by reflexivity.
  assert (observations (db w) !! params_id req = Some Examples.L.reviewed) as H5
    by (vm_compute; reflexivity).
  assert (status Examples.L.reviewed = "SUBMITTED"
          ∨ status Examples.L.reviewed = "REVIEWED") as H6 by (right; reflexivity).
  exact (proj1 (C6_return_to_draft_frame env req w Examples.L.reviewer
                  Examples.L.reviewed
                  (PUT_status env req w).1 (PUT_status env req w).2
                  H1 H2 H3 H4 H5 H6 (surjective_pairing _))).
Defined.

End LifecycleFacts.

(** ** Further properties of the scoring engine *)

Module ScoringExtras.
Import Scoring ScoringSpec ScoringUtils ExtraSpec ScoringFacts.

Lemma sumZ_app (l1 l2 : list Z) : sumZ (l1 ++ l2) = sumZ l1 + sumZ l2.
Proof.
  induction l1 as [|x l1 IH]; [reflexivity|].
  cbn [app]. rewrite !sumZ_cons, IH. lia.
Qed.

(** X1: calculateDomainScores reads the score map only at the ids of
    the rubric's items. *)
Theorem calculateDomainScores_reads_rubric_keys now domains scores1 scores2 :
  (∀ it, it ∈ allItems domains → scores1 !! item_id it = scores2 !! item_id it) →
  calculateDomainScores now domains scores1 = calculateDomainScores now domains scores2.
Proof.
  intros Hag. unfold calculateDomainScores. apply List.map_ext_in. intros d Hd.
  assert (List.map (domainItemScore now scores1) (items d)
          = List.map (domainItemScore now scores2) (items d)) as E.
  { apply List.map_ext_in. intros it Hit. unfold domainItemScore.
    rewrite (Hag it); [reflexivity|].
    unfold allItems. apply list_elem_of_In, List.in_concat.
    exists (items d). split; [by apply List.in_map|exact Hit]. }
  unfold domainScore. by rewrite E.
Qed.


Lemma included_concat scores domains :
  List.filter (included scores) (allItems domains)
  = concat (List.map (includedItems scores) domains).
Proof.
  unfold allItems, includedItems.
  induction domains as [|d ds IH]; [reflexivity|].
  cbn [List.map concat]. by rewrite List.filter_app, IH.
Qed.

Lemma grandTotal_sum_included now domains scores :
  calculateGrandTotal (calculateDomainScores now domains scores)
  = sumZ (List.map (λ it, default 0 (enteredRating scores it))
                   (List.filter (included scores) (allItems domains))).
Proof.
  rewrite calculateGrandTotal_sum, included_concat.
  unfold grandTotalOf, calculateDomainScores.
  induction domains as [|d ds IH]; [reflexivity|].
  cbn [List.map concat]. rewrite sumZ_cons, List.map_app, sumZ_app, IH.
  by rewrite total_domainScore.
Qed.

(** X2: the grand total of the computed domain scores is the sum of
    the ratings of all included items of the rubric. *)
Theorem grandTotal_of_domainScores now domains scores :
  calculateGrandTotal (calculateDomainScores now domains scores)
  = sumZ (List.map (λ it, default 0 (enteredRating scores it))
                   (List.filter (included scores) (allItems domains))).
Proof. apply grandTotal_sum_included. Qed.

Lemma ratedCount_domainScore now scores d :
  ratedCount (itemScores (domainScore now scores d))
  = Z.of_nat (length (includedItems scores d)).
Proof.
  unfold domainScore, includedItems. cbn [itemScores].
  induction (items d) as [|it its IH]; [reflexivity|].
  cbn [List.map List.filter ratedCount].
  unfold included at 1, enteredRating, domainItemScore at 1. cbn [rating].
  destruct (scores !! item_id it ≫= entry_rating) as [r|]; [|exact IH].
  destruct (decide (r = 0)) as [->|Hr]; [exact IH|].
  replace (Js.truthy_num (Some r)) with (Some r) by (by destruct r).
  replace (negb (r =? 0)) with true
    by (symmetry; by apply negb_true_iff, Z.eqb_neq).
  rewrite decide_False by exact Hr.
  rewrite List.length_cons, Nat2Z.inj_succ, IH. lia.
Qed.

Lemma hardcodedMax_of_domainScores now domains scores :
  hardcodedMaxOf (calculateDomainScores now domains scores)
  = 4 * Z.of_nat (length (List.filter (included scores) (allItems domains))).
Proof.
  rewrite included_concat. unfold hardcodedMaxOf, calculateDomainScores.
  induction domains as [|d ds IH]; [reflexivity|].
  cbn [List.map concat]. rewrite sumZ_cons, IH, List.length_app, Nat2Z.inj_add.
  rewrite ratedCount_domainScore. lia.
Qed.

Lemma overall_percentage_formula now scores thresholds d ds :
  overall_percentage
    (calculateOverallRating (calculateDomainScores now (d :: ds) scores) thresholds)
  = percentOf
      (sumZ (List.map (λ it, default 0 (enteredRating scores it))
                      (List.filter (included scores) (allItems (d :: ds)))))
      (4 * Z.of_nat (length (List.filter (included scores) (allItems (d :: ds))))).
Proof.
  change (calculateDomainScores now (d :: ds) scores)
    with (domainScore now scores d :: calculateDomainScores now ds scores).
  unfold calculateOverallRating. cbn [overall_percentage].
  change (domainScore now scores d :: calculateDomainScores now ds scores)
    with (calculateDomainScores now (d :: ds) scores).
  rewrite roundedPercentage_spec, hardcodedMax_of_domainScores.
  rewrite <- calculateGrandTotal_sum, grandTotal_sum_included.
  unfold percentOf.
  destruct (decide (4 * _ = 0)) as [E|E]; destruct (decide (0 < 4 * _));
    try lia; reflexivity.
Qed.

Lemma overall_percentage64_formula now scores thresholds d ds :
  Scoring64.overall_percentage
    (Scoring64.calculateOverallRating (calculateDomainScores now (d :: ds) scores)
                                      thresholds)
  = Binary64.percentage
      (sumZ (List.map (λ it, default 0 (enteredRating scores it))
                      (List.filter (included scores) (allItems (d :: ds)))))
      (4 * Z.of_nat (length (List.filter (included scores) (allItems (d :: ds))))).
Proof.
  change (calculateDomainScores now (d :: ds) scores)
    with (domainScore now scores d :: calculateDomainScores now ds scores).
  cbn [Scoring64.calculateOverallRating Scoring64.overall_percentage].
  change (domainScore now scores d :: calculateDomainScores now ds scores)
    with (calculateDomainScores now (d :: ds) scores).
  rewrite roundedPercentage64_spec, hardcodedMax_of_domainScores.
  by rewrite <- calculateGrandTotal_sum, grandTotal_sum_included.
Qed.

Lemma domainPercentage64_formula now scores d :
  Scoring64.domainPercentage now scores d
  = Binary64.percentage (sumIncludedRatings scores d) (firstItemDenominator scores d).
Proof.
  rewrite <- (total_domainScore now), <- (maxPossibleScore_domain now). reflexivity.
Qed.

(** X3: on the domain scores calculateDomainScores computes, the
    overall percentage, as the code computes it on doubles, is the
    percentage of the sum of the included ratings out of 4 times the
    number of included items: the double of k / 100 for an integer k
    nearest to 10000 times their quotient (for sums up to 10^10).  For
    a rubric of one domain whose first item has maxScore 4 it is the
    percentage of that domain. *)
Theorem overall_of_domainScores now scores thresholds :
  (∀ d ds,
     let ratings :=
       sumZ (List.map (λ it, default 0 (enteredRating scores it))
                      (List.filter (included scores) (allItems (d :: ds)))) in
     let count :=
       Z.of_nat (length (List.filter (included scores) (allItems (d :: ds)))) in
     let percentage :=
       Scoring64.overall_percentage
         (Scoring64.calculateOverallRating
            (calculateDomainScores now (d :: ds) scores) thresholds) in
     percentage = Binary64.percentage ratings (4 * count)
     ∧ (0 < count → 4 * count < 2 ^ 53 → 0 ≤ ratings ≤ 10 ^ 10 →
        ∃ k, percentage = Binary64.ofQ (k # 100)
             ∧ Scoring64.nearestHundredths ratings (4 * count) k))
  ∧ (∀ d first rest,
       items d = first :: rest → maxScore first = 4 →
       Scoring64.overall_percentage
         (Scoring64.calculateOverallRating (calculateDomainScores now [d] scores)
                                           thresholds)
       = Scoring64.domainPercentage now scores d).
Proof.
  split.
  - intros d ds. cbv zeta. rewrite overall_percentage64_formula.
    split; [reflexivity|]. intros Hn Hmax HT.
    apply Binary64Facts.percentage_nearest; lia.
  - intros d first rest Hitems Hmax.
    rewrite overall_percentage64_formula, domainPercentage64_formula.
    unfold allItems. cbn [List.map concat]. rewrite List.app_nil_r.
    assert (firstItemDenominator scores d
            = 4 * Z.of_nat (length (includedItems scores d))) as ->; [|reflexivity].
    unfold firstItemDenominator. rewrite Hitems.
    change (maxScore (default _ (head (first :: rest)))) with (maxScore first).
    rewrite Hmax. lia.
Qed.

Lemma round2_bounds (x : Q) : (0 <= x)%Q → (x <= 100)%Q →
  (0 <= Js.round2 x)%Q ∧ (Js.round2 x <= 100)%Q.
Proof.
  intros H0 H100. unfold Js.round2, Js.round.
  assert (0 ≤ Qfloor (x * 100 + (1 # 2)) ≤ 10000) as [Hlo Hhi].
  { split.
    - change 0 with (Qfloor 0). apply Qfloor_resp_le. lra.
    - change 10000 with (Qfloor (10000 + (1 # 2))). apply Qfloor_resp_le. lra. }
  generalize dependent (Qfloor (x * 100 + (1 # 2))). intros k Hlo Hhi.
  unfold Qle, Qdiv, Qmult, Qinv, inject_Z. simpl. lia.
Qed.

Lemma percentOf_bounds (num den : Z) : 0 ≤ num ≤ den →
  (0 <= percentOf num den)%Q ∧ (percentOf num den <= 100)%Q.
Proof.
  intros [Hlo Hhi]. unfold percentOf. destruct (decide (0 < den)) as [Hd|Hd].
  - assert (0 < inject_Z den)%Q by (unfold Qlt; simpl; lia).
    assert (0 <= inject_Z num)%Q by (unfold Qle; simpl; lia).
    assert (inject_Z num <= inject_Z den)%Q by (unfold Qle; simpl; lia).
    apply round2_bounds.
    + apply Qle_shift_div_l; [assumption|]. lra.
    + apply Qle_shift_div_r; [assumption|]. lra.
  - apply round2_bounds; lra.
Qed.

Lemma sumZ_bounds {A} (f : A → Z) (m : Z) (l : list A) :
  (∀ x, List.In x l → 0 ≤ f x ≤ m) →
  0 ≤ sumZ (List.map f l) ≤ m * Z.of_nat (length l).
Proof.
  induction l as [|x l IH]; intros Hall; [simpl; lia|].
  cbn [List.map]. rewrite sumZ_cons, List.length_cons, Nat2Z.inj_succ.
  pose proof (Hall x (or_introl eq_refl)).
  assert (0 ≤ sumZ (List.map f l) ≤ m * Z.of_nat (length l))
    by (apply IH; intros y Hy; apply Hall; by right).
  lia.
Qed.

(** X4: when every entered rating of a domain lies between 0 and the
    maxScore of the domain's first item, the domain percentage lies
    between 0 and 100. *)
Theorem domain_percentage_bounds now scores d first rest :
  items d = first :: rest →
  (∀ it r, it ∈ items d → enteredRating scores it = Some r → 0 ≤ r ≤ maxScore first) →
  (0 <= percentage (domainScore now scores d))%Q
  ∧ (percentage (domainScore now scores d) <= 100)%Q.
Proof.
  intros Hitems Hr. rewrite percentage_domainScore. apply percentOf_bounds.
  assert (firstItemDenominator scores d
          = maxScore first * Z.of_nat (length (includedItems scores d))) as ->.
  { unfold firstItemDenominator. rewrite Hitems.
    change (maxScore (default _ (head (first :: rest)))) with (maxScore first). lia. }
  unfold sumIncludedRatings. apply sumZ_bounds.
  intros it Hin. unfold includedItems in Hin. apply List.filter_In in Hin as [Hin Hinc].
  unfold included in Hinc.
  destruct (enteredRating scores it) as [r|] eqn:E; [|discriminate].
  apply (Hr it r); [by apply list_elem_of_In|exact E].
Qed.

(** X5: when every entered rating of the rubric lies between 0 and 4,
    the overall percentage computed from calculateDomainScores lies
    between 0 and 100. *)
Theorem overall_percentage_bounds now scores thresholds d ds :
  (∀ it r, it ∈ allItems (d :: ds) → enteredRating scores it = Some r → 0 ≤ r ≤ 4) →
  let p := overall_percentage
             (calculateOverallRating (calculateDomainScores now (d :: ds) scores)
                                     thresholds) in
  (0 <= p)%Q ∧ (p <= 100)%Q.
Proof.
  intros Hr p. subst p.
  rewrite overall_percentage_formula.
  apply percentOf_bounds. apply sumZ_bounds.
  intros it Hin. apply List.filter_In in Hin as [Hin Hinc].
  unfold included in Hinc.
  destruct (enteredRating scores it) as [r|] eqn:E; [|discriminate].
  apply (Hr it r); [by apply list_elem_of_In|exact E].
Qed.


Lemma Qle_bool_false (x y : Q) : Qle_bool x y = false ↔ (y < x)%Q.
Proof.
  rewrite <- not_true_iff_false, Qle_bool_iff. split; [apply Qnot_le_lt|apply Qlt_not_le].
Qed.

Lemma default_table_find (p : Q) :
  match List.find (inBand p) DEFAULT_OVERALL_RATING_THRESHOLDS with
  | Some t =>
      (threshold_rating t = "Excellent" ∧ threshold_color t = "success"
       ∧ 90 <= p ∧ p <= 100
       ∨ threshold_rating t = "Good" ∧ threshold_color t = "primary"
         ∧ 75 <= p ∧ p <= 89
       ∨ threshold_rating t = "Average" ∧ threshold_color t = "warning"
         ∧ 60 <= p ∧ p <= 74
       ∨ threshold_rating t = "Weak" ∧ threshold_color t = "warning"
         ∧ 50 <= p ∧ p <= 59
       ∨ threshold_rating t = "Very Poor" ∧ threshold_color t = "danger"
         ∧ 0 <= p ∧ p <= 49)%Q
  | None => ¬ inSomeDefaultBand p
  end.
Proof.
  unfold DEFAULT_OVERALL_RATING_THRESHOLDS, inSomeDefaultBand, inBand.
  cbn [List.find minPercentage maxPercentage].
  repeat match goal with
         | |- context [Qle_bool ?a ?b] =>
             let E := fresh "E" in
             destruct (Qle_bool a b) eqn:E;
             [apply Qle_bool_iff in E | apply Qle_bool_false in E];
             cbn [andb]
         end;
    cbn [threshold_rating threshold_color];
    first [ lra | intuition lra ].
Qed.

(** X6: with the default table, a non-empty list of domain scores is
    rated by the band its rounded percentage lies in, and "Unknown" with
    colour "gray" exactly when the percentage lies in no band: below 0,
    above 100, or strictly between 49 and 50, 59 and 60, 74 and 75, 89
    and 90. *)
Theorem default_table_rating d ds :
  let r := calculateOverallRating (d :: ds) DEFAULT_OVERALL_RATING_THRESHOLDS in
  let p := overall_percentage r in
  (overall_rating r = "Unknown" ↔ ¬ inSomeDefaultBand p)
  ∧ (overall_color r = "gray" ↔ ¬ inSomeDefaultBand p)
  ∧ ((90 <= p ∧ p <= 100)%Q → overall_rating r = "Excellent")
  ∧ ((75 <= p ∧ p <= 89)%Q → overall_rating r = "Good")
  ∧ ((60 <= p ∧ p <= 74)%Q → overall_rating r = "Average")
  ∧ ((50 <= p ∧ p <= 59)%Q → overall_rating r = "Weak")
  ∧ ((0 <= p ∧ p <= 49)%Q → overall_rating r = "Very Poor").
Proof.
  intros r p. subst r p. unfold calculateOverallRating.
  cbn [overall_rating overall_color overall_percentage].
  pose proof (default_table_find (roundedPercentage (d :: ds))) as H.
  unfold inSomeDefaultBand in *.
  destruct (List.find _ _) as [t|].
  - destruct H as [H|[H|[H|[H|H]]]]; destruct H as (-> & -> & H1 & H2);
      cbn [Js.str_or String.eqb Ascii.eqb Bool.eqb];
      split_and!; try (split; [discriminate|]); intros; first [reflexivity | lra | exfalso; lra | tauto].
  - split_and!; try (split; [intros _; exact H|reflexivity]); intros; exfalso; tauto.
Qed.

End ScoringExtras.

(** ** Properties of the export route's scoring *)

Module ExportExtras.
Import ExtraSpec ScoringSpec ExportRoute.

Lemma truthy_default (r : option Z) : default 0 (Js.truthy_num r) = default 0 r.
Proof. by destruct r as [[| |]|]. Qed.

Lemma sumZ_snoc (l : list Z) (x : Z) : sumZ (l ++ [x]) = sumZ l + x.
Proof.
  induction l as [|y l IH]; [unfold sumZ; simpl; lia|].
  cbn [app]. change (sumZ (y :: l ++ [x])) with (y + sumZ (l ++ [x])).
  change (sumZ (y :: l)) with (y + sumZ l). lia.
Qed.

Lemma rowsOf_snoc did done s :
  rowsOf did (done ++ [s])
  = (rowsOf did done ++ (if bool_decide (domain_id s = did) then [s] else []))%list.
Proof. unfold rowsOf. rewrite List.filter_app. reflexivity. Qed.

Lemma groupOf_other done s d :
  groupOf done d → domainId d ≠ domain_id s → groupOf (done ++ [s]) d.
Proof.
  intros (Hrows & Hne & Ht & Hm) Hid. unfold groupOf.
  rewrite rowsOf_snoc, bool_decide_eq_false_2 by (by intros ?).
  rewrite List.app_nil_r. by split_and!.
Qed.

Lemma groupOf_accumulate done s d :
  groupOf done d → domainId d = domain_id s →
  groupOf (done ++ [s]) (accumulate s d).
Proof.
  intros (Hrows & Hne & Ht & Hm) Hid. unfold groupOf, accumulate.
  cbn [itemScores domainId total maxPossible].
  rewrite rowsOf_snoc, bool_decide_eq_true_2 by (by symmetry).
  rewrite <- Hrows, truthy_default, !List.map_app.
  cbn [List.map]. rewrite !sumZ_snoc, Ht, Hm.
  split_and!; try reflexivity. by destruct (itemScores d).
Qed.

Lemma groupOf_new done s :
  rowsOf (domain_id s) done = [] →
  groupOf (done ++ [s]) (accumulate s (emptyDomain s)).
Proof.
  intros Hnew. unfold groupOf, accumulate, emptyDomain.
  cbn [itemScores domainId total maxPossible].
  rewrite rowsOf_snoc, bool_decide_eq_true_2 by reflexivity.
  rewrite Hnew, truthy_default. cbn [app List.map]. unfold sumZ. cbn [foldr].
  split_and!; [reflexivity|discriminate|unfold ratingOrZero; lia|lia].
Qed.

Lemma addScore_ids s m :
  List.map domainId (addScore s m)
  = if bool_decide (domain_id s ∈ List.map domainId m)
    then List.map domainId m
    else (List.map domainId m ++ [domain_id s])%list.
Proof.
  induction m as [|d m IH].
  - cbn. rewrite bool_decide_eq_false_2; [reflexivity|]. apply not_elem_of_nil.
  - cbn [addScore List.map]. destruct (bool_decide (domainId d = domain_id s)) eqn:E.
    + apply bool_decide_eq_true in E. cbn [List.map accumulate domainId].
      rewrite bool_decide_eq_true_2; [reflexivity|]. rewrite E. apply list_elem_of_here.
    + apply bool_decide_eq_false in E. cbn [List.map]. rewrite IH.
      destruct (bool_decide (domain_id s ∈ List.map domainId m)) eqn:E2.
      * apply bool_decide_eq_true in E2.
        rewrite bool_decide_eq_true_2; [reflexivity|]. by apply list_elem_of_further.
      * apply bool_decide_eq_false in E2.
        rewrite bool_decide_eq_false_2; [reflexivity|].
        rewrite elem_of_cons. intros [Hx|Hx]; [by apply E|by apply E2].
Qed.

Lemma grouped_addScore done s m :
  grouped done m → grouped (done ++ [s]) (addScore s m).
Proof.
  intros (Hnd & Hcov & Hall). split; [|split].
  - rewrite addScore_ids. case_bool_decide as Hin; [exact Hnd|].
    apply NoDup_app. split; [exact Hnd|]. split.
    + intros x Hx Hx'. apply list_elem_of_singleton in Hx'. by subst.
    + apply NoDup_singleton.
  - intros x Hx. rewrite addScore_ids. apply elem_of_app in Hx as [Hx|Hx].
    + apply Hcov in Hx. case_bool_decide; [exact Hx|]. apply elem_of_app. by left.
    + apply list_elem_of_singleton in Hx as ->.
      case_bool_decide as Hin; [exact Hin|]. apply elem_of_app. right.
      apply list_elem_of_here.
  - assert (domain_id s ∉ List.map domainId m → rowsOf (domain_id s) done = []) as Hnew.
    { intros Hnot. unfold rowsOf.
      destruct (List.filter _ done) as [|x l] eqn:E; [reflexivity|].
      assert (List.In x (x :: l)) as Hin by (left; reflexivity).
      rewrite <- E in Hin. apply List.filter_In in Hin as [Hin Hid].
      apply bool_decide_eq_true in Hid. exfalso. apply Hnot. rewrite <- Hid.
      apply Hcov. by apply list_elem_of_In. }
    clear Hcov. induction Hall as [|d m Hd Hall IH].
    + cbn [addScore]. constructor; [|constructor].
      apply groupOf_new, Hnew, not_elem_of_nil.
    + cbn [addScore]. cbn [List.map] in Hnd, Hnew.
      apply NoDup_cons in Hnd as [Hd_notin Hnd].
      destruct (bool_decide (domainId d = domain_id s)) eqn:E.
      * apply bool_decide_eq_true in E. constructor.
        -- by apply groupOf_accumulate.
        -- rewrite Forall_forall in Hall. apply Forall_forall. intros d' Hd'.
           apply groupOf_other; [by apply Hall|].
           intros Heq. apply Hd_notin. rewrite E, <- Heq.
           apply list_elem_of_In, List.in_map, list_elem_of_In, Hd'.
      * apply bool_decide_eq_false in E. constructor.
        -- by apply groupOf_other.
        -- apply IH; [exact Hnd|]. intros Hnot. apply Hnew.
           rewrite elem_of_cons. intros [Hx|Hx]; [by apply E|by apply Hnot].
Qed.

Lemma grouped_fold rows done m :
  grouped done m →
  grouped (done ++ rows) (fold_left (λ m score, addScore score m) rows m).
Proof.
  revert done m. induction rows as [|s rows IH]; intros done m Hg.
  - by rewrite List.app_nil_r.
  - cbn [fold_left]. replace (done ++ s :: rows)%list with ((done ++ [s]) ++ rows)%list
      by (by rewrite <- List.app_assoc).
    apply IH. by apply grouped_addScore.
Qed.

(** X7: the export route groups the item scores by domain: every domain
    appears once, holds exactly the rows of that domain in their order
    (at least one), and has for total the sum of their ratings, an
    unrated row counting 0, and for maxPossible the sum of their
    maxScore, unrated rows included. *)
Theorem export_groups_by_domain (rows : list ItemScore) :
  let ds := ExportRoute.calculateDomainScores rows in
  NoDup (List.map domainId ds)
  ∧ (∀ s, s ∈ rows → domain_id s ∈ List.map domainId ds)
  ∧ Forall (groupOf rows) ds.
Proof.
  intros ds. subst ds. unfold ExportRoute.calculateDomainScores.
  assert (grouped [] []) as Hg0.
  { split; [constructor|]. split; [|constructor]. intros s Hs. by apply elem_of_nil in Hs. }
  destruct (grouped_fold rows [] [] Hg0) as (Hnd & Hcov & Hall).
  cbn [app] in *. rewrite List.map_map. cbn [domainId].
  split; [exact Hnd|]. split; [exact Hcov|].
  apply Forall_forall. intros d Hd.
  apply list_elem_of_In, List.in_map_iff in Hd as (d0 & <- & Hd0).
  rewrite Forall_forall in Hall. apply list_elem_of_In, Hall in Hd0.
  exact Hd0.
Qed.


Lemma addScore_sums s m :
  sumZ (List.map total (addScore s m)) = sumZ (List.map total m) + ratingOrZero s
  ∧ sumZ (List.map maxPossible (addScore s m))
    = sumZ (List.map maxPossible m) + maxScore s.
Proof.
  induction m as [|d m [IHt IHm]].
  - cbn [addScore List.map accumulate emptyDomain total maxPossible].
    rewrite truthy_default. unfold sumZ, ratingOrZero. cbn [foldr]. lia.
  - cbn [addScore]. destruct (bool_decide _); cbn [List.map accumulate total maxPossible].
    + rewrite truthy_default.
      change (sumZ (?x :: ?l)) with (x + sumZ l). unfold ratingOrZero. lia.
    + change (sumZ (?x :: ?l)) with (x + sumZ l). lia.
Qed.

Lemma fold_addScore_sums rows m :
  let m' := fold_left (λ m score, addScore score m) rows m in
  sumZ (List.map total m') = sumZ (List.map total m) + sumZ (List.map ratingOrZero rows)
  ∧ sumZ (List.map maxPossible m')
    = sumZ (List.map maxPossible m) + sumZ (List.map maxScore rows).
Proof.
  revert m. induction rows as [|s rows IH]; intros m.
  - cbn [fold_left List.map]. cbv zeta. change (sumZ []) with 0. lia.
  - cbn [fold_left List.map]. destruct (IH (addScore s m)) as [Ht Hm].
    destruct (addScore_sums s m) as [Ht' Hm']. cbv zeta.
    change (sumZ (?x :: ?l)) with (x + sumZ l). lia.
Qed.

Lemma export_sums rows :
  sumZ (List.map total (ExportRoute.calculateDomainScores rows))
  = sumZ (List.map ratingOrZero rows)
  ∧ sumZ (List.map maxPossible (ExportRoute.calculateDomainScores rows))
    = sumZ (List.map maxScore rows).
Proof.
  unfold ExportRoute.calculateDomainScores. rewrite !List.map_map.
  destruct (fold_addScore_sums rows []) as [Ht Hm]. cbv zeta in Ht, Hm.
  cbn [List.map] in Ht, Hm. change (sumZ []) with 0 in Ht, Hm.
  split.
  - rewrite <- (Z.add_0_l (sumZ (List.map ratingOrZero rows))), <- Ht.
    f_equal.
  - rewrite <- (Z.add_0_l (sumZ (List.map maxScore rows))), <- Hm.
    f_equal.
Qed.

Lemma fold_left_sumZ {A} (f : A → Z) (l : list A) :
  fold_left (λ sum x, sum + f x) l 0 = sumZ (List.map f l).
Proof.
  assert (∀ a, fold_left (λ sum x, sum + f x) l a = a + sumZ (List.map f l)) as H.
  { induction l as [|x l IH]; intros a; cbn [fold_left List.map].
    - unfold sumZ. cbn. lia.
    - rewrite IH. change (sumZ (?x :: ?l)) with (x + sumZ l). lia. }
  rewrite H. lia.
Qed.

Lemma export_rating_cases (domainScores : list DomainScore) :
  let r := ExportRoute.calculateOverallRating domainScores in
  let p := overall_percentage r in
  (overall_rating r = "Excellent" ∧ overall_color r = "success" ∧ 90 <= p
   ∨ overall_rating r = "Good" ∧ overall_color r = "primary" ∧ 75 <= p ∧ p < 90
   ∨ overall_rating r = "Average" ∧ overall_color r = "warning" ∧ 60 <= p ∧ p < 75
   ∨ overall_rating r = "Weak" ∧ overall_color r = "warning" ∧ 50 <= p ∧ p < 60
   ∨ overall_rating r = "Very Poor" ∧ overall_color r = "danger" ∧ p < 50)%Q.
Proof.
  unfold ExportRoute.calculateOverallRating.
  set (p := if 0 <? _ then _ else _). clearbody p.
  repeat match goal with
         | |- context [Qle_bool ?a p] =>
             let E := fresh "E" in
             destruct (Qle_bool a p) eqn:E;
             [apply Qle_bool_iff in E | apply ScoringExtras.Qle_bool_false in E]
         end;
    cbn [overall_rating overall_color overall_percentage]; intuition lra.
Qed.

(** X8: the export route's overall percentage is 100 times the sum of
    the ratings over the sum of the maxScore of all rows, unrated rows
    included, and 0 when that sum is not positive; its rating is always
    one of the five labels, "Very Poor" for an observation without item
    scores. *)
Theorem export_overall (rows : list ItemScore) :
  let r := ExportRoute.calculateOverallRating (ExportRoute.calculateDomainScores rows) in
  let T := sumZ (List.map ratingOrZero rows) in
  let M := sumZ (List.map maxScore rows) in
  overall_percentage r
  = (if 0 <? M then (inject_Z T / inject_Z M * 100)%Q else 0%Q)
  ∧ overall_rating r ∈ ["Excellent"; "Good"; "Average"; "Weak"; "Very Poor"]
  ∧ overall_rating
      (ExportRoute.calculateOverallRating (ExportRoute.calculateDomainScores []))
    = "Very Poor".
Proof.
  intros r T M. split; [|split].
  - subst r. unfold ExportRoute.calculateOverallRating.
    rewrite !fold_left_sumZ.
    destruct (export_sums rows) as [-> ->]. fold T M.
    set (p := if 0 <? M then _ else _).
    repeat match goal with
           | |- context [Qle_bool ?a p] => destruct (Qle_bool a p)
           end; reflexivity.
  - destruct (export_rating_cases (ExportRoute.calculateDomainScores rows))
      as [H|[H|[H|[H|H]]]]; destruct H as (Hr & _); fold r in Hr; rewrite Hr;
      set_solver.
  - reflexivity.
Qed.

(** X9: whenever the export route and calculateOverallRating with the
    default table reach the same percentage and that percentage lies in
    a band of the table, they give the same rating and the same colour. *)
Theorem export_agrees_with_default_table (exported : list DomainScore)
    (d : Scoring.DomainScore) (ds : list Scoring.DomainScore) :
  let e := ExportRoute.calculateOverallRating exported in
  let r := Scoring.calculateOverallRating (d :: ds)
             Scoring.DEFAULT_OVERALL_RATING_THRESHOLDS in
  (overall_percentage e == Scoring.overall_percentage r)%Q →
  inSomeDefaultBand (Scoring.overall_percentage r) →
  overall_rating e = Scoring.overall_rating r
  ∧ overall_color e = Scoring.overall_color r.
Proof.
  intros e r Heq Hband.
  pose proof (export_rating_cases exported) as He. cbv zeta in He. fold e in He.
  subst r. unfold Scoring.calculateOverallRating in *.
  cbn [Scoring.overall_rating Scoring.overall_color Scoring.overall_percentage] in *.
  pose proof (ScoringExtras.default_table_find (Scoring.roundedPercentage (d :: ds))) as Ht.
  unfold inSomeDefaultBand in Hband.
  destruct (List.find _ _) as [t|]; [|contradiction].
  destruct Ht as [Ht|[Ht|[Ht|[Ht|Ht]]]]; destruct Ht as (-> & -> & H1 & H2);
    destruct He as [He|[He|[He|[He|He]]]]; destruct He as (-> & -> & He);
    first [ split; reflexivity | exfalso; lra ].
Qed.

End ExportExtras.

(** ** Labels, progress and the form's updates *)

Module FormExtras.
Import Scoring ScoringSpec ScoringUtils ObservationForm ExtraSpec ScoringFacts.

(** X10: getRatingLabel gives every score from 0 to 5 the label
    RATING_LABELS gives it, and "Unknown" exactly for the other scores;
    getRatingColor is "gray" exactly outside 1..5. *)
Theorem rating_labels_agree (score : Z) :
  getRatingLabel score = default "Unknown" (RATING_LABELS !! score)
  ∧ (getRatingLabel score = "Unknown" ↔ ¬ (0 ≤ score ≤ 5))
  ∧ (getRatingColor score = "gray" ↔ ¬ (1 ≤ score ≤ 5)).
Proof.
  destruct (decide (0 ≤ score ≤ 5)) as [Hin|Hout].
  - assert (score = 0 ∨ score = 1 ∨ score = 2 ∨ score = 3 ∨ score = 4 ∨ score = 5)
      as [->|[->|[->|[->|[->| ->]]]]] by lia;
      (split; [vm_compute; reflexivity|]);
      (split; (split; [intros H; vm_compute in H; first [discriminate | lia]
                      | intros H; first [lia | reflexivity]])).
  - assert (∀ (l : list (Z * string)),
              Forall (λ kv, 0 ≤ kv.1 ≤ 5) l → (list_to_map l : gmap Z string) !! score = None)
      as Hnone.
    { intros l Hl. apply not_elem_of_list_to_map_1. intros Hs.
      apply list_elem_of_fmap in Hs as ([k v] & -> & Hkv).
      rewrite Forall_forall in Hl. apply Hl in Hkv. simpl in *. lia. }
    unfold getRatingLabel, getRatingColor, RATING_LABELS.
    rewrite !Hnone by (repeat constructor; simpl; lia).
    split; [reflexivity|]. split; (split; [intros _|reflexivity]); lia.
Qed.

Lemma totalItems_length domains :
  totalItems domains = Z.of_nat (length (allItems domains)).
Proof.
  unfold totalItems, allItems.
  rewrite (fold_left_sum (λ d, Z.of_nat (length (items d)))), Z.add_0_l.
  induction domains as [|d ds IH]; [reflexivity|].
  cbn [List.map concat]. rewrite sumZ_cons, IH, List.length_app. lia.
Qed.

Lemma size_list_to_set_le (l : list string) :
  (size (list_to_set l : gset string) ≤ length l)%nat.
Proof.
  induction l as [|x l IH]; [by rewrite list_to_set_nil, size_empty|].
  rewrite list_to_set_cons, size_union_alt, size_singleton. cbn [length].
  assert (size (list_to_set l ∖ {[x]} : gset string) ≤ size (list_to_set l : gset string))%nat
    by (apply subseteq_size, subseteq_difference_l; reflexivity).
  lia.
Qed.

Lemma scoredItems_le_size (scores : gmap string ScoreEntry) :
  0 ≤ scoredItems scores ≤ Z.of_nat (size scores).
Proof.
  unfold scoredItems. rewrite <- length_map_to_list.
  pose proof (List.filter_length_le (λ kv : string * ScoreEntry, isRated (entry_rating kv.2))
                                    (map_to_list scores)).
  lia.
Qed.

Lemma round_percent_bounds (n m : Z) : 0 ≤ n ≤ m → 0 < m →
  0 ≤ Js.round (inject_Z n / inject_Z m * 100) ≤ 100.
Proof.
  intros Hn Hm. unfold Js.round.
  assert (0 < inject_Z m)%Q by (unfold Qlt; simpl; lia).
  assert (0 <= inject_Z n)%Q by (unfold Qle; simpl; lia).
  assert (inject_Z n <= inject_Z m)%Q by (unfold Qle; simpl; lia).
  assert (0 <= inject_Z n / inject_Z m)%Q by (apply Qle_shift_div_l; [assumption|lra]).
  assert (inject_Z n / inject_Z m <= 1)%Q by (apply Qle_shift_div_r; [assumption|lra]).
  split.
  - apply (Z.le_trans _ (Qfloor 0)); [done|]. apply Qfloor_resp_le. lra.
  - apply (Z.le_trans _ (Qfloor (100 + (1 # 2)))); [|done].
    apply Qfloor_resp_le. lra.
Qed.

(** X11: calculateProgressPercentage is 0 for a rubric without items
    and never negative; when every key of the score map is the id of an
    item of the rubric it is at most 100. *)
Theorem progress_bounds domains (scores : gmap string ScoreEntry) :
  (allItems domains = [] → calculateProgressPercentage domains scores = 0)
  ∧ 0 ≤ calculateProgressPercentage domains scores
  ∧ ((∀ k, is_Some (scores !! k) → ∃ it, it ∈ allItems domains ∧ item_id it = k) →
     calculateProgressPercentage domains scores ≤ 100).
Proof.
  unfold calculateProgressPercentage. rewrite totalItems_length.
  pose proof (scoredItems_le_size scores) as [Hs0 Hs].
  split; [|split].
  - intros ->. reflexivity.
  - destruct (Z.eqb_spec (Z.of_nat (length (allItems domains))) 0); [lia|].
    unfold Js.round. apply (Z.le_trans _ (Qfloor 0)); [done|]. apply Qfloor_resp_le.
    assert (0 < inject_Z (Z.of_nat (length (allItems domains))))%Q
      by (unfold Qlt; simpl; lia).
    assert (0 <= inject_Z (scoredItems scores))%Q by (unfold Qle; simpl; lia).
    assert (0 <= inject_Z (scoredItems scores)
                 / inject_Z (Z.of_nat (length (allItems domains))))%Q
      by (apply Qle_shift_div_l; [assumption|lra]).
    lra.
  - intros Hkeys.
    destruct (Z.eqb_spec (Z.of_nat (length (allItems domains))) 0); [lia|].
    apply round_percent_bounds; [|lia]. split; [lia|].
    assert (size scores ≤ length (allItems domains))%nat; [|lia].
    rewrite <- (size_dom (D := gset string)).
    etransitivity; [|etransitivity; [apply (size_list_to_set_le (List.map item_id (allItems domains)))|]].
    + apply subseteq_size. intros k Hk. apply elem_of_dom in Hk.
      destruct (Hkeys k Hk) as (it & Hit & <-).
      apply elem_of_list_to_set, list_elem_of_In, List.in_map, list_elem_of_In, Hit.
    + by rewrite List.length_map.
Qed.


Lemma scoredItems_pos_hasScores (scores : gmap string ScoreEntry) :
  0 < scoredItems scores → hasScores scores = true.
Proof.
  unfold scoredItems, hasScores. intros Hpos.
  destruct (List.filter _ (map_to_list scores)) as [|kv l] eqn:E; [simpl in Hpos; lia|].
  assert (List.In kv (kv :: l)) as Hin by (left; reflexivity).
  rewrite <- E in Hin. apply List.filter_In in Hin as [Hin Hr].
  apply List.existsb_exists. by exists kv.
Qed.

(** X12: when calculateProgressPercentage is positive,
    validateObservationData does not report that no rubric item is
    scored. *)
Theorem progress_implies_scored domains data :
  0 < calculateProgressPercentage domains (data_itemScores data) →
  "At least one rubric item must be scored" ∉ errors (validateObservationData data).
Proof.
  intros Hpos.
  assert (hasScores (data_itemScores data) = true) as Hs.
  { apply scoredItems_pos_hasScores. unfold calculateProgressPercentage in Hpos.
    destruct (totalItems domains =? 0); [lia|].
    destruct (decide (0 < scoredItems (data_itemScores data))) as [|Hz]; [assumption|].
    exfalso. pose proof (scoredItems_le_size (data_itemScores data)).
    assert (scoredItems (data_itemScores data) = 0) as E by lia.
    rewrite E in Hpos. unfold Js.round in Hpos.
    assert (Qfloor (inject_Z 0 / inject_Z (totalItems domains) * 100 + (1 # 2)) = 0)
      as E0; [|lia].
    assert (inject_Z 0 / inject_Z (totalItems domains) * 100 + (1 # 2) == 1 # 2)%Q as ->
      by (unfold Qdiv; change (inject_Z 0) with 0%Q; ring).
    reflexivity. }
  unfold validateObservationData. cbn [errors]. rewrite Hs. cbn [negb pushIf].
  unfold pushIf.
  destruct (_ <=? _), (_ <? _), (_ >? _); cbn [app];
    rewrite ?elem_of_cons, ?elem_of_nil; intuition discriminate.
Qed.

Lemma overall_depends_on_outline (ds1 ds2 : list DomainScore) thresholds :
  List.map outline ds1 = List.map outline ds2 →
  calculateOverallRating ds1 thresholds = calculateOverallRating ds2 thresholds.
Proof.
  intros Ho.
  assert (grandTotalOf ds1 = grandTotalOf ds2 ∧ hardcodedMaxOf ds1 = hardcodedMaxOf ds2)
    as [Hg Hh].
  { unfold grandTotalOf, hardcodedMaxOf.
    revert ds2 Ho. induction ds1 as [|d1 ds1 IH]; intros [|d2 ds2] Ho;
      try discriminate; [done|].
    assert (outline d1 = outline d2 ∧ List.map outline ds1 = List.map outline ds2)
      as [Hd Ho'] by (cbn [List.map] in Ho; split; congruence).
    destruct (IH _ Ho') as [IH1 IH2]. cbn [List.map].
    rewrite !sumZ_cons, IH1, IH2.
    assert (total d1 = total d2
            ∧ List.map (λ s, (rubricItemId s, rating s)) (itemScores d1)
              = List.map (λ s, (rubricItemId s, rating s)) (itemScores d2))
      as [Ht Hr] by (unfold outline in Hd; split; congruence).
    rewrite Ht.
    assert (ratedCount (itemScores d1) = ratedCount (itemScores d2)) as ->; [|done].
    clear -Hr. revert Hr. generalize (itemScores d1) (itemScores d2).
    induction l as [|x l IHl]; intros [|y l'] Hr; try discriminate; [done|].
    assert (rating x = rating y
            ∧ List.map (λ s, (rubricItemId s, rating s)) l
              = List.map (λ s, (rubricItemId s, rating s)) l')
      as [Hxy Hr'] by (cbn [List.map] in Hr; split; congruence).
    cbn [ratedCount]. rewrite Hxy, (IHl _ Hr'). reflexivity. }
  destruct ds1 as [|d1 ds1], ds2 as [|d2 ds2]; try discriminate; [reflexivity|].
  unfold calculateOverallRating.
  by rewrite !roundedPercentage_spec, Hg, Hh.
Qed.

(** X13: typing a comment does not change the scores: after
    handleCommentChange the domain ids, totals, percentages and
    per-item ratings, the grand total and the overall rating are what
    they were. *)
Theorem comment_change_keeps_scores now domains thresholds itemId comment prev :
  let next := handleCommentChange itemId comment prev in
  List.map outline (calculateDomainScores now domains next)
  = List.map outline (calculateDomainScores now domains prev)
  ∧ calculateGrandTotal (calculateDomainScores now domains next)
    = calculateGrandTotal (calculateDomainScores now domains prev)
  ∧ calculateOverallRating (calculateDomainScores now domains next) thresholds
    = calculateOverallRating (calculateDomainScores now domains prev) thresholds.
Proof.
  intros next.
  assert (List.map outline (calculateDomainScores now domains next)
          = List.map outline (calculateDomainScores now domains prev)) as Ho.
  { unfold calculateDomainScores. rewrite !List.map_map. apply List.map_ext. intros d.
    apply outline_domainScore. intros k. subst next. unfold handleCommentChange.
    destruct (decide (k = itemId)) as [->|Hk].
    - rewrite lookup_insert_eq. cbn [mbind option_bind entry_rating].
      destruct (prev !! itemId ≫= entry_rating) as [[| |]|]; cbn;
        unfold sameUpToZero; auto.
    - rewrite lookup_insert_ne by done. by left. }
  split; [exact Ho|]. split; [|by apply overall_depends_on_outline].
  rewrite !calculateGrandTotal_sum. unfold grandTotalOf. f_equal.
  apply (f_equal (List.map (λ o : string * Z * Q * list (string * option Z), o.1.1.2))) in Ho.
  by rewrite !List.map_map in Ho.
Qed.

(** A rating and a comment can be entered in either order: the
    two updates of the form's score map commute, on the same item and
    on different items. *)
Lemma rating_and_comment_commute i rating j comment (prev : gmap string ScoreEntry) :
  handleCommentChange j comment (handleRatingChange i rating prev)
  = handleRatingChange i rating (handleCommentChange j comment prev).
Proof.
  unfold handleCommentChange, handleRatingChange.
  destruct (decide (i = j)) as [->|Hij].
  - rewrite !lookup_insert_eq, !insert_insert_eq. cbn [mbind option_bind entry_rating entry_comment].
    f_equal. f_equal.
    + by destruct rating.
    + by destruct comment.
  - rewrite !lookup_insert_ne by done. by rewrite insert_insert_ne.
Qed.


Lemma sum_included_contribution scores (l : list RubricItem) :
  sumZ (List.map (λ it, default 0 (enteredRating scores it))
                 (List.filter (included scores) l))
  = sumZ (List.map (contribution scores) l).
Proof.
  induction l as [|x l IH]; [reflexivity|].
  cbn [List.filter List.map]. rewrite sumZ_cons, <- IH.
  unfold contribution at 1. unfold included at 1.
  destruct (enteredRating scores x) as [r|] eqn:E; [|cbn; lia].
  destruct (Z.eqb_spec r 0) as [->|Hr]; cbn [negb]; [cbn; lia|].
  cbn [List.map]. rewrite sumZ_cons, E.
  destruct r; first [reflexivity | by destruct Hr].
Qed.

Lemma sum_single_change (g g' : RubricItem → Z) (l : list RubricItem) it :
  NoDup (List.map item_id l) → it ∈ l →
  (∀ x, x ∈ l → item_id x ≠ item_id it → g' x = g x) →
  sumZ (List.map g' l) = sumZ (List.map g l) - g it + g' it.
Proof.
  induction l as [|x l IH]; intros Hnd Hin Hsame; [by apply elem_of_nil in Hin|].
  cbn [List.map] in *. apply NoDup_cons in Hnd as [Hx Hnd]. rewrite !sumZ_cons.
  destruct (decide (item_id x = item_id it)) as [Heq|Hne].
  - assert (it = x) as ->.
    { apply elem_of_cons in Hin as [->|Hin]; [reflexivity|].
      exfalso. apply Hx. rewrite Heq.
      apply list_elem_of_In, List.in_map, list_elem_of_In, Hin. }
    assert (List.map g' l = List.map g l) as ->; [|lia].
    apply List.map_ext_in. intros y Hy. apply Hsame.
    + apply list_elem_of_further, list_elem_of_In, Hy.
    + intros Hyx. apply Hx. rewrite <- Hyx.
      apply list_elem_of_In, List.in_map, Hy.
  - apply elem_of_cons in Hin as [->|Hin]; [done|].
    rewrite (Hsame x); [|apply list_elem_of_here|done].
    rewrite IH; [lia|done|done|].
    intros y Hy. apply Hsame. by apply list_elem_of_further.
Qed.

(** X14: in a rubric whose item ids are distinct, rating one item moves
    the grand total by exactly the difference between the new rating
    and what the item contributed before. *)
Theorem rating_change_moves_total now domains prev it rating :
  NoDup (List.map item_id (allItems domains)) →
  it ∈ allItems domains →
  calculateGrandTotal
    (calculateDomainScores now domains (handleRatingChange (item_id it) rating prev))
  = calculateGrandTotal (calculateDomainScores now domains prev)
    - contribution prev it + rating.
Proof.
  intros Hnd Hin.
  rewrite !ScoringExtras.grandTotal_sum_included, !sum_included_contribution.
  rewrite (sum_single_change (contribution prev)
             (contribution (handleRatingChange (item_id it) rating prev))
             (allItems domains) it Hnd Hin).
  - f_equal. unfold contribution, enteredRating, handleRatingChange.
    rewrite lookup_insert_eq. cbn [mbind option_bind entry_rating]. by destruct rating.
  - intros x _ Hne. unfold contribution, enteredRating, handleRatingChange.
    by rewrite lookup_insert_ne.
Qed.

End FormExtras.

(** ** Properties of the rate limiter *)

Module RateLimitExtras.
Import Lifecycle RateLimiter.

Lemma rateLimit_entry now id maxRequests windowMs store e :
  store !! id = Some e → ¬ (now > resetTime e) →
  rateLimit now id maxRequests windowMs store
  = if count e >=? maxRequests
    then ({| success := false; remaining := 0; result_resetTime := resetTime e |}, store)
    else ({| success := true; remaining := maxRequests - (count e + 1);
             result_resetTime := resetTime e |},
          <[id := {| count := count e + 1; resetTime := resetTime e |}]> store).
Proof.
  intros He Hnow. unfold rateLimit. rewrite He.
  destruct (Z.gtb_spec now (resetTime e)); [lia|reflexivity].
Qed.

Lemma rateLimit_fresh now id maxRequests windowMs store :
  (∀ e, store !! id = Some e → now > resetTime e) →
  rateLimit now id maxRequests windowMs store
  = ({| success := true; remaining := maxRequests - 1;
        result_resetTime := now + windowMs |},
     <[id := {| count := 1; resetTime := now + windowMs |}]> store).
Proof.
  intros Hexp. unfold rateLimit. destruct (store !! id) as [e|]; [|reflexivity].
  specialize (Hexp e eq_refl). destruct (Z.gtb_spec now (resetTime e)); [reflexivity|lia].
Qed.

Lemma rateLimitAll_within id maxRequests windowMs times store e :
  store !! id = Some e →
  Forall (λ t, t ≤ resetTime e) times →
  List.map success (rateLimitAll id maxRequests windowMs times store).1
  = List.map (λ k, bool_decide (count e + Z.of_nat k < maxRequests))
             (seq 0 (length times)).
Proof.
  revert store e. induction times as [|t times IH]; intros store e He Hall; [reflexivity|].
  apply Forall_cons in Hall as [Ht Hall]. cbn [rateLimitAll].
  rewrite (rateLimit_entry _ _ _ _ _ e He) by lia.
  destruct (Z.geb_spec (count e) maxRequests) as [Hfull|Hroom].
  - destruct (rateLimitAll _ _ _ times store) as [rs store2] eqn:E.
    cbn [fst List.map length seq success].
    rewrite bool_decide_eq_false_2 by lia. f_equal.
    specialize (IH store e He Hall). rewrite E in IH. cbn [fst] in IH. rewrite IH.
    rewrite <- List.seq_shift, List.map_map. apply List.map_ext_in. intros k _.
    apply bool_decide_ext. lia.
  - destruct (rateLimitAll _ _ _ times _) as [rs store2] eqn:E.
    cbn [fst List.map length seq success].
    rewrite bool_decide_eq_true_2 by lia. f_equal.
    specialize (IH (<[id := {| count := count e + 1; resetTime := resetTime e |}]> store)
                   {| count := count e + 1; resetTime := resetTime e |}
                   (lookup_insert_eq _ _ _) Hall).
    rewrite E in IH. cbn [fst count resetTime] in IH. rewrite IH.
    rewrite <- List.seq_shift, List.map_map. apply List.map_ext_in. intros k _.
    apply bool_decide_ext. lia.
Qed.

Lemma quota_from_fresh id maxRequests windowMs t0 later store :
  (∀ e, store !! id = Some e → t0 > resetTime e) →
  Forall (λ t, t ≤ t0 + windowMs) later →
  List.map success (rateLimitAll id maxRequests windowMs (t0 :: later) store).1
  = List.map (λ k, bool_decide (Z.of_nat k < Z.max 1 maxRequests))
             (seq 0 (S (length later))).
Proof.
  intros Hfresh Hall. cbn [rateLimitAll]. rewrite rateLimit_fresh by exact Hfresh.
  destruct (rateLimitAll _ _ _ later _) as [rs store2] eqn:E.
  cbn [fst List.map seq success]. rewrite bool_decide_eq_true_2 by lia. f_equal.
  pose proof (rateLimitAll_within id maxRequests windowMs later
                (<[id := {| count := 1; resetTime := t0 + windowMs |}]> store)
                {| count := 1; resetTime := t0 + windowMs |}
                (lookup_insert_eq _ _ _) Hall) as H.
  rewrite E in H. cbn [fst count] in H. rewrite H.
  rewrite <- List.seq_shift, List.map_map. apply List.map_ext_in. intros k _.
  apply bool_decide_ext. lia.
Qed.

(** X15: for an identifier that names nothing the store inherits, in a
    window opened by a first request exactly the first
    max(1, maxRequests) requests succeed: the request that opens the
    window always does, whatever maxRequests, and afterwards the k-th
    request of the window succeeds exactly when k <= maxRequests. *)
Theorem quota_per_window id maxRequests windowMs t0 later store :
  ownKey id →
  (∀ e, store !! id = Some e → t0 > resetTime e) →
  Forall (λ t, t ≤ t0 + windowMs) later →
  List.map success (rateLimitAll id maxRequests windowMs (t0 :: later) store).1
  = List.map (λ k, bool_decide (Z.of_nat k < Z.max 1 maxRequests))
             (seq 0 (S (length later))).
Proof. intros _. apply quota_from_fresh. Qed.

Lemma rateLimit_other now id maxRequests windowMs store id' :
  id ≠ id' →
  (rateLimit now id maxRequests windowMs store).2 !! id' = store !! id'.
Proof.
  intros Hne. unfold rateLimit.
  destruct (store !! id) as [e|]; [|by cbn; rewrite lookup_insert_ne].
  destruct (now >? resetTime e); [by cbn; rewrite lookup_insert_ne|].
  destruct (count e >=? maxRequests); [reflexivity|by cbn; rewrite lookup_insert_ne].
Qed.

Lemma rateLimit_local now id maxRequests windowMs store1 store2 :
  store1 !! id = store2 !! id →
  (rateLimit now id maxRequests windowMs store1).1
  = (rateLimit now id maxRequests windowMs store2).1
  ∧ (rateLimit now id maxRequests windowMs store1).2 !! id
    = (rateLimit now id maxRequests windowMs store2).2 !! id.
Proof.
  intros Heq. unfold rateLimit. rewrite Heq.
  destruct (store2 !! id) as [e|] eqn:E2.
  - destruct (now >? resetTime e); [by cbn; rewrite !lookup_insert_eq|].
    destruct (count e >=? maxRequests); cbn; [by rewrite Heq, E2|by rewrite !lookup_insert_eq].
  - by cbn; rewrite !lookup_insert_eq.
Qed.

(** Clients are limited independently: requests of another
    identifier, whatever their number, times and limits, change neither
    the entry of a client nor the answer to its next request. *)
Lemma other_clients_do_not_interfere id id' maxRequests' windowMs' times store
    now maxRequests windowMs :
  id ≠ id' →
  let store' := (rateLimitAll id' maxRequests' windowMs' times store).2 in
  store' !! id = store !! id
  ∧ (rateLimit now id maxRequests windowMs store').1
    = (rateLimit now id maxRequests windowMs store).1.
Proof.
  intros Hne store'.
  assert (store' !! id = store !! id) as Hsame.
  { subst store'. revert store. induction times as [|t times IH]; intros store;
      [reflexivity|].
    cbn [rateLimitAll].
    destruct (rateLimit t id' maxRequests' windowMs' store) as [r store1] eqn:E1.
    specialize (IH store1).
    destruct (rateLimitAll id' maxRequests' windowMs' times store1) as [rs store2].
    cbn [snd] in *. rewrite IH.
    replace store1 with (rateLimit t id' maxRequests' windowMs' store).2 by (by rewrite E1).
    apply rateLimit_other. by intros ->. }
  split; [exact Hsame|]. by apply rateLimit_local.
Qed.

(** X16: the hourly sweep is invisible to the limiter: for a request at
    or after the time of the sweep, the answer and the entry written
    for the client are the same with and without the sweep. *)
Theorem cleanup_is_transparent swept now id maxRequests windowMs store :
  swept ≤ now →
  (rateLimit now id maxRequests windowMs (cleanup swept store)).1
  = (rateLimit now id maxRequests windowMs store).1
  ∧ (rateLimit now id maxRequests windowMs (cleanup swept store)).2 !! id
    = (rateLimit now id maxRequests windowMs store).2 !! id.
Proof.
  intros Hle. unfold rateLimit, cleanup.
  destruct (store !! id) as [e|] eqn:E.
  - destruct (decide (swept > resetTime e)) as [Hexp|Hlive].
    + rewrite map_lookup_filter_None_2.
      2:{ right. intros e' He'. rewrite E in He'. injection He' as <-. cbn. tauto. }
      destruct (Z.gtb_spec now (resetTime e)); [|lia].
      by cbn; rewrite !lookup_insert_eq.
    + rewrite (map_lookup_filter_Some_2 _ _ id e) by (by cbn).
      destruct (now >? resetTime e); [by cbn; rewrite !lookup_insert_eq|].
      destruct (count e >=? maxRequests); cbn.
      * split; [reflexivity|]. rewrite E. by apply map_lookup_filter_Some_2.
      * by rewrite !lookup_insert_eq.
  - rewrite map_lookup_filter_None_2 by (by left).
    by cbn; rewrite !lookup_insert_eq.
Qed.

(** X17: for an identifier that names nothing the store inherits,
    rateLimit keeps every stored count at least 1, and for a limit of
    at least 1 the remaining quota it reports is never negative; a
    refused request reports 0 and leaves the store as it was. *)
Theorem rateLimit_invariant now id maxRequests windowMs store :
  ownKey id →
  countsPositive store →
  let r := (rateLimit now id maxRequests windowMs store).1 in
  let store' := (rateLimit now id maxRequests windowMs store).2 in
  countsPositive store'
  ∧ (1 ≤ maxRequests → 0 ≤ remaining r < maxRequests)
  ∧ (success r = false → remaining r = 0 ∧ store' = store).
Proof.
  intros _ Hpos r store'. subst r store'. unfold rateLimit.
  assert (∀ c t, 1 ≤ c → countsPositive (<[id := {| count := c; resetTime := t |}]> store))
    as Hins.
  { intros c t Hc k e. destruct (decide (id = k)) as [->|Hk].
    - rewrite lookup_insert_eq. intros [= <-]. exact Hc.
    - rewrite lookup_insert_ne by done. apply Hpos. }
  destruct (store !! id) as [e|] eqn:E.
  - pose proof (Hpos id e E) as He.
    destruct (now >? resetTime e); cbn [fst snd remaining success].
    + split_and!; [by apply Hins|lia|discriminate].
    + destruct (Z.geb_spec (count e) maxRequests); cbn [fst snd remaining success].
      * split_and!; [exact Hpos|lia|done].
      * split_and!; [apply Hins; lia|lia|discriminate].
  - cbn [fst snd remaining success]. split_and!; [by apply Hins|lia|discriminate].
Qed.

End RateLimitExtras.

(** ** Further properties of the route handlers *)

Module RouteExtras.
Import Lifecycle LifecycleSpec RouteSpec LifecycleFacts.

Lemma afterRateLimit_db env req w : db (afterRateLimit env req w) = db w.
Proof. reflexivity. Qed.

Lemma isReviewerOrAdmin_true user :
  isReviewerOrAdmin user = true ↔ role user = "REVIEWER" ∨ role user = "ADMIN".
Proof.
  unfold isReviewerOrAdmin. rewrite orb_true_iff, !bool_decide_eq_true. reflexivity.
Qed.

Lemma isReviewerOrAdmin_false user :
  isReviewerOrAdmin user = false ↔ ¬ (role user = "REVIEWER" ∨ role user = "ADMIN").
Proof. rewrite <- isReviewerOrAdmin_true. by destruct (isReviewerOrAdmin user). Qed.

Lemma actor_check user o :
  bool_decide (observerId o ≠ user_id user) && bool_decide (role user ≠ "ADMIN") = false
  ↔ isObserverOrAdmin user o.
Proof.
  unfold isObserverOrAdmin. rewrite andb_false_iff, !bool_decide_eq_false. split.
  - intros [Hx|Hx]; [left|right]; by apply dec_stable.
  - intros [Hx|Hx]; [left|right]; intros Hne; by apply Hne.
Qed.

(** What a transition does once the observation is found: it answers a
    403 or a 400 and changes nothing, or, exactly when the guard of the
    action holds, it stores the updated observation. *)
Lemma transition_cases env user oid rc o action w :
  observations (db w) !! oid = Some o →
  let its := itemScoresOf oid (db w) in
  (¬ guard action user o (db w) oid
   ∧ ∃ r, transition env user oid rc o its action w = (Return r, w)
          ∧ (r = forbidden ∨ ∃ msg, r = badRequest msg))
  ∨ (guard action user o (db w) oid
     ∧ ∃ o' auditAction,
         transition env user oid rc o its action w
         = (Value (o', auditAction), withObservation oid o' w)
         ∧ edge action (status o) (status o')
         ∧ content o' = content o).
Proof.
  intros Ho its. rewrite (transition_eq _ _ _ _ o) by exact Ho.
  pose proof (ratedItems_zero (db w) oid) as Hrated.
  fold (itemScoresOf oid (db w)) in Hrated. fold its in Hrated.
  destruct action; cbn [guard].
  - destruct (bool_decide _ && bool_decide _) eqn:E1.
    { left. split; [|eauto]. intros (Ha & _). apply actor_check in Ha. congruence. }
    apply actor_check in E1.
    destruct (bool_decide (status o ≠ "DRAFT")) eqn:E2.
    { apply bool_decide_eq_true in E2. left. split; [tauto|]. eauto 6. }
    apply bool_decide_eq_false, dec_stable in E2.
    destruct (bool_decide (length _ = 0%nat)) eqn:E3.
    { apply bool_decide_eq_true, Hrated in E3. left. split; [tauto|]. eauto 6. }
    apply bool_decide_eq_false in E3. rewrite Hrated in E3.
    apply dec_stable_hasRatedItem in E3.
    right. split; [tauto|]. eexists _, _. split; [reflexivity|].
    cbn. rewrite E2. split; [constructor|reflexivity].
  - destruct (isReviewerOrAdmin user) eqn:E1; cbn [negb];
      [|apply isReviewerOrAdmin_false in E1; left; split; [tauto|eauto]].
    destruct (bool_decide (status o ≠ "SUBMITTED")) eqn:E2.
    { apply bool_decide_eq_true in E2. left. split; [tauto|]. eauto 6. }
    apply bool_decide_eq_false, dec_stable in E2.
    right. apply isReviewerOrAdmin_true in E1; split; [split; [done|done]|]. eexists _, _. split; [reflexivity|].
    cbn. rewrite E2. split; [constructor|reflexivity].
  - destruct (isReviewerOrAdmin user) eqn:E1; cbn [negb];
      [|apply isReviewerOrAdmin_false in E1; left; split; [tauto|eauto]].
    destruct (bool_decide (status o ≠ "REVIEWED")) eqn:E2.
    { apply bool_decide_eq_true in E2. left. split; [tauto|]. eauto 6. }
    apply bool_decide_eq_false, dec_stable in E2.
    right. apply isReviewerOrAdmin_true in E1; split; [split; [done|done]|]. eexists _, _. split; [reflexivity|].
    cbn. rewrite E2. split; [constructor|reflexivity].
  - destruct (isReviewerOrAdmin user) eqn:E1; cbn [negb];
      [|apply isReviewerOrAdmin_false in E1; left; split; [tauto|eauto]].
    destruct (bool_decide (status o = "SUBMITTED") || bool_decide (status o = "REVIEWED"))
      eqn:E2; cbn [negb].
    + apply orb_true_iff in E2. rewrite !bool_decide_eq_true in E2.
      right. apply isReviewerOrAdmin_true in E1; split; [split; [done|done]|]. eexists _, _. split; [reflexivity|].
      cbn. split; [|reflexivity]. destruct E2 as [-> | ->]; constructor.
    + apply orb_false_iff in E2. rewrite !bool_decide_eq_false in E2.
      left. split; [tauto|]. eauto 6.
Qed.


Lemma rejected_json_error msg status :
  400 ≤ status < 500 → rejected (json (ErrorBody msg) status).
Proof. intros H. split; [exact H|exact I]. Qed.

(** Every run of the status route either answers a rejection and leaves
    the store as it was, or takes the edge of the requested action, its
    guard holding; the answer is then 200 with one audit entry, or 500
    without one when the audit write fails. *)
Lemma PUT_status_cases env req w r w' :
  PUT_status env req w = (r, w') →
  let oid := params_id req in
  let w1 := afterRateLimit env req w in
  (rejected r ∧ w' = w1)
  ∨ (∃ user a o o' auditAction,
       passesRateLimit env req w
       ∧ session env = Some user
       ∧ parseAction (body_action req) = Some a
       ∧ observations (db w) !! oid = Some o
       ∧ guard a user o (db w) oid
       ∧ edge a (status o) (status o')
       ∧ content o' = content o
       ∧ (auditLogCreateFails env = true ∧ r = internalError
          ∧ w' = withObservation oid o' w1
          ∨ auditLogCreateFails env = false ∧ r = json (ObservationBody o') 200
            ∧ w' = withAuditLog (transitionAudit user oid a auditAction o o')
                                (withObservation oid o' w1))).
Proof.
  intros Hrun oid w1. rewrite PUT_status_eq in Hrun. cbv zeta in Hrun.
  fold w1 oid in Hrun.
  destruct (success _) eqn:Hrl; cbn [negb] in Hrun;
    [|injection Hrun as <- <-; left; split; [split; [simpl; lia|exact I]|reflexivity]].
  destruct (session env) as [user|] eqn:Hs;
    [|injection Hrun as <- <-; left; split; [by apply rejected_json_error|reflexivity]].
  destruct (parseAction _) as [a|] eqn:Ha;
    [|injection Hrun as <- <-; left; split; [by apply rejected_json_error|reflexivity]].
  destruct (observations (db w) !! oid) as [o|] eqn:Ho;
    [|injection Hrun as <- <-; left; split; [by apply rejected_json_error|reflexivity]].
  destruct (transition_cases env user oid
              (trim <$> Js.truthy_str (body_reviewerComments req)) o a w1 Ho)
    as [(Hng & r0 & Ht & Hr0) | (Hg & o' & aa & Ht & Hedge & Hcontent)];
    cbv zeta in Ht; change (db w1) with (db w) in Ht; rewrite Ht in Hrun.
  - injection Hrun as <- <-. left. split; [|reflexivity].
    destruct Hr0 as [-> | [msg ->]]; by apply rejected_json_error.
  - right. exists user, a, o, o', aa. split_and!; try done.
    destruct (auditLogCreateFails env); injection Hrun as <- <-; [left|right]; done.
Qed.

(** X18: the status route moves an observation only along the edges of
    the lifecycle: after any request the observation is as it was, or
    its status went from DRAFT to SUBMITTED, SUBMITTED to REVIEWED,
    REVIEWED to FINALIZED, or SUBMITTED or REVIEWED back to DRAFT, by
    the action requested; a 200 answer means the edge was taken. *)
Theorem status_route_follows_edges env req w o r w' :
  observations (db w) !! params_id req = Some o →
  PUT_status env req w = (r, w') →
  ∃ o', observations (db w') !! params_id req = Some o'
        ∧ (o' = o ∧ response_status r ≠ 200
           ∨ ∃ a, parseAction (body_action req) = Some a
                  ∧ edge a (status o) (status o')).
Proof.
  intros Ho Hrun.
  destruct (PUT_status_cases _ _ _ _ _ Hrun)
    as [(Hrej & ->) | (user & a & o0 & o' & aa & _ & _ & Ha & Ho0 & _ & Hedge & _ & Hout)].
  - exists o. split; [exact Ho|]. left. split; [reflexivity|].
    destruct Hrej as [Hst _]. lia.
  - rewrite Ho in Ho0. injection Ho0 as <-. exists o'. split.
    + destruct Hout as [(_ & _ & ->) | (_ & _ & ->)]; cbn; apply lookup_insert_eq.
    + right. by exists a.
Qed.

(** X19: the status route writes nothing but the workflow columns of
    the observation it addresses: the item scores, the attachments, the
    other observations and every other column of the observation are
    left as they were, and no observation is created or deleted. *)
Theorem status_route_frame env req w r w' :
  PUT_status env req w = (r, w') →
  observationItemScores (db w') = observationItemScores (db w)
  ∧ attachments (db w') = attachments (db w)
  ∧ (∀ k, k ≠ params_id req → observations (db w') !! k = observations (db w) !! k)
  ∧ content <$> observations (db w') !! params_id req
    = content <$> observations (db w) !! params_id req.
Proof.
  intros Hrun.
  destruct (PUT_status_cases _ _ _ _ _ Hrun)
    as [(Hrej & ->) | (user & a & o & o' & aa & _ & _ & Ha & Ho & _ & _ & Hc & Hout)].
  - by split_and!.
  - assert (db w' = db (withObservation (params_id req) o' (afterRateLimit env req w))
            ∨ db w' = db (withAuditLog (transitionAudit user (params_id req) a aa o o')
                            (withObservation (params_id req) o' (afterRateLimit env req w))))
      as Hdb by (destruct Hout as [(_ & _ & ->) | (_ & _ & ->)]; auto).
    destruct Hdb as [-> | ->]; cbn; split_and!; try reflexivity;
      try (intros k Hk; by rewrite lookup_insert_ne);
      by rewrite lookup_insert_eq, Ho; cbn; rewrite Hc.
Qed.

(** X20: the audit trail of the status route: a 200 answer comes with
    exactly one new audit entry, which names the observation, the actor
    and the action and records an edge of the lifecycle as previous and
    new status; every other answer adds no entry, and every answer
    other than 200 and 500 leaves the whole store as it was. *)
Theorem status_route_audit_trail env req w r w' :
  PUT_status env req w = (r, w') →
  (response_status r = 200 →
     ∃ user a from to e,
       session env = Some user ∧ parseAction (body_action req) = Some a
       ∧ edge a from to
       ∧ auditLogs (db w') = (auditLogs (db w) ++ [e])%list
       ∧ objectType e = "Observation" ∧ objectId e = params_id req
       ∧ action e = actionName a ∧ userId e = user_id user
       ∧ previousStatus (diff e) = Some from ∧ newStatus (diff e) = Some to)
  ∧ (response_status r ≠ 200 → auditLogs (db w') = auditLogs (db w))
  ∧ (response_status r ≠ 200 → response_status r ≠ 500 → db w' = db w).
Proof.
  intros Hrun.
  destruct (PUT_status_cases _ _ _ _ _ Hrun)
    as [(Hrej & ->) | (user & a & o & o' & aa & _ & Hs & Ha & Ho & _ & Hedge & _ & Hout)].
  - destruct Hrej as [Hst _]. split_and!; [intros; lia|done|done].
  - destruct Hout as [(_ & -> & ->) | (_ & -> & ->)].
    + split_and!; [discriminate|done|intros _ H; by destruct H].
    + split_and!; [|intros H; by destruct H|intros H; by destruct H].
      intros _. exists user, a, (status o), (status o'),
        (transitionAudit user (params_id req) a aa o o'). by split_and!.
Qed.


(** X21: the transition table.  For a request that passes the rate
    limiter, is authenticated and names an existing observation, the
    guard of the requested action decides the outcome: when it fails the
    answer is a rejection and the store is left as it was; when it holds
    the edge is taken, and the answer is 200 unless the audit write
    fails. *)
Theorem transition_table env req w user a o r w' :
  passesRateLimit env req w →
  session env = Some user →
  parseAction (body_action req) = Some a →
  observations (db w) !! params_id req = Some o →
  PUT_status env req w = (r, w') →
  (¬ guard a user o (db w) (params_id req) → rejected r ∧ db w' = db w)
  ∧ (guard a user o (db w) (params_id req) →
       ∃ o', observations (db w') !! params_id req = Some o'
             ∧ edge a (status o) (status o'))
  ∧ (auditLogCreateFails env = false →
       (response_status r = 200 ↔ guard a user o (db w) (params_id req))).
Proof.
  intros Hrl Hs Ha Ho Hrun.
  destruct (PUT_status_cases _ _ _ _ _ Hrun)
    as [(Hrej & ->) | (user0 & a0 & o0 & o' & aa & _ & Hs0 & Ha0 & Ho0 & Hg & Hedge & _ & Hout)].
  - assert (¬ guard a user o (db w) (params_id req)) as Hng.
    { intros Hg. rewrite PUT_status_eq in Hrun. cbv zeta in Hrun.
      unfold passesRateLimit in Hrl. rewrite Hrl, Hs, Ha, Ho in Hrun. cbn [negb] in Hrun.
      destruct (transition_cases env user (params_id req)
                  (trim <$> Js.truthy_str (body_reviewerComments req)) o a
                  (afterRateLimit env req w) Ho)
        as [(Hng & _) | (_ & o' & aa & Ht & _)]; [by apply Hng|].
      cbv zeta in Ht. change (db (afterRateLimit env req w)) with (db w) in Ht.
      rewrite Ht in Hrun. destruct Hrej as [[Hlo Hhi] Hbody].
      destruct (auditLogCreateFails env); injection Hrun as <- _;
        cbn in Hlo, Hhi, Hbody; first [lia | contradiction]. }
    split_and!; [done|done|]. intros _. destruct Hrej as [[Hlo Hhi] _].
    split; [lia|done].
  - rewrite Hs in Hs0. injection Hs0 as <-. rewrite Ha in Ha0. injection Ha0 as <-.
    rewrite Ho in Ho0. injection Ho0 as <-.
    split_and!; [done| |].
    + intros _. exists o'. split; [|exact Hedge].
      destruct Hout as [(_ & _ & ->) | (_ & _ & ->)]; cbn; apply lookup_insert_eq.
    + intros Hok. destruct Hout as [(Hf & _) | (_ & -> & _)]; [congruence|done].
Qed.

End RouteExtras.

(** ** Workflows through the status route *)

Module WorkflowExtras.
Import Lifecycle LifecycleSpec RouteSpec RateLimiter LifecycleFacts RouteExtras.

Lemma run_of_transition env req w user a o o' auditAction :
  passesRateLimit env req w →
  session env = Some user →
  parseAction (body_action req) = Some a →
  observations (db w) !! params_id req = Some o →
  transition env user (params_id req)
    (trim <$> Js.truthy_str (body_reviewerComments req))
    o (itemScoresOf (params_id req) (db w)) a (afterRateLimit env req w)
  = (Value (o', auditAction),
     withObservation (params_id req) o' (afterRateLimit env req w)) →
  PUT_status env req w
  = if auditLogCreateFails env
    then (internalError, withObservation (params_id req) o' (afterRateLimit env req w))
    else (json (ObservationBody o') 200,
          withAuditLog (transitionAudit user (params_id req) a auditAction o o')
            (withObservation (params_id req) o' (afterRateLimit env req w))).
Proof.
  intros Hrl Hs Ha Ho Ht. rewrite PUT_status_eq. cbv zeta.
  unfold passesRateLimit in Hrl. rewrite Hrl, Hs, Ha, Ho, Ht. reflexivity.
Qed.

Lemma observations_after env req w user a o o' auditAction :
  PUT_status env req w
  = (if auditLogCreateFails env
     then (internalError, withObservation (params_id req) o' (afterRateLimit env req w))
     else (json (ObservationBody o') 200,
           withAuditLog (transitionAudit user (params_id req) a auditAction o o')
             (withObservation (params_id req) o' (afterRateLimit env req w)))) →
  observations (db (PUT_status env req w).2)
  = <[params_id req := o']> (observations (db w))
  ∧ observationItemScores (db (PUT_status env req w).2) = observationItemScores (db w)
  ∧ attachments (db (PUT_status env req w).2) = attachments (db w)
  ∧ (auditLogCreateFails env = false →
       (PUT_status env req w).1 = json (ObservationBody o') 200).
Proof. intros ->. by destruct (auditLogCreateFails env). Qed.

Lemma review_taken env req w user o :
  passesRateLimit env req w →
  session env = Some user →
  role user = "REVIEWER" ∨ role user = "ADMIN" →
  body_action req = Some "REVIEW" →
  observations (db w) !! params_id req = Some o →
  status o = "SUBMITTED" →
  let o' := applyData [Set_status "REVIEWED"; Set_reviewerId (Some (user_id user));
                       Set_reviewedAt (Some (now env));
                       Set_reviewerComments
                         (trim <$> Js.truthy_str (body_reviewerComments req))] o in
  observations (db (PUT_status env req w).2)
  = <[params_id req := o']> (observations (db w))
  ∧ observationItemScores (db (PUT_status env req w).2) = observationItemScores (db w)
  ∧ attachments (db (PUT_status env req w).2) = attachments (db w)
  ∧ (auditLogCreateFails env = false →
       (PUT_status env req w).1 = json (ObservationBody o') 200).
Proof.
  intros Hrl Hs Hrole Ha Ho Hst o'.
  eapply (observations_after _ _ _ user REVIEW o o').
  apply run_of_transition; try done; [by rewrite Ha|].
  rewrite (transition_eq _ _ _ _ o) by exact Ho.
  rewrite (proj2 (isReviewerOrAdmin_true user) Hrole), Hst. reflexivity.
Qed.

Lemma finalize_taken env req w user o :
  passesRateLimit env req w →
  session env = Some user →
  role user = "REVIEWER" ∨ role user = "ADMIN" →
  body_action req = Some "FINALIZE" →
  observations (db w) !! params_id req = Some o →
  status o = "REVIEWED" →
  let o' := applyData [Set_status "FINALIZED"; Set_finalizedAt (Some (now env))] o in
  observations (db (PUT_status env req w).2)
  = <[params_id req := o']> (observations (db w))
  ∧ observationItemScores (db (PUT_status env req w).2) = observationItemScores (db w)
  ∧ attachments (db (PUT_status env req w).2) = attachments (db w)
  ∧ (auditLogCreateFails env = false →
       (PUT_status env req w).1 = json (ObservationBody o') 200).
Proof.
  intros Hrl Hs Hrole Ha Ho Hst o'.
  eapply (observations_after _ _ _ user FINALIZE o o').
  apply run_of_transition; try done; [by rewrite Ha|].
  rewrite (transition_eq _ _ _ _ o) by exact Ho.
  rewrite (proj2 (isReviewerOrAdmin_true user) Hrole), Hst. reflexivity.
Qed.

Lemma submit_taken env req w user o :
  passesRateLimit env req w →
  session env = Some user →
  body_action req = Some "SUBMIT" →
  observations (db w) !! params_id req = Some o →
  guard SUBMIT user o (db w) (params_id req) →
  let o' := applyData [Set_status "SUBMITTED"] o in
  observations (db (PUT_status env req w).2)
  = <[params_id req := o']> (observations (db w))
  ∧ observationItemScores (db (PUT_status env req w).2) = observationItemScores (db w)
  ∧ attachments (db (PUT_status env req w).2) = attachments (db w)
  ∧ (auditLogCreateFails env = false →
       (PUT_status env req w).1 = json (ObservationBody o') 200).
Proof.
  intros Hrl Hs Ha Ho (Hactor & Hst & Hrated) o'.
  eapply (observations_after _ _ _ user SUBMIT o o').
  apply run_of_transition; try done; [by rewrite Ha|].
  rewrite (transition_eq _ _ _ _ o) by exact Ho.
  rewrite (proj2 (actor_check user o) Hactor), Hst.
  rewrite (bool_decide_eq_false_2 ("DRAFT" ≠ "DRAFT")) by (by intros ?).
  rewrite bool_decide_eq_false_2; [reflexivity|].
  intros Hz. by apply (ratedItems_zero (db w) (params_id req)) in Hz.
Qed.

Lemma return_taken env req w user o :
  passesRateLimit env req w →
  session env = Some user →
  role user = "REVIEWER" ∨ role user = "ADMIN" →
  body_action req = Some "RETURN_TO_DRAFT" →
  observations (db w) !! params_id req = Some o →
  status o = "SUBMITTED" ∨ status o = "REVIEWED" →
  let o' := applyData [Set_status "DRAFT"; Set_reviewerId None; Set_reviewedAt None;
                       Set_reviewerComments None] o in
  observations (db (PUT_status env req w).2)
  = <[params_id req := o']> (observations (db w))
  ∧ observationItemScores (db (PUT_status env req w).2) = observationItemScores (db w)
  ∧ attachments (db (PUT_status env req w).2) = attachments (db w)
  ∧ (auditLogCreateFails env = false →
       (PUT_status env req w).1 = json (ObservationBody o') 200).
Proof.
  intros Hrl Hs Hrole Ha Ho Hst o'.
  eapply (observations_after _ _ _ user RETURN_TO_DRAFT o o').
  apply run_of_transition; try done; [by rewrite Ha|].
  rewrite (transition_eq _ _ _ _ o) by exact Ho.
  rewrite (proj2 (isReviewerOrAdmin_true user) Hrole).
  assert (bool_decide (status o = "SUBMITTED") || bool_decide (status o = "REVIEWED")
          = true) as ->; [|reflexivity].
  apply orb_true_iff. destruct Hst; [left|right]; by apply bool_decide_eq_true.
Qed.

(** X22: a successful REVIEW (a reviewer or an admin, on a SUBMITTED
    observation) sets the status to REVIEWED and records the reviewer,
    the time of the review and the trimmed reviewer comments (null when
    none were sent); every other column, the item scores and the
    attachments are left as they were. *)
Theorem review_records_the_reviewer env req w user o r w' :
  passesRateLimit env req w →
  session env = Some user →
  role user = "REVIEWER" ∨ role user = "ADMIN" →
  body_action req = Some "REVIEW" →
  observations (db w) !! params_id req = Some o →
  status o = "SUBMITTED" →
  PUT_status env req w = (r, w') →
  let reviewed :=
    {| id := id o; branchId := branchId o; teacherId := teacherId o;
       observerId := observerId o; reviewerId := Some (user_id user);
       classSection := classSection o; totalStudents := totalStudents o;
       presentStudents := presentStudents o; subject := subject o;
       topic := topic o; date := date o; time := time o;
       lessonPlanAttached := lessonPlanAttached o; strengths := strengths o;
       areasToImprove := areasToImprove o; suggestions := suggestions o;
       status := "REVIEWED"; reviewedAt := Some (now env);
       finalizedAt := finalizedAt o;
       reviewerComments := trim <$> Js.truthy_str (body_reviewerComments req) |} in
  observations (db w') = <[params_id req := reviewed]> (observations (db w))
  ∧ observationItemScores (db w') = observationItemScores (db w)
  ∧ attachments (db w') = attachments (db w)
  ∧ (auditLogCreateFails env = false → r = json (ObservationBody reviewed) 200).
Proof.
  intros Hrl Hs Hrole Ha Ho Hst Hrun reviewed.
  pose proof (review_taken env req w user o Hrl Hs Hrole Ha Ho Hst) as H.
  rewrite Hrun in H. exact H.
Qed.

(** X23: a successful FINALIZE (a reviewer or an admin, on a REVIEWED
    observation) sets the status to FINALIZED and records the time;
    every other column, the reviewer data included, the item scores and
    the attachments are left as they were. *)
Theorem finalize_records_the_time env req w user o r w' :
  passesRateLimit env req w →
  session env = Some user →
  role user = "REVIEWER" ∨ role user = "ADMIN" →
  body_action req = Some "FINALIZE" →
  observations (db w) !! params_id req = Some o →
  status o = "REVIEWED" →
  PUT_status env req w = (r, w') →
  let finalized :=
    {| id := id o; branchId := branchId o; teacherId := teacherId o;
       observerId := observerId o; reviewerId := reviewerId o;
       classSection := classSection o; totalStudents := totalStudents o;
       presentStudents := presentStudents o; subject := subject o;
       topic := topic o; date := date o; time := time o;
       lessonPlanAttached := lessonPlanAttached o; strengths := strengths o;
       areasToImprove := areasToImprove o; suggestions := suggestions o;
       status := "FINALIZED"; reviewedAt := reviewedAt o;
       finalizedAt := Some (now env);
       reviewerComments := reviewerComments o |} in
  observations (db w') = <[params_id req := finalized]> (observations (db w))
  ∧ observationItemScores (db w') = observationItemScores (db w)
  ∧ attachments (db w') = attachments (db w)
  ∧ (auditLogCreateFails env = false → r = json (ObservationBody finalized) 200).
Proof.
  intros Hrl Hs Hrole Ha Ho Hst Hrun finalized.
  pose proof (finalize_taken env req w user o Hrl Hs Hrole Ha Ho Hst) as H.
  rewrite Hrun in H. exact H.
Qed.


(** X24: RETURN_TO_DRAFT undoes SUBMIT: when a draft that carries no
    reviewer data is submitted and then returned to draft, the
    observations, the item scores and the attachments are exactly what
    they were before the submission. *)
Theorem return_to_draft_undoes_submit env1 req1 env2 req2 w observer reviewer o :
  params_id req2 = params_id req1 →
  body_action req1 = Some "SUBMIT" →
  body_action req2 = Some "RETURN_TO_DRAFT" →
  session env1 = Some observer →
  session env2 = Some reviewer →
  role reviewer = "REVIEWER" ∨ role reviewer = "ADMIN" →
  observations (db w) !! params_id req1 = Some o →
  guard SUBMIT observer o (db w) (params_id req1) →
  reviewerId o = None → reviewedAt o = None → reviewerComments o = None →
  let w1 := (PUT_status env1 req1 w).2 in
  let w2 := (PUT_status env2 req2 w1).2 in
  passesRateLimit env1 req1 w →
  passesRateLimit env2 req2 w1 →
  observations (db w2) = observations (db w)
  ∧ observationItemScores (db w2) = observationItemScores (db w)
  ∧ attachments (db w2) = attachments (db w).
Proof.
  intros Hid Ha1 Ha2 Hs1 Hs2 Hrole Ho Hg Hr1 Hr2 Hr3 w1 w2 Hrl1 Hrl2.
  destruct (submit_taken env1 req1 w observer o Hrl1 Hs1 Ha1 Ho Hg)
    as (Hobs1 & Hits1 & Hatt1 & _).
  fold w1 in Hobs1, Hits1, Hatt1.
  assert (observations (db w1) !! params_id req2
          = Some (applyData [Set_status "SUBMITTED"] o)) as Ho1
    by (rewrite Hobs1, Hid; apply lookup_insert_eq).
  destruct (return_taken env2 req2 w1 reviewer _ Hrl2 Hs2 Hrole Ha2 Ho1
              (or_introl eq_refl))
    as (Hobs2 & Hits2 & Hatt2 & _).
  fold w2 in Hobs2, Hits2, Hatt2.
  split_and!; [|congruence|congruence].
  rewrite Hobs2, Hobs1, Hid, insert_insert_eq. apply insert_id. rewrite Ho. f_equal.
  destruct Hg as (_ & Hst & _). destruct o. cbn in *. by subst.
Qed.

(** X25: the whole workflow.  A draft with a rated item that its
    observer submits, a reviewer reviews and a reviewer finalizes ends
    FINALIZED, with the reviewer, the review time, the trimmed comments
    and the finalization time recorded and every other column and the
    item scores as they were; after that every request to the status
    route is rejected. *)
Theorem workflow_reaches_finalized env1 req1 env2 req2 env3 req3 w
    observer reviewer finalizer o :
  params_id req2 = params_id req1 → params_id req3 = params_id req1 →
  body_action req1 = Some "SUBMIT" →
  body_action req2 = Some "REVIEW" →
  body_action req3 = Some "FINALIZE" →
  session env1 = Some observer →
  session env2 = Some reviewer →
  session env3 = Some finalizer →
  role reviewer = "REVIEWER" ∨ role reviewer = "ADMIN" →
  role finalizer = "REVIEWER" ∨ role finalizer = "ADMIN" →
  observations (db w) !! params_id req1 = Some o →
  guard SUBMIT observer o (db w) (params_id req1) →
  let w1 := (PUT_status env1 req1 w).2 in
  let w2 := (PUT_status env2 req2 w1).2 in
  let w3 := (PUT_status env3 req3 w2).2 in
  passesRateLimit env1 req1 w →
  passesRateLimit env2 req2 w1 →
  passesRateLimit env3 req3 w2 →
  (∃ o3, observations (db w3) !! params_id req1 = Some o3
         ∧ status o3 = "FINALIZED"
         ∧ reviewerId o3 = Some (user_id reviewer)
         ∧ reviewedAt o3 = Some (now env2)
         ∧ reviewerComments o3 = trim <$> Js.truthy_str (body_reviewerComments req2)
         ∧ finalizedAt o3 = Some (now env3)
         ∧ content o3 = content o)
  ∧ observationItemScores (db w3) = observationItemScores (db w)
  ∧ (∀ env4 req4, params_id req4 = params_id req1 →
       rejected (PUT_status env4 req4 w3).1 ∧ db (PUT_status env4 req4 w3).2 = db w3).
Proof.
  intros Hid2 Hid3 Ha1 Ha2 Ha3 Hs1 Hs2 Hs3 Hrole2 Hrole3 Ho Hg w1 w2 w3 Hrl1 Hrl2 Hrl3.
  destruct (submit_taken env1 req1 w observer o Hrl1 Hs1 Ha1 Ho Hg)
    as (Hobs1 & Hits1 & _).
  fold w1 in Hobs1, Hits1.
  assert (observations (db w1) !! params_id req2
          = Some (applyData [Set_status "SUBMITTED"] o)) as Ho1
    by (rewrite Hobs1, Hid2; apply lookup_insert_eq).
  destruct (review_taken env2 req2 w1 reviewer _ Hrl2 Hs2 Hrole2 Ha2 Ho1 eq_refl)
    as (Hobs2 & Hits2 & _).
  fold w2 in Hobs2, Hits2.
  match type of Hobs2 with _ = <[_ := ?x]> _ => set (o2 := x) in * end.
  assert (observations (db w2) !! params_id req3 = Some o2) as Ho2
    by (rewrite Hobs2, Hid2, Hid3; apply lookup_insert_eq).
  destruct (finalize_taken env3 req3 w2 finalizer o2 Hrl3 Hs3 Hrole3 Ha3 Ho2 eq_refl)
    as (Hobs3 & Hits3 & _).
  fold w3 in Hobs3, Hits3.
  match type of Hobs3 with _ = <[_ := ?x]> _ => set (o3 := x) in * end.
  assert (observations (db w3) !! params_id req1 = Some o3) as Ho3
    by (rewrite Hobs3, Hid3; apply lookup_insert_eq).
  split_and!.
  - exists o3. by split_and!.
  - congruence.
  - intros env4 req4 Hid4. apply (status_route_finalized env4 req4 w3 o3); [|reflexivity].
    by rewrite Hid4.
Qed.

Lemma PUT_status_limiter env req w :
  rateLimitStore (PUT_status env req w).2
  = (rateLimit (now env) (clientOf req) 20 (15 * 60 * 1000) (rateLimitStore w)).2
  ∧ (response_status (PUT_status env req w).1 = 429
     ↔ success (rateLimit (now env) (clientOf req) 20 (15 * 60 * 1000)
                          (rateLimitStore w)).1 = false).
Proof.
  destruct (PUT_status env req w) as [r w'] eqn:Hrun. cbn [fst snd].
  pose proof Hrun as Hcases. apply PUT_status_cases in Hcases. cbv zeta in Hcases.
  split.
  - destruct Hcases as [(_ & ->) | (user & a & o & o' & aa & _ & _ & _ & _ & _ & _ & _ & Hout)];
      [reflexivity|].
    destruct Hout as [(_ & _ & ->) | (_ & _ & ->)]; reflexivity.
  - rewrite PUT_status_eq in Hrun. cbv zeta in Hrun. fold (clientOf req) in Hrun.
    destruct (success _) eqn:Hrl; cbn [negb] in Hrun.
    + split; [|discriminate]. intros H429. exfalso.
      destruct (session env) as [user|]; [|injection Hrun as <- _; discriminate].
      destruct (parseAction _) as [a|]; [|injection Hrun as <- _; discriminate].
      destruct (observations (db w) !! params_id req) as [o|] eqn:Ho;
        [|injection Hrun as <- _; discriminate].
      destruct (transition_cases env user (params_id req)
                  (trim <$> Js.truthy_str (body_reviewerComments req)) o a
                  (afterRateLimit env req w) Ho)
        as [(_ & r0 & Ht & Hr0) | (_ & o' & aa & Ht & _)];
        cbv zeta in Ht; change (db (afterRateLimit env req w)) with (db w) in Ht;
        rewrite Ht in Hrun.
      * injection Hrun as <- _. destruct Hr0 as [-> | [msg ->]]; discriminate.
      * destruct (auditLogCreateFails env); injection Hrun as <- _; discriminate.
    + injection Hrun as <- _. split; reflexivity.
Qed.

(** What a request does to the limiter: when its route asks the
    limiter, its flag is the limiter's answer and the store after it is
    the limiter's. *)
Lemma serveEvent_limiter ev w call :
  limiterCall ev = Some call →
  (serveEvent ev w).1
  = success (rateLimit (call_now call) (call_clientId call) (call_maxRequests call)
                       (call_windowMs call) (rateLimitStore w)).1
  ∧ rateLimitStore (serveEvent ev w).2
    = (rateLimit (call_now call) (call_clientId call) (call_maxRequests call)
                 (call_windowMs call) (rateLimitStore w)).2.
Proof.
  destruct ev as [env req|now c maxRequests windowMs effect|effect|now];
    cbn [limiterCall]; intros [= <-];
    cbn [serveEvent call_now call_clientId call_maxRequests call_windowMs].
  - destruct (PUT_status_limiter env req w) as [Hstore H429].
    destruct (PUT_status env req w) as [r w1]. cbn [fst snd] in *.
    split; [|exact Hstore].
    destruct (success _) eqn:Hs; cbn [negb].
    + apply negb_true_iff, bool_decide_eq_false. intros H. apply H429 in H. congruence.
    + apply negb_false_iff, bool_decide_eq_true. by apply H429.
  - destruct (rateLimit now c maxRequests windowMs (rateLimitStore w)) as [r store].
    split; reflexivity.
Qed.

(** A request that does not ask the limiter, or a sweep before the
    window closes, leaves the entry of the client as it was. *)
Lemma serveEvent_keeps_entry ev w cid e :
  limiterCall ev = None → notAfter (resetTime e) ev →
  rateLimitStore w !! cid = Some e →
  rateLimitStore (serveEvent ev w).2 !! cid = Some e.
Proof.
  destruct ev as [env req|now c maxRequests windowMs effect|effect|now];
    cbn [limiterCall notAfter serveEvent snd rateLimitStore]; try discriminate.
  - intros _ _ He. exact He.
  - intros _ Hnow He. unfold cleanup. apply map_lookup_filter_Some_2; [exact He|].
    cbn. lia.
Qed.

Lemma notAfter_call closes ev call :
  limiterCall ev = Some call → notAfter closes ev → call_now call ≤ closes.
Proof.
  destruct ev; cbn [limiterCall notAfter]; intros [= <-]; cbn [call_now]; done.
Qed.

Lemma serve_within cid events :
  ∀ w e, rateLimitStore w !! cid = Some e →
         Forall (notAfter (resetTime e)) events →
         ofClient cid events (serve events w).1 = quota cid (count e) events.
Proof.
  induction events as [|ev later IH]; intros w e He Hall; [reflexivity|].
  apply Forall_cons in Hall as [Ht Hall]. cbn [serve quota].
  pose proof (serveEvent_limiter ev w) as Hev.
  pose proof (serveEvent_keeps_entry ev w cid e) as Hkeep.
  destruct (serveEvent ev w) as [f w1]. cbn [fst snd] in Hev, Hkeep.
  unfold ofClient. cbn [zip_with]. unfold asksFor at 1.
  destruct (limiterCall ev) as [call|] eqn:Ecall.
  - destruct (Hev call eq_refl) as [Hflag Hstore].
    pose proof (notAfter_call _ _ _ Ecall Ht) as Hnow.
    case_bool_decide as Hc.
    + rewrite Hc in Hflag, Hstore.
      rewrite (RateLimitExtras.rateLimit_entry _ _ _ _ _ e He) in Hflag, Hstore by lia.
      destruct (Z.geb_spec (count e) (call_maxRequests call)) as [Hfull|Hroom];
        cbn [fst snd success] in Hflag, Hstore; subst f.
      * rewrite (proj2 (Z.ltb_ge _ _)) by lia.
        specialize (IH w1 e ltac:(by rewrite Hstore) Hall).
        destruct (serve later w1) as [fs w2]. cbn [fst] in *.
        unfold ofClient in IH. by rewrite IH.
      * rewrite (proj2 (Z.ltb_lt _ _)) by lia.
        specialize (IH w1 {| count := count e + 1; resetTime := resetTime e |}
                       ltac:(by rewrite Hstore, lookup_insert_eq) Hall).
        destruct (serve later w1) as [fs w2]. cbn [fst count] in *.
        unfold ofClient in IH. by rewrite IH.
    + assert (rateLimitStore w1 !! cid = Some e) as He1.
      { rewrite Hstore, RateLimitExtras.rateLimit_other by exact Hc. exact He. }
      specialize (IH w1 e He1 Hall).
      destruct (serve later w1) as [fs w2]. cbn [fst] in *.
      unfold ofClient in IH. by rewrite IH.
  - specialize (IH w1 e (Hkeep eq_refl Ht He) Hall).
    destruct (serve later w1) as [fs w2]. cbn [fst] in *.
    unfold ofClient in IH. by rewrite IH.
Qed.

Lemma quota_of_limit_twenty cid events :
  Forall (λ ev, ∃ call, limiterCall ev = Some call ∧ call_clientId call = cid
                        ∧ call_maxRequests call = 20) events →
  ∀ admitted,
    quota cid admitted events
    = List.map (λ k, Some (bool_decide (admitted + Z.of_nat k < 20)))
               (seq 0 (length events)).
Proof.
  induction 1 as [|ev later (call & Ecall & Hc & Hl) _ IH]; intros admitted;
    [reflexivity|].
  cbn [quota length seq List.map]. rewrite Ecall, bool_decide_eq_true_2 by exact Hc.
  rewrite Hl, <- List.seq_shift, List.map_map.
  destruct (Z.ltb_spec admitted 20).
  - rewrite bool_decide_eq_true_2 by lia. f_equal. rewrite IH.
    apply List.map_ext. intros k. f_equal. apply bool_decide_ext. lia.
  - rewrite bool_decide_eq_false_2 by lia. f_equal. rewrite IH.
    apply List.map_ext. intros k. f_equal. apply bool_decide_ext. lia.
Qed.

(** X26: the quota is per client and shared by the routes.  For a
    client whose identifier names nothing the store inherits, from the
    request that opens its window until the window closes, the requests
    of the client to the routes that ask the limiter are let through by
    one counter: a request is let through exactly when fewer requests of
    the client than the limit of its route were let through before it
    in the window, whatever the other clients, the routes without
    limiter and the sweep do.  The status route lets a request through
    when fewer than twenty were; a client whose requests all have the
    limit twenty gets the first twenty through and the later ones
    answered 429. *)
Theorem quota_is_shared_by_the_routes cid first opening later w :
  ownKey cid →
  limiterCall first = Some opening →
  call_clientId opening = cid →
  (∀ e, rateLimitStore w !! cid = Some e → call_now opening > resetTime e) →
  Forall (notAfter (call_now opening + call_windowMs opening)) later →
  ofClient cid (first :: later) (serve (first :: later) w).1
  = Some true :: quota cid 1 later
  ∧ (Forall (λ ev, ∃ call, limiterCall ev = Some call ∧ call_clientId call = cid
                           ∧ call_maxRequests call = 20) later →
     ofClient cid (first :: later) (serve (first :: later) w).1
     = List.map (λ k, Some (bool_decide (k < 20)%nat)) (seq 0 (S (length later)))).
Proof.
  intros _ Hfirst Hc Hfresh Hwin.
  assert (ofClient cid (first :: later) (serve (first :: later) w).1
          = Some true :: quota cid 1 later) as Hshared.
  { cbn [serve]. destruct (serveEvent_limiter first w opening Hfirst) as [Hflag Hstore].
    destruct (serveEvent first w) as [f w1]. cbn [fst snd] in Hflag, Hstore.
    rewrite Hc in Hflag, Hstore.
    rewrite RateLimitExtras.rateLimit_fresh in Hflag, Hstore by exact Hfresh.
    cbn [fst snd success] in Hflag, Hstore. subst f.
    pose proof (serve_within cid later w1
                  {| count := 1;
                     resetTime := call_now opening + call_windowMs opening |}
                  ltac:(by rewrite Hstore, lookup_insert_eq) Hwin) as Hrest.
    destruct (serve later w1) as [fs w2]. cbn [fst count] in *.
    unfold ofClient in *. cbn [zip_with]. unfold asksFor at 1.
    rewrite Hfirst, bool_decide_eq_true_2 by exact Hc. by rewrite Hrest. }
  split; [exact Hshared|]. intros Hall. rewrite Hshared.
  rewrite (quota_of_limit_twenty cid later Hall 1).
  cbn [seq List.map]. f_equal. rewrite <- List.seq_shift, List.map_map.
  apply List.map_ext. intros k. f_equal. apply bool_decide_ext. lia.
Qed.

End WorkflowExtras.

(** ** Properties of the edit and delete routes *)

Module EditExtras.
Import Lifecycle LifecycleSpec RouteSpec LifecycleFacts RouteExtras.

Lemma stranger_check user o :
  bool_decide (observerId o ≠ user_id user) && bool_decide (role user ≠ "ADMIN") = true
  ↔ isStranger user o.
Proof. unfold isStranger. by rewrite andb_true_iff, !bool_decide_eq_true. Qed.

Lemma itemScoreDeleteMany_eq oid w :
  itemScoreDeleteMany oid w
  = (Value (),
     {| db := {| observations := observations (db w);
                 observationItemScores :=
                   List.filter (λ row, negb (bool_decide (observationId row = oid)))
                               (observationItemScores (db w));
                 attachments := attachments (db w);
                 auditLogs := auditLogs (db w) |};
        rateLimitStore := rateLimitStore w |}).
Proof. reflexivity. Qed.

Lemma itemScoreCreateMany_eq rows w :
  itemScoreCreateMany rows w
  = (Value (),
     {| db := {| observations := observations (db w);
                 observationItemScores := (observationItemScores (db w) ++ rows)%list;
                 attachments := attachments (db w);
                 auditLogs := auditLogs (db w) |};
        rateLimitStore := rateLimitStore w |}).
Proof. reflexivity. Qed.

Lemma attachmentDeleteMany_eq oid w :
  attachmentDeleteMany oid w
  = (Value (),
     {| db := {| observations := observations (db w);
                 observationItemScores := observationItemScores (db w);
                 attachments :=
                   List.filter (λ a, negb (bool_decide (attachment_observationId a = oid)))
                               (attachments (db w));
                 auditLogs := auditLogs (db w) |};
        rateLimitStore := rateLimitStore w |}).
Proof. reflexivity. Qed.

Lemma observationDelete_found oid o w :
  observations (db w) !! oid = Some o →
  observationDelete oid w
  = (Value (),
     {| db := {| observations := delete oid (observations (db w));
                 observationItemScores := observationItemScores (db w);
                 attachments := attachments (db w);
                 auditLogs := auditLogs (db w) |};
        rateLimitStore := rateLimitStore w |}).
Proof.
  intros Ho. unfold observationDelete, getDb, putDb, mbind, M_bind. cbn [fst snd].
  by rewrite Ho.
Qed.

Lemma bind_auditLogCreate {B} env entry (f : () → M B) w :
  (auditLogCreate env entry ≫= f) w
  = if auditLogCreateFails env then (Throw, w) else f () (withAuditLog entry w).
Proof.
  unfold mbind, M_bind. rewrite auditLogCreate_eq.
  by destruct (auditLogCreateFails env).
Qed.

Lemma PUT_observation_eq env oid body w :
  PUT_observation env oid body w =
  match session env with
  | None => (json (ErrorBody "Unauthorized") 401, w)
  | Some user =>
    match observations (db w) !! oid with
    | None => (json (ErrorBody "Observation not found") 404, w)
    | Some o =>
      if bool_decide (observerId o ≠ user_id user) && bool_decide (role user ≠ "ADMIN")
      then (forbidden, w)
      else if bool_decide (status o = "FINALIZED")
      then (badRequest "Cannot edit finalized observation", w)
      else if exceeds (body_presentStudents body) (body_totalStudents body)
      then (badRequest "Present students cannot exceed total students", w)
      else
        let o' := applyData (updateData body) o in
        let stored (logs : list AuditLog) :=
          {| db := {| observations := <[oid := o']> (observations (db w));
                      observationItemScores :=
                        editedItemScores oid body (observationItemScores (db w));
                      attachments := attachments (db w);
                      auditLogs := logs |};
             rateLimitStore := rateLimitStore w |} in
        if auditLogCreateFails env then (internalError, stored (auditLogs (db w)))
        else (json (ObservationBody o') 200,
              stored (auditLogs (db w)
                      ++ [ {| objectType := "Observation"; objectId := oid;
                              action := "UPDATE"; userId := user_id user;
                              diff := {| diff_action := "Updated observation";
                                         previousStatus := None;
                                         newStatus := None |} |} ])%list)
    end
  end.
Proof.
  unfold PUT_observation, tryCatch, PUT_observation_body.
  destruct (session env) as [user|]; [|reflexivity].
  destruct (observations (db w) !! oid) as [o|] eqn:Ho.
  2:{ unfold findUnique, getDb, mbind, M_bind, mret, M_ret. cbn. by rewrite Ho. }
  rewrite (bind_findUnique _ o) by exact Ho.
  rewrite bind_returnIf. destruct (bool_decide _ && bool_decide _); [reflexivity|].
  rewrite bind_returnIf. destruct (bool_decide (status o = "FINALIZED")); [reflexivity|].
  rewrite bind_returnIf. destruct (exceeds _ _); [reflexivity|].
  erewrite bind_value by (by apply update_found).
  unfold editedItemScores.
  destruct (body_itemScores body) as [[|entry entries]|]; cbv zeta.
  - erewrite bind_value by reflexivity. rewrite bind_auditLogCreate.
    by destruct (auditLogCreateFails env).
  - erewrite bind_value.
    2:{ erewrite bind_value by apply itemScoreDeleteMany_eq.
        apply itemScoreCreateMany_eq. }
    rewrite bind_auditLogCreate. by destruct (auditLogCreateFails env).
  - erewrite bind_value by reflexivity. rewrite bind_auditLogCreate.
    by destruct (auditLogCreateFails env).
Qed.

Lemma DELETE_observation_eq env oid w :
  DELETE_observation env oid w =
  match session env with
  | None => (json (ErrorBody "Unauthorized") 401, w)
  | Some user =>
    match observations (db w) !! oid with
    | None => (json (ErrorBody "Observation not found") 404, w)
    | Some o =>
      if bool_decide (observerId o ≠ user_id user) && bool_decide (role user ≠ "ADMIN")
      then (forbidden, w)
      else if bool_decide (status o = "FINALIZED")
      then (badRequest "Cannot delete finalized observation", w)
      else
        let stored (logs : list AuditLog) :=
          {| db := {| observations := delete oid (observations (db w));
                      observationItemScores :=
                        List.filter (λ row, negb (bool_decide (observationId row = oid)))
                                    (observationItemScores (db w));
                      attachments :=
                        List.filter
                          (λ a, negb (bool_decide (attachment_observationId a = oid)))
                          (attachments (db w));
                      auditLogs := logs |};
             rateLimitStore := rateLimitStore w |} in
        if auditLogCreateFails env then (internalError, stored (auditLogs (db w)))
        else (json (MessageBody "Observation deleted successfully") 200,
              stored (auditLogs (db w)
                      ++ [ {| objectType := "Observation"; objectId := oid;
                              action := "DELETE"; userId := user_id user;
                              diff := {| diff_action := "Deleted observation";
                                         previousStatus := None;
                                         newStatus := None |} |} ])%list)
    end
  end.
Proof.
  unfold DELETE_observation, tryCatch, DELETE_observation_body.
  destruct (session env) as [user|]; [|reflexivity].
  destruct (observations (db w) !! oid) as [o|] eqn:Ho.
  2:{ unfold findUnique, getDb, mbind, M_bind, mret, M_ret. cbn. by rewrite Ho. }
  rewrite (bind_findUnique _ o) by exact Ho.
  rewrite bind_returnIf. destruct (bool_decide _ && bool_decide _); [reflexivity|].
  rewrite bind_returnIf. destruct (bool_decide (status o = "FINALIZED")); [reflexivity|].
  erewrite bind_value by apply itemScoreDeleteMany_eq.
  erewrite bind_value by apply attachmentDeleteMany_eq.
  erewrite bind_value by (by apply (observationDelete_found _ o)).
  rewrite bind_auditLogCreate. by destruct (auditLogCreateFails env).
Qed.


Lemma applyData_updateData body o :
  applyData (updateData body) o
  = {| id := id o; branchId := branchId o; teacherId := teacherId o;
       observerId := observerId o; reviewerId := reviewerId o;
       classSection := default (classSection o) (body_classSection body);
       totalStudents := default (totalStudents o) (body_totalStudents body);
       presentStudents := default (presentStudents o) (body_presentStudents body);
       subject := default (subject o) (body_subject body);
       topic := default (topic o) (body_topic body);
       date := default (date o) (body_date body);
       time := default (time o) (body_time body);
       lessonPlanAttached :=
         default (lessonPlanAttached o) (body_lessonPlanAttached body);
       strengths := from_option Some (strengths o) (body_strengths body);
       areasToImprove :=
         from_option Some (areasToImprove o) (body_areasToImprove body);
       suggestions := from_option Some (suggestions o) (body_suggestions body);
       status := status o; reviewedAt := reviewedAt o;
       finalizedAt := finalizedAt o; reviewerComments := reviewerComments o |}.
Proof.
  destruct o, body as [f1 f2 f3 f4 f5 f6 f7 f8 f9 f10 f11 f12]. unfold updateData.
  cbn [body_classSection body_totalStudents body_presentStudents body_subject
       body_topic body_date body_time body_lessonPlanAttached body_strengths
       body_areasToImprove body_suggestions].
  destruct f1, f2, f3, f4, f5, f6, f7, f8, f9, f10, f11; reflexivity.
Qed.






Lemma filter_filter {A} (f g : A → bool) (l : list A) :
  List.filter f (List.filter g l) = List.filter (λ x, g x && f x) l.
Proof.
  induction l as [|x l IH]; [reflexivity|]. cbn.
  destruct (g x); cbn; [destruct (f x)|]; by rewrite IH.
Qed.



(** X28: whatever the request and its outcome, the edit route leaves
    the status, the observer, the reviewer, the review and finalization
    times and the reviewer comments of the observation as they were, and
    does not touch the other observations or the attachments: the status
    of an observation changes through the status route only. *)
Theorem edit_keeps_the_workflow env oid body w o r w' :
  observations (db w) !! oid = Some o →
  PUT_observation env oid body w = (r, w') →
  (∃ o', observations (db w') !! oid = Some o' ∧ workflow o' = workflow o)
  ∧ (∀ k, k ≠ oid → observations (db w') !! k = observations (db w) !! k)
  ∧ attachments (db w') = attachments (db w).
Proof.
  intros Ho Hrun. rewrite PUT_observation_eq, Ho in Hrun.
  assert (w' = w
          ∨ observations (db w')
            = <[oid := applyData (updateData body) o]> (observations (db w))
            ∧ attachments (db w') = attachments (db w)) as [-> | [Hobs Hatt]].
  { destruct (session env) as [user|]; [|injection Hrun as _ <-; by left].
    repeat match type of Hrun with
           | (if ?c then _ else _) = _ =>
               destruct c; [injection Hrun as _ <-; by left|]
           end.
    cbv zeta in Hrun. right.
    destruct (auditLogCreateFails env); injection Hrun as _ <-; by split. }
  - split_and!; [by exists o|done|done].
  - split_and!; [|intros k Hk; by rewrite Hobs, lookup_insert_ne|done].
    exists (applyData (updateData body) o). split; [by rewrite Hobs, lookup_insert_eq|].
    by rewrite applyData_updateData.
Qed.

(** X29: the edit and the delete routes change the store only when
    they answer 200 or 500: without a session (401), for a missing
    observation (404), for an actor who is neither the observer of
    record nor an admin (403), for a FINALIZED observation and for an
    edit with more present than total students (400) the store is left
    as it was; a stranger is always answered 403. *)
Theorem edit_and_delete_rejections env oid body w :
  let e := PUT_observation env oid body w in
  let d := DELETE_observation env oid w in
  (response_status e.1 ≠ 200 → response_status e.1 ≠ 500 → e.2 = w)
  ∧ (response_status d.1 ≠ 200 → response_status d.1 ≠ 500 → d.2 = w)
  ∧ (∀ user o, session env = Some user → observations (db w) !! oid = Some o →
       isStranger user o → e = (forbidden, w) ∧ d = (forbidden, w))
  ∧ (session env = None → response_status e.1 = 401 ∧ response_status d.1 = 401).
Proof.
  intros e d. subst e d. rewrite PUT_observation_eq, DELETE_observation_eq.
  split_and!.
  - destruct (session env); [|done]. destruct (observations (db w) !! oid); [|done].
    repeat match goal with
           | |- context [if ?c then _ else _] => destruct c; try done
           end.
  - destruct (session env); [|done]. destruct (observations (db w) !! oid); [|done].
    repeat match goal with
           | |- context [if ?c then _ else _] => destruct c; try done
           end.
  - intros user o -> -> Hstr. by rewrite (proj2 (stranger_check user o) Hstr).
  - by intros ->.
Qed.

(** X30: a successful delete (by the observer of record or an admin, of
    an observation that is not FINALIZED) removes the observation with
    all its item scores and attachments and nothing else: the other
    observations, their item scores and their attachments are left as
    they were. *)
Theorem delete_cascades env oid w user o r w' :
  session env = Some user →
  observations (db w) !! oid = Some o →
  isObserverOrAdmin user o →
  status o ≠ "FINALIZED" →
  DELETE_observation env oid w = (r, w') →
  observations (db w') = delete oid (observations (db w))
  ∧ Forall (λ row, observationId row ≠ oid) (observationItemScores (db w'))
  ∧ Forall (λ a, attachment_observationId a ≠ oid) (attachments (db w'))
  ∧ (∀ k, k ≠ oid →
       itemScoresOf k (db w') = itemScoresOf k (db w)
       ∧ List.filter (λ a, bool_decide (attachment_observationId a = k))
                     (attachments (db w'))
         = List.filter (λ a, bool_decide (attachment_observationId a = k))
                       (attachments (db w)))
  ∧ (auditLogCreateFails env = false →
       r = json (MessageBody "Observation deleted successfully") 200).
Proof.
  intros Hs Ho Hactor Hst Hrun.
  rewrite DELETE_observation_eq, Hs, Ho in Hrun.
  rewrite (proj2 (actor_check user o) Hactor) in Hrun.
  rewrite bool_decide_eq_false_2 in Hrun by exact Hst. cbv zeta in Hrun.
  assert (observations (db w') = delete oid (observations (db w))
          ∧ observationItemScores (db w')
            = List.filter (λ row, negb (bool_decide (observationId row = oid)))
                          (observationItemScores (db w))
          ∧ attachments (db w')
            = List.filter (λ a, negb (bool_decide (attachment_observationId a = oid)))
                          (attachments (db w))) as (Hobs & Hrows & Hatt)
    by (destruct (auditLogCreateFails env); injection Hrun as <- <-; by split_and!).
  split_and!; [done| | | |].
  - rewrite Hrows. apply Forall_forall. intros row Hrow.
    apply list_elem_of_In, List.filter_In in Hrow as [_ Hrow].
    apply negb_true_iff, bool_decide_eq_false in Hrow. exact Hrow.
  - rewrite Hatt. apply Forall_forall. intros a Ha.
    apply list_elem_of_In, List.filter_In in Ha as [_ Ha].
    apply negb_true_iff, bool_decide_eq_false in Ha. exact Ha.
  - intros k Hk. unfold itemScoresOf. rewrite Hrows, Hatt, !filter_filter.
    split; apply List.filter_ext; intros x.
    + destruct (bool_decide (observationId x = k)) eqn:E; [|by rewrite andb_false_r].
      apply bool_decide_eq_true in E. rewrite bool_decide_eq_false_2; [reflexivity|].
      congruence.
    + destruct (bool_decide (attachment_observationId x = k)) eqn:E;
        [|by rewrite andb_false_r].
      apply bool_decide_eq_true in E. rewrite bool_decide_eq_false_2; [reflexivity|].
      congruence.
  - intros Hok. rewrite Hok in Hrun. by injection Hrun as <- _.
Qed.

End EditExtras.

(** ** The properties on concrete inputs *)

Module ScoringInstances.
Import Scoring ScoringSpec ScoringUtils ObservationForm ExtraSpec.

Lemma calculateDomainScores_reads_rubric_keys_witness :
  calculateDomainScores 0 [Examples.S.zeroAndThree_domain] MoreExamples.withStrayEntry
  = calculateDomainScores 0 [Examples.S.zeroAndThree_domain]
                          Examples.S.zeroAndThree_scores.
Proof.
  apply ScoringExtras.calculateDomainScores_reads_rubric_keys.
  intros it Hit. apply list_elem_of_In in Hit. simpl in Hit.
  destruct Hit as [<-|[<-|[]]]; vm_compute; reflexivity.
Defined.

Lemma overall_of_domainScores_witness :
  ∃ k, Scoring64.overall_percentage
         (Scoring64.calculateOverallRating
            (calculateDomainScores 0 MoreExamples.tie_rubric MoreExamples.tie_scores)
            DEFAULT_OVERALL_RATING_THRESHOLDS)
       = Binary64.ofQ (k # 100)
       ∧ Scoring64.nearestHundredths 41 (4 * 40) k.
Proof.
  apply (proj2 (proj1 (ScoringExtras.overall_of_domainScores
                         0 MoreExamples.tie_scores DEFAULT_OVERALL_RATING_THRESHOLDS)
                      (Examples.S.domain "d1"
                         (List.map (λ k, Examples.S.item (MoreExamples.tie_itemId k) 4)
                                   (seq 0 40)))
                      [])).
  - vm_compute. reflexivity.
  - vm_compute. reflexivity.
  - vm_compute. split; discriminate.
Defined.

Lemma domain_percentage_bounds_witness :
  (0 <= percentage (domainScore 0 Examples.S.zeroAndThree_scores
                                Examples.S.zeroAndThree_domain))%Q
  ∧ (percentage (domainScore 0 Examples.S.zeroAndThree_scores
                             Examples.S.zeroAndThree_domain) <= 100)%Q.
Proof.
  apply (ScoringExtras.domain_percentage_bounds 0 Examples.S.zeroAndThree_scores
           Examples.S.zeroAndThree_domain (Examples.S.item "a" 4)
           [Examples.S.item "b" 4]).
  - reflexivity.
  - intros it r Hit Hr. apply list_elem_of_In in Hit. simpl in Hit.
    destruct Hit as [<-|[<-|[]]]; vm_compute in Hr; injection Hr as <-;
      vm_compute; split; discriminate.
Defined.


Lemma overall_percentage_bounds_witness :
  (0 <= overall_percentage
          (calculateOverallRating
             (calculateDomainScores 0 Examples.S.seven_rubric Examples.S.seven_scores)
             DEFAULT_OVERALL_RATING_THRESHOLDS))%Q
  ∧ (overall_percentage
       (calculateOverallRating
          (calculateDomainScores 0 Examples.S.seven_rubric Examples.S.seven_scores)
          DEFAULT_OVERALL_RATING_THRESHOLDS) <= 100)%Q.
Proof.
  apply (ScoringExtras.overall_percentage_bounds 0 Examples.S.seven_scores
           DEFAULT_OVERALL_RATING_THRESHOLDS
           (Examples.S.domain "d1" [Examples.S.item "i1" 4; Examples.S.item "i2" 4;
                                    Examples.S.item "i3" 4; Examples.S.item "i4" 4])
           [Examples.S.domain "d2" [Examples.S.item "i5" 4; Examples.S.item "i6" 4;
                                    Examples.S.item "i7" 4]]).
  intros it r Hit Hr. apply list_elem_of_In in Hit. simpl in Hit.
  repeat (destruct Hit as [<-|Hit];
          [vm_compute in Hr; injection Hr as <-; vm_compute; split; discriminate|]).
  destruct Hit.
Defined.

Lemma export_agrees_with_default_table_witness :
  ExportRoute.overall_rating
    (ExportRoute.calculateOverallRating
       (ExportRoute.calculateDomainScores [MoreExamples.exportRow]))
  = overall_rating (calculateOverallRating (Examples.S.twoBlocks 3 1 0 0)
                                           DEFAULT_OVERALL_RATING_THRESHOLDS)
  ∧ ExportRoute.overall_color
      (ExportRoute.calculateOverallRating
         (ExportRoute.calculateDomainScores [MoreExamples.exportRow]))
    = overall_color (calculateOverallRating (Examples.S.twoBlocks 3 1 0 0)
                                            DEFAULT_OVERALL_RATING_THRESHOLDS).
Proof.
  apply (ExportExtras.export_agrees_with_default_table
           (ExportRoute.calculateDomainScores [MoreExamples.exportRow])
           {| domainId := "d1"; domainName := "d1"; total := 3 * 1 + 0 * 0;
              percentage := 0; itemScores := [Examples.S.scored 3] |} []).
  - vm_compute. reflexivity.
  - right. right. right. left. split; vm_compute; discriminate.
Defined.

Lemma progress_implies_scored_witness :
  "At least one rubric item must be scored"
  ∉ errors (validateObservationData MoreExamples.observationData).
Proof.
  apply (FormExtras.progress_implies_scored [Examples.S.zeroAndThree_domain]).
  vm_compute. reflexivity.
Defined.

Lemma rating_change_moves_total_witness :
  calculateGrandTotal
    (calculateDomainScores 0 [Examples.S.zeroAndThree_domain]
       (handleRatingChange "a" 2 Examples.S.zeroAndThree_scores))
  = calculateGrandTotal
      (calculateDomainScores 0 [Examples.S.zeroAndThree_domain]
                             Examples.S.zeroAndThree_scores)
    - contribution Examples.S.zeroAndThree_scores (Examples.S.item "a" 4) + 2.
Proof.
  apply (FormExtras.rating_change_moves_total 0 [Examples.S.zeroAndThree_domain]
           Examples.S.zeroAndThree_scores (Examples.S.item "a" 4) 2).
  - apply (bool_decide_unpack _). vm_compute. exact I.
  - apply list_elem_of_here.
Defined.


End ScoringInstances.

Module RateLimitInstances.

Lemma quota_per_window_witness :
  List.map Lifecycle.success
    (RateLimiter.rateLimitAll "10.0.0.1" 2 10 [100; 101; 102; 103] ∅).1
  = [true; true; false; false].
Proof.
  apply (RateLimitExtras.quota_per_window "10.0.0.1" 2 10 100 [101; 102; 103] ∅).
  - apply (bool_decide_unpack _). vm_compute. exact I.
  - intros e He. rewrite lookup_empty in He. discriminate He.
  - repeat constructor; lia.
Defined.

Lemma cleanup_is_transparent_witness :
  (Lifecycle.rateLimit 800 "10.0.0.1" 20 900
     (RateLimiter.cleanup 750 MoreExamples.oneWindow)).1
  = (Lifecycle.rateLimit 800 "10.0.0.1" 20 900 MoreExamples.oneWindow).1
  ∧ (Lifecycle.rateLimit 800 "10.0.0.1" 20 900
       (RateLimiter.cleanup 750 MoreExamples.oneWindow)).2 !! "10.0.0.1"
    = (Lifecycle.rateLimit 800 "10.0.0.1" 20 900 MoreExamples.oneWindow).2
        !! "10.0.0.1".
Proof.
  apply RateLimitExtras.cleanup_is_transparent. lia.
Defined.

Lemma rateLimit_invariant_witness :
  RateLimiter.countsPositive
    (Lifecycle.rateLimit 600 "10.0.0.1" 20 900 MoreExamples.oneWindow).2.
Proof.
  apply (RateLimitExtras.rateLimit_invariant 600 "10.0.0.1" 20 900
           MoreExamples.oneWindow).
  { apply (bool_decide_unpack _). vm_compute. exact I. }
  intros k e He. unfold MoreExamples.oneWindow in He.
  apply lookup_singleton_Some in He as [_ <-]. simpl. lia.
Defined.


End RateLimitInstances.

Module RouteInstances.
Import Lifecycle LifecycleSpec RouteSpec.

Lemma submit_guard_holds :
  guard SUBMIT Examples.L.observer Examples.L.draft (db MoreExamples.draftWorld) "obs1".
Proof.
  split; [left; reflexivity|]. split; [reflexivity|].
  exists {| observationId := "obs1"; rubricItemId := "i1";
            rating := Some 0; comment := None |}.
  split; [apply list_elem_of_here|]. split; [reflexivity|discriminate].
Defined.

Lemma status_route_follows_edges_witness :
  ∃ o', observations (db (PUT_status MoreExamples.observerEnv (Examples.L.request "SUBMIT")
                                     MoreExamples.draftWorld).2) !! "obs1" = Some o'
        ∧ (o' = Examples.L.draft
           ∧ response_status (PUT_status MoreExamples.observerEnv (Examples.L.request "SUBMIT")
                                         MoreExamples.draftWorld).1 ≠ 200
           ∨ ∃ a, parseAction (Some "SUBMIT") = Some a
                  ∧ edge a (status Examples.L.draft) (status o')).
Proof.
  apply (RouteExtras.status_route_follows_edges MoreExamples.observerEnv
           (Examples.L.request "SUBMIT") MoreExamples.draftWorld Examples.L.draft).
  - vm_compute. reflexivity.
  - apply surjective_pairing.
Defined.

Lemma status_route_frame_witness :
  observationItemScores
    (db (PUT_status MoreExamples.observerEnv (Examples.L.request "SUBMIT") MoreExamples.draftWorld).2)
  = observationItemScores (db MoreExamples.draftWorld).
Proof.
  exact (proj1 (RouteExtras.status_route_frame MoreExamples.observerEnv
                  (Examples.L.request "SUBMIT") MoreExamples.draftWorld _ _
                  (surjective_pairing _))).
Defined.

Lemma status_route_audit_trail_witness :
  ∃ user a from to e,
    session MoreExamples.observerEnv = Some user ∧ parseAction (Some "SUBMIT") = Some a
    ∧ edge a from to
    ∧ auditLogs (db (PUT_status MoreExamples.observerEnv (Examples.L.request "SUBMIT")
                                MoreExamples.draftWorld).2)
      = (auditLogs (db MoreExamples.draftWorld) ++ [e])%list
    ∧ objectType e = "Observation" ∧ objectId e = "obs1"
    ∧ action e = actionName a ∧ userId e = user_id user
    ∧ previousStatus (diff e) = Some from ∧ newStatus (diff e) = Some to.
Proof.
  apply (proj1 (RouteExtras.status_route_audit_trail MoreExamples.observerEnv
                  (Examples.L.request "SUBMIT") MoreExamples.draftWorld _ _
                  (surjective_pairing _))).
  vm_compute. reflexivity.
Defined.

Lemma transition_table_witness :
  response_status (PUT_status MoreExamples.observerEnv (Examples.L.request "SUBMIT")
                              MoreExamples.draftWorld).1 = 200
  ↔ guard SUBMIT Examples.L.observer Examples.L.draft (db MoreExamples.draftWorld) "obs1".
Proof.
  apply (RouteExtras.transition_table MoreExamples.observerEnv (Examples.L.request "SUBMIT")
           MoreExamples.draftWorld Examples.L.observer SUBMIT Examples.L.draft
           (PUT_status MoreExamples.observerEnv (Examples.L.request "SUBMIT") MoreExamples.draftWorld).1
           (PUT_status MoreExamples.observerEnv (Examples.L.request "SUBMIT") MoreExamples.draftWorld).2).
  - vm_compute. reflexivity.
  - reflexivity.
  - reflexivity.
  - vm_compute. reflexivity.
  - apply surjective_pairing.
  - reflexivity.
Defined.

Lemma review_records_the_reviewer_witness :
  observations
    (db (PUT_status MoreExamples.reviewerEnv
                    (MoreExamples.requestWithComments "REVIEW" MoreExamples.paddedComment)
                    (Examples.L.world MoreExamples.submitted)).2)
  = <["obs1" := Examples.L.observation "REVIEWED" (Some "u2") (Some 1000)
                                       (Some "Well prepared")]>
      (observations (db (Examples.L.world MoreExamples.submitted))).
Proof.
  refine (proj1 (WorkflowExtras.review_records_the_reviewer MoreExamples.reviewerEnv
                   (MoreExamples.requestWithComments "REVIEW" MoreExamples.paddedComment)
                   (Examples.L.world MoreExamples.submitted)
                   Examples.L.reviewer MoreExamples.submitted _ _
                   _ _ _ _ _ _ (surjective_pairing _))).
  - vm_compute. reflexivity.
  - reflexivity.
  - left. reflexivity.
  - reflexivity.
  - vm_compute. reflexivity.
  - reflexivity.
Defined.

Lemma finalize_records_the_time_witness :
  observations
    (db (PUT_status MoreExamples.reviewerEnv (Examples.L.request "FINALIZE")
                    (Examples.L.world Examples.L.reviewed)).2)
  = <["obs1" := MoreExamples.finalizedObservation 1000]>
      (observations (db (Examples.L.world Examples.L.reviewed))).
Proof.
  refine (proj1 (WorkflowExtras.finalize_records_the_time MoreExamples.reviewerEnv
                   (Examples.L.request "FINALIZE")
                   (Examples.L.world Examples.L.reviewed)
                   Examples.L.reviewer Examples.L.reviewed _ _
                   _ _ _ _ _ _ (surjective_pairing _))).
  - vm_compute. reflexivity.
  - reflexivity.
  - left. reflexivity.
  - reflexivity.
  - vm_compute. reflexivity.
  - reflexivity.
Defined.

Lemma return_to_draft_undoes_submit_witness :
  observations
    (db (PUT_status MoreExamples.reviewerEnv (Examples.L.request "RETURN_TO_DRAFT")
           (PUT_status MoreExamples.observerEnv (Examples.L.request "SUBMIT") MoreExamples.draftWorld).2).2)
  = observations (db MoreExamples.draftWorld).
Proof.
  refine (proj1 (WorkflowExtras.return_to_draft_undoes_submit
                   MoreExamples.observerEnv (Examples.L.request "SUBMIT")
                   MoreExamples.reviewerEnv (Examples.L.request "RETURN_TO_DRAFT")
                   MoreExamples.draftWorld Examples.L.observer Examples.L.reviewer
                   Examples.L.draft _ _ _ _ _ _ _ submit_guard_holds _ _ _ _ _)).
  - reflexivity.
  - reflexivity.
  - reflexivity.
  - reflexivity.
  - reflexivity.
  - left. reflexivity.
  - vm_compute. reflexivity.
  - reflexivity.
  - reflexivity.
  - reflexivity.
  - vm_compute. reflexivity.
  - vm_compute. reflexivity.
Defined.

Lemma workflow_reaches_finalized_witness :
  ∃ o3, observations
          (db (PUT_status MoreExamples.reviewerEnv (Examples.L.request "FINALIZE")
                 (PUT_status MoreExamples.reviewerEnv
                    (MoreExamples.requestWithComments "REVIEW" MoreExamples.paddedComment)
                    (PUT_status MoreExamples.observerEnv (Examples.L.request "SUBMIT")
                                MoreExamples.draftWorld).2).2).2) !! "obs1" = Some o3
        ∧ status o3 = "FINALIZED"
        ∧ reviewerId o3 = Some "u2"
        ∧ reviewedAt o3 = Some 1000
        ∧ reviewerComments o3 = Some "Well prepared"
        ∧ finalizedAt o3 = Some 1000
        ∧ content o3 = content Examples.L.draft.
Proof.
  refine (proj1 (WorkflowExtras.workflow_reaches_finalized
                   MoreExamples.observerEnv (Examples.L.request "SUBMIT")
                   MoreExamples.reviewerEnv
                   (MoreExamples.requestWithComments "REVIEW" MoreExamples.paddedComment)
                   MoreExamples.reviewerEnv (Examples.L.request "FINALIZE")
                   MoreExamples.draftWorld Examples.L.observer Examples.L.reviewer
                   Examples.L.reviewer Examples.L.draft
                   _ _ _ _ _ _ _ _ _ _ _ submit_guard_holds _ _ _)).
  - reflexivity.
  - reflexivity.
  - reflexivity.
  - reflexivity.
  - reflexivity.
  - reflexivity.
  - reflexivity.
  - reflexivity.
  - left. reflexivity.
  - left. reflexivity.
  - vm_compute. reflexivity.
  - vm_compute. reflexivity.
  - vm_compute. reflexivity.
  - vm_compute. reflexivity.
Defined.

Lemma quota_is_shared_by_the_routes_witness :
  ofClient "10.0.0.1" MoreExamples.mixedRequests
           (serve MoreExamples.mixedRequests MoreExamples.draftWorld).1
  = (repeat (Some true) 16 ++ None :: None :: repeat (Some true) 4
     ++ repeat (Some false) 2)%list
  ∧ ofClient "10.0.0.1" MoreExamples.statusRequests
             (serve MoreExamples.statusRequests MoreExamples.draftWorld).1
    = (repeat (Some true) 20 ++ repeat (Some false) 2)%list.
Proof.
  assert (RateLimiter.ownKey "10.0.0.1") as Hown
      by (apply (bool_decide_unpack _); vm_compute; exact I).
  assert (∀ e, rateLimitStore MoreExamples.draftWorld !! "10.0.0.1" = Some e →
               1000 > resetTime e) as Hfresh
      by (intros e He; vm_compute in He; discriminate He).
  split.
  - refine (proj1 (WorkflowExtras.quota_is_shared_by_the_routes "10.0.0.1"
                     (ToStatusRoute MoreExamples.observerEnv (Examples.L.request "SUBMIT"))
                     _ (tl MoreExamples.mixedRequests) MoreExamples.draftWorld
                     Hown eq_refl eq_refl Hfresh _)).
    repeat constructor; vm_compute; discriminate.
  - refine (proj2 (WorkflowExtras.quota_is_shared_by_the_routes "10.0.0.1"
                     (ToStatusRoute MoreExamples.observerEnv (Examples.L.request "SUBMIT"))
                     _ (tl MoreExamples.statusRequests) MoreExamples.draftWorld
                     Hown eq_refl eq_refl Hfresh _) _).
    + repeat constructor; vm_compute; discriminate.
    + repeat constructor; eexists; split_and!; reflexivity.
Defined.


Lemma edit_keeps_the_workflow_witness :
  ∃ o', observations
          (db (PUT_observation MoreExamples.observerEnv "obs1" MoreExamples.editWithScores
                               MoreExamples.draftWorld).2) !! "obs1" = Some o'
        ∧ workflow o' = workflow Examples.L.draft.
Proof.
  refine (proj1 (EditExtras.edit_keeps_the_workflow MoreExamples.observerEnv "obs1"
                   MoreExamples.editWithScores MoreExamples.draftWorld Examples.L.draft _ _
                   _ (surjective_pairing _))).
  vm_compute. reflexivity.
Defined.

Lemma delete_cascades_witness :
  observations (db (DELETE_observation MoreExamples.observerEnv "obs1" MoreExamples.draftWorld).2)
  = delete "obs1" (observations (db MoreExamples.draftWorld)).
Proof.
  refine (proj1 (EditExtras.delete_cascades MoreExamples.observerEnv "obs1" MoreExamples.draftWorld
                   Examples.L.observer Examples.L.draft _ _
                   _ _ _ _ (surjective_pairing _))).
  - reflexivity.
  - vm_compute. reflexivity.
  - left. reflexivity.
  - discriminate.
Defined.

End RouteInstances.
